(** * CampTrack: pagination helper and direct-messaging subsystem

    A shallow embedding of [camptrack/utils/pagination.py], of the
    queries and control loops of [camptrack/chat.py] and of the text
    helpers of [camptrack/ui.py] they print with, with the properties of
    the direct-messaging specification stated and proved over it.

    Conventions of the embedding:
    - Python [int] is [Z] (unbounded); [len] is [Z.of_nat (length _)].
    - Python [str] is [string], read as a sequence of code points: the
      model covers the strings of code points below 256, for which
      [str.lower], [str.strip], [str.isdigit] and [int] are written out
      below as CPython 3.11 defines them.
    - A Python function that may raise returns [PyResult].
    - A SQLite table is the list of its rows in rowid order. *)

From Stdlib Require Import ZArith List Bool Lia String Ascii.
From Stdlib Require Import Sorting.Sorted Sorting.Permutation.
Import ListNotations.

Open Scope string_scope.
Open Scope list_scope.
Open Scope Z_scope.

(** ** Python values and exceptions *)

Inductive PyException : Type :=
| ZeroDivisionError
| IndexError
| ValueError.

Inductive PyResult (A : Type) : Type :=
| Ok (value : A)
| Raise (exn : PyException).

Arguments Ok {A} value.
Arguments Raise {A} exn.

Definition len {A : Type} (l : list A) : Z := Z.of_nat (List.length l).

(** [math.ceil(a / b)] for integers [a] and [b <> 0]; [Z.div] is floor
    division, as Python's [//]. *)
Definition ceil_div (a b : Z) : Z := - ((- a) / b).

(** Normalisation of one bound of a slice [l[start:stop]]. *)
Definition slice_index (n i : Z) : Z :=
  if i <? 0 then Z.max 0 (i + n) else Z.min i n.

(** [l[start:stop]]: out-of-range bounds are clipped, never an error. *)
Definition py_slice {A : Type} (l : list A) (start stop : Z) : list A :=
  let a := slice_index (len l) start in
  let b := slice_index (len l) stop in
  firstn (Z.to_nat (b - a)) (skipn (Z.to_nat a) l).

(** [l[i]] for an index the caller has not normalised: negative indices
    count from the end, anything outside raises [IndexError]. *)
Definition py_index {A : Type} (l : list A) (i : Z) : PyResult A :=
  let j := if i <? 0 then i + len l else i in
  if j <? 0 then Raise IndexError
  else match nth_error l (Z.to_nat j) with
       | Some x => Ok x
       | None => Raise IndexError
       end.

(** ** Strings *)

Module PyStr.

(** [c.isspace()] for a code point below 256: the white space
    [str.strip] removes. *)
Definition is_space (c : ascii) : bool :=
  let n := nat_of_ascii c in
  ((9 <=? n) && (n <=? 13) || (28 <=? n) && (n <=? 32)
   || (n =? 133) || (n =? 160))%nat.

(** The decimal digits ['0'] to ['9']. *)
Definition is_decimal (c : ascii) : bool :=
  let n := nat_of_ascii c in ((48 <=? n) && (n <=? 57))%nat.

(** [c.isdigit()] for a code point below 256: the decimal digits and
    the superscripts two, three and one (178, 179, 185), which are
    digits to [str.isdigit] and are none to [int]. *)
Definition is_digit (c : ascii) : bool :=
  let n := nat_of_ascii c in
  is_decimal c || ((n =? 178) || (n =? 179) || (n =? 185))%nat.

Definition digit_value (c : ascii) : Z := Z.of_nat (nat_of_ascii c) - 48.

(** [c.lower()] for a code point below 256: the letters [A] to [Z] and
    the accented capitals 192 to 222, the multiplication sign 215
    apart. *)
Definition lower_char (c : ascii) : ascii :=
  let n := nat_of_ascii c in
  if ((65 <=? n) && (n <=? 90)
      || (192 <=? n) && (n <=? 222) && negb (n =? 215))%nat
  then ascii_of_nat (n + 32) else c.

Fixpoint lower (s : string) : string :=
  match s with
  | EmptyString => EmptyString
  | String c s' => String (lower_char c) (lower s')
  end.

Fixpoint lstrip (s : string) : string :=
  match s with
  | EmptyString => EmptyString
  | String c s' => if is_space c then lstrip s' else s
  end.

(** Drops trailing white space: a character is kept when it is not a
    space or when something is kept after it. *)
Fixpoint rstrip (s : string) : string :=
  match s with
  | EmptyString => EmptyString
  | String c s' =>
      match rstrip s' with
      | EmptyString => if is_space c then EmptyString else String c EmptyString
      | r => String c r
      end
  end.

Definition strip (s : string) : string := rstrip (lstrip s).

(** [s.isdigit()]: non-empty and made of digits. *)
Fixpoint all_digits (s : string) : bool :=
  match s with
  | EmptyString => true
  | String c s' => is_digit c && all_digits s'
  end.

Definition isdigit (s : string) : bool :=
  match s with
  | EmptyString => false
  | _ => all_digits s
  end.


Definition startswith (p s : string) : bool := String.prefix p s.

(** [s[1:]] *)
Definition tail (s : string) : string :=
  match s with
  | EmptyString => EmptyString
  | String _ s' => s'
  end.

(** [c * n] for a character [c]. *)
Fixpoint replicate (c : ascii) (n : nat) : string :=
  match n with
  | O => EmptyString
  | S k => String c (replicate c k)
  end.

(** The white space [int] skips around a literal: that of C's [isspace]
    (9 to 13 and the blank) and, from 128 on, the white space [int]
    rewrites to a blank before it parses (133, 160).  The separators 28
    to 31, which [str.strip] removes, are none to [int]. *)
Definition is_int_space (c : ascii) : bool :=
  let n := nat_of_ascii c in
  ((9 <=? n) && (n <=? 13) || (n =? 32) || (n =? 133) || (n =? 160))%nat.

Fixpoint skip_spaces (s : string) : string :=
  match s with
  | EmptyString => EmptyString
  | String c s' => if is_int_space c then skip_spaces s' else s
  end.

Fixpoint all_int_space (s : string) : bool :=
  match s with
  | EmptyString => true
  | String c s' => is_int_space c && all_int_space s'
  end.

(** The digits of an [int] literal and what follows them: single
    underscores may separate digits, and only white space may follow
    the last digit.  The result is the value and the number of
    digits. *)
Fixpoint parse_digits (s : string) (acc count : Z) (after_digit : bool)
  : option (Z * Z) :=
  match s with
  | EmptyString => if after_digit then Some (acc, count) else None
  | String c s' =>
      if is_decimal c
      then parse_digits s' (10 * acc + digit_value c) (count + 1) true
      else if Ascii.eqb c "_"%char
           then (if after_digit then parse_digits s' acc count false
                 else None)
           else if after_digit && all_int_space s then Some (acc, count)
                else None
  end.

(** The default of [sys.get_int_max_str_digits()], which the program
    leaves as it is. *)
Definition MAX_STR_DIGITS : Z := 4300.

(** [int(s)]: white space, an optional sign, digits, white space;
    anything else, and a literal of more than [MAX_STR_DIGITS] digits,
    is a [ValueError]. *)
Definition int (s : string) : PyResult Z :=
  let body := skip_spaces s in
  let signed :=
    match body with
    | String "-"%char r => (-1, r)
    | String "+"%char r => (1, r)
    | _ => (1, body)
    end in
  match parse_digits (snd signed) 0 0 false with
  | Some (n, digits) =>
      if MAX_STR_DIGITS <? digits then Raise ValueError
      else Ok (fst signed * n)
  | None => Raise ValueError
  end.

End PyStr.

(** ** [camptrack/utils/pagination.py] *)

Module Pagination.

Definition DEFAULT_PAGE_SIZE : Z := 5.

(** [get_page_data(data, page_number, page_size)] returns the slice of the
    requested page and the number of pages. *)
Definition get_page_data {A : Type} (data : list A) (page_number page_size : Z)
  : PyResult (list A * Z) :=
  match data with
  | [] => Ok ([], 0)
  | _ =>
      if page_size =? 0 then Raise ZeroDivisionError
      else
        let num_pages := ceil_div (len data) page_size in
        let current_page := Z.max 1 (Z.min page_number num_pages) in
        let start_idx := (current_page - 1) * page_size in
        let end_idx := start_idx + page_size in
        Ok (py_slice data start_idx end_idx, num_pages)
  end.

(** What [process_pagination_command] does besides returning. *)
Inductive Effect : Type :=
| PrintPageRange (num_pages : Z)
| WaitForEnter.

(** [process_pagination_command(command, current_page, num_pages)]:
    the new page, whether the input was a pagination command, and the
    console effects on the way. *)
Definition process_pagination_command (command : string)
    (current_page num_pages : Z) : Z * bool * list Effect :=
  let cmd := PyStr.strip (PyStr.lower command) in
  if String.eqb cmd "p" && (1 <? current_page) then
    (current_page - 1, true, [])
  else if String.eqb cmd "n" && (current_page <? num_pages) then
    (current_page + 1, true, [])
  else if String.eqb cmd "f" then (1, true, [])
  else if String.eqb cmd "l" then (num_pages, true, [])
  else if PyStr.startswith "g" cmd then
    match PyStr.int (PyStr.tail cmd) with
    | Ok val =>
        if (1 <=? val) && (val <=? num_pages) then (val, true, [])
        else (current_page, true, [PrintPageRange num_pages; WaitForEnter])
    | Raise _ => (current_page, false, [])
    end
  else (current_page, false, []).

(** The items of a page, for a call that returned. *)
Definition page_items {A : Type} (r : PyResult (list A * Z)) : list A :=
  match r with
  | Ok (items, _) => items
  | Raise _ => []
  end.

Definition page_count {A : Type} (r : PyResult (list A * Z)) : option Z :=
  match r with
  | Ok (_, n) => Some n
  | Raise _ => None
  end.

(** Page numbers [1 .. n]. *)
Definition page_numbers (n : Z) : list Z :=
  map Z.of_nat (seq 1 (Z.to_nat n)).

End Pagination.

(** ** The message store *)

Module Store.

(** Modelled from the spec: the schema of the [users] and [messages]
    tables is not part of the sources; the columns are those the queries
    of [chat.py] read and write.  [created_at] is an SQLite [TEXT]
    timestamp ['%Y-%m-%d %H:%M:%S'], compared as text; it is kept here as
    the number of seconds it denotes, which orders the same way.
    [is_read] and [is_disabled] are the 0/1 flags. *)
Record User : Type := mkUser {
  u_id : Z;
  u_username : string;
  u_role : string;
  u_is_disabled : bool
}.

Record Message : Type := mkMessage {
  m_id : Z;
  m_sender_id : Z;
  m_recipient_id : Z;
  m_message : string;
  m_created_at : Z;
  m_is_read : bool
}.

Record DB : Type := mkDB {
  users : list User;
  messages : list Message
}.

(** *** The SQL constructs the queries use *)

Section Sql.
Context {A : Type}.
Variable key : A -> Z.

(** [ORDER BY key DESC].  SQLite leaves the order of rows with equal
    keys open; here they keep their input order.  The properties below
    either do not depend on that order or are stated for keys that are
    strictly ordered. *)
Fixpoint insert_desc (x : A) (l : list A) : list A :=
  match l with
  | [] => [x]
  | y :: l' => if key x <? key y then y :: insert_desc x l' else x :: l
  end.

Definition order_by_desc (l : list A) : list A :=
  fold_right insert_desc [] l.

(** [ORDER BY key ASC], rows with equal keys in input order. *)
Fixpoint insert_asc (x : A) (l : list A) : list A :=
  match l with
  | [] => [x]
  | y :: l' => if key y <? key x then y :: insert_asc x l' else x :: l
  end.

Definition order_by_asc (l : list A) : list A :=
  fold_right insert_asc [] l.
End Sql.

(** [LIMIT limit OFFSET offset]: a negative limit is no limit, a negative
    offset is no offset. *)
Definition limit_offset {A : Type} (limit offset : Z) (rows : list A) : list A :=
  let rest := skipn (Z.to_nat offset) rows in
  if limit <? 0 then rest else firstn (Z.to_nat limit) rest.

(** The distinct values of a column, in ascending order ([GROUP BY],
    [PARTITION BY], [COUNT(DISTINCT ...)]). *)
Definition distinct (l : list Z) : list Z :=
  order_by_asc (fun z => z) (nodup Z.eq_dec l).

(** [ROW_NUMBER()] over an ordered partition. *)
Definition row_number {A : Type} (l : list A) : list (A * Z) :=
  combine l (map Z.of_nat (seq 1 (List.length l))).

(** [INSERT INTO messages (sender_id, recipient_id, message)]: the store
    assigns the next id, stamps the row with its clock [now], and the
    row is unread. *)
Definition next_id (db : DB) : Z :=
  1 + fold_right Z.max 0 (map m_id (messages db)).

Definition insert_message (db : DB) (sender recipient : Z) (text : string)
    (now : Z) : DB :=
  mkDB (users db)
       (messages db ++ [mkMessage (next_id db) sender recipient text now false]).

Definition set_read (m : Message) : Message :=
  mkMessage (m_id m) (m_sender_id m) (m_recipient_id m) (m_message m)
            (m_created_at m) true.

(** [UPDATE messages SET is_read = 1 WHERE <cond>] *)
Definition update_is_read (cond : Message -> bool) (db : DB) : DB :=
  mkDB (users db)
       (map (fun m => if cond m then set_read m else m) (messages db)).

End Store.

(** ** [camptrack/chat.py]: the queries of [MessagingInterface] *)

Module Chat.
Import Store.

(** Rows of [messages_with] and of the poller's query. *)
Record MessageRow : Type := mkMessageRow {
  row_id : Z;
  row_sender_id : Z;
  row_message : string;
  row_created_at : Z;
  row_sender_username : string
}.

(** Rows of [chats]. *)
Record ChatRow : Type := mkChatRow {
  chat_partner_username : string;
  chat_role : string;
  chat_sender_id : Z;
  chat_partner_id : Z;
  chat_message : string;
  chat_timestamp : Z;
  num_unread : Z
}.

(** Rows of the [chat_threads] common table expression. *)
Record Thread : Type := mkThread {
  t_sender_id : Z;
  t_chat_partner_id : Z;
  t_message : string;
  t_timestamp : Z
}.

(** [CASE WHEN sender_id = ? THEN recipient_id ELSE sender_id END] *)
Definition partner_of (uid : Z) (m : Message) : Z :=
  if m_sender_id m =? uid then m_recipient_id m else m_sender_id m.

Definition involves (uid : Z) (m : Message) : bool :=
  (m_sender_id m =? uid) || (m_recipient_id m =? uid).

(** [(sender_id = a AND recipient_id = b) OR (sender_id = b AND
    recipient_id = a)] *)
Definition between (a b : Z) (m : Message) : bool :=
  (m_sender_id m =? a) && (m_recipient_id m =? b)
  || (m_sender_id m =? b) && (m_recipient_id m =? a).

(** [nondisabled_users]: [ORDER BY role, username] is left out, the
    callers modelled here only search the result by username. *)
Definition nondisabled_users (db : DB) (uid : Z) : list User :=
  filter (fun u => negb (u_is_disabled u) && negb (u_id u =? uid)) (users db).

Definition nondisabled_id (db : DB) (p : Z) : bool :=
  existsb (fun u => (u_id u =? p) && negb (u_is_disabled u)) (users db).

(** [total_chats] *)
Definition total_chats (db : DB) (uid : Z) : Z :=
  len (distinct
         (map (partner_of uid)
              (filter (fun m => involves uid m
                                && nondisabled_id db (partner_of uid m))
                      (messages db)))).

Definition chat_threads (db : DB) (uid : Z) : list Thread :=
  map (fun m => mkThread (m_sender_id m) (partner_of uid m)
                         (m_message m) (m_created_at m))
      (filter (involves uid) (messages db)).

(** [latest_in_thread]: every thread row with its rank inside the
    partition of its chat partner, latest first. *)
Definition latest_in_thread (db : DB) (uid : Z) : list (Thread * Z) :=
  let threads := chat_threads db uid in
  flat_map
    (fun p => row_number
                (order_by_desc t_timestamp
                   (filter (fun t => t_chat_partner_id t =? p) threads)))
    (distinct (map t_chat_partner_id threads)).

(** [unread_totals]: pairs [(num_unread, chat_partner_id)]. *)
Definition unread_totals (db : DB) (uid : Z) : list (Z * Z) :=
  let unread := filter (fun m => (m_recipient_id m =? uid)
                                 && negb (m_is_read m)) (messages db) in
  map (fun s => (len (filter (fun m => m_sender_id m =? s) unread), s))
      (distinct (map m_sender_id unread)).

(** [LEFT JOIN unread_totals ut ON lt.chat_partner_id = ut.chat_partner_id]
    followed by [COALESCE(ut.num_unread, 0)]. *)
Definition left_join_unread (totals : list (Z * Z)) (p : Z) : list Z :=
  match filter (fun ut => snd ut =? p) totals with
  | [] => [0]
  | matches => map fst matches
  end.

(** The final [SELECT] of [chats], before [LIMIT]. *)
Definition chats_query (db : DB) (uid : Z) : list ChatRow :=
  let totals := unread_totals db uid in
  order_by_desc chat_timestamp
    (flat_map
       (fun lt : Thread * Z =>
          let (t, msg_rank) := lt in
          if msg_rank =? 1 then
            flat_map
              (fun u : User =>
                 map (fun n => mkChatRow (u_username u) (u_role u)
                                 (t_sender_id t) (t_chat_partner_id t)
                                 (t_message t) (t_timestamp t) n)
                     (left_join_unread totals (t_chat_partner_id t)))
              (filter (fun u => (t_chat_partner_id t =? u_id u)
                                && negb (u_is_disabled u)) (users db))
          else [])
       (latest_in_thread db uid)).

(** Truth value of an [Optional[int]] argument. *)
Definition truthy (limit : option Z) : bool :=
  match limit with
  | Some n => negb (n =? 0)
  | None => false
  end.

(** [chats(limit, offset)]: the [LIMIT] clause is appended [if limit]. *)
Definition chats (db : DB) (uid : Z) (limit : option Z) (offset : Z)
  : list ChatRow :=
  match limit with
  | Some n => if truthy limit then limit_offset n offset (chats_query db uid)
              else chats_query db uid
  | None => chats_query db uid
  end.

(** [total_messages_with] *)
Definition total_messages_with (db : DB) (uid other : Z) : Z :=
  len (filter (between uid other) (messages db)).

(** [FROM messages m INNER JOIN users u ON m.sender_id = u.id] *)
Definition join_sender (db : DB) (ms : list Message) : list MessageRow :=
  flat_map
    (fun m => map (fun u => mkMessageRow (m_id m) (m_sender_id m) (m_message m)
                                         (m_created_at m) (u_username u))
                  (filter (fun u => m_sender_id m =? u_id u) (users db)))
    ms.

(** [messages_with(other, limit, offset)] with the limit already
    defaulted by the caller: latest first, cut, then reversed. *)
Definition messages_with (db : DB) (uid other : Z) (limit offset : Z)
  : list MessageRow :=
  rev (limit_offset limit offset
         (order_by_desc row_created_at
            (join_sender db (filter (between uid other) (messages db))))).

(** [send_message] *)
Definition send_message (db : DB) (uid : Z) (text : string) (recipient : Z)
    (now : Z) : DB :=
  insert_message db uid recipient text now.

End Chat.

(** ** [camptrack/chat.py]: the state and the loops of [MessagingInterface] *)

Module Interface.
Import Store Chat.

(** The fields of a [MessagingInterface] instance; [user_id] is
    [self.user.id]. *)
Record MessagingInterface : Type := mkInterface {
  user_id : Z;
  is_executing : bool;
  chats_per_page : Z;
  chat_page : Z;
  chatting : bool;
  recipient_id : option Z;
  recipient_username : option string;
  messages_per_page : Z;
  last_msg : Z;
  history_offset : Z
}.

(** [__init__(user, chats_per_page=3)] *)
Definition init (uid : Z) (per_page : Z) : MessagingInterface :=
  mkInterface uid true per_page 0 false None None 10 0 0.

Definition set_is_executing (b : bool) (s : MessagingInterface) :=
  mkInterface (user_id s) b (chats_per_page s) (chat_page s) (chatting s)
    (recipient_id s) (recipient_username s) (messages_per_page s)
    (last_msg s) (history_offset s).

Definition set_chat_page (p : Z) (s : MessagingInterface) :=
  mkInterface (user_id s) (is_executing s) (chats_per_page s) p (chatting s)
    (recipient_id s) (recipient_username s) (messages_per_page s)
    (last_msg s) (history_offset s).

Definition set_last_msg (i : Z) (s : MessagingInterface) :=
  mkInterface (user_id s) (is_executing s) (chats_per_page s) (chat_page s)
    (chatting s) (recipient_id s) (recipient_username s)
    (messages_per_page s) i (history_offset s).

Definition set_history_offset (o : Z) (s : MessagingInterface) :=
  mkInterface (user_id s) (is_executing s) (chats_per_page s) (chat_page s)
    (chatting s) (recipient_id s) (recipient_username s)
    (messages_per_page s) (last_msg s) o.

(** The first four assignments of [goto_chat_view]. *)
Definition enter_chat (rid : Z) (rname : string) (s : MessagingInterface) :=
  mkInterface (user_id s) (is_executing s) (chats_per_page s) (chat_page s)
    true (Some rid) (Some rname) (messages_per_page s) (last_msg s) 0.

(** Leaving the message loop of [goto_chat_view]: [self.chatting = False],
    then the three assignments after the loop. *)
Definition leave_chat (s : MessagingInterface) :=
  mkInterface (user_id s) (is_executing s) (chats_per_page s) (chat_page s)
    false None None (messages_per_page s) 0 (history_offset s).

(** Which call of [show_message_from] printed a message. *)
Inductive Source : Type :=
| Initial   (* the window printed when the chat is opened *)
| Polled    (* the poller thread *)
| Older     (* [/more] *)
| Redrawn.  (* [/clear] *)

(** What the interface prints, in the order it prints it. *)
Inductive Printed : Type :=
| ShowMessage (src : Source) (row : MessageRow)
| ClearScreen
| ChatHeader (other : string)
| ShowingRecent (shown total : Z)
| EnterMoreHint (older : Z)
| ShowingAll (shown : Z)
| Rule
| ChatHelp
| NoOlderMessages
| LoadingOlder (count : Z)
| OlderRemaining (remaining : Z)
| AllMessagesLoaded
| UnrecognizedCommand (command : string)
| TechnicalDifficulties
| ClearTerminalLines (text : string).   (* [clear_terminal_lines(text)] *)

(** [messages[-1]['id'] if messages else 0] *)
Definition last_id (rows : list MessageRow) : Z :=
  match rev rows with
  | r :: _ => row_id r
  | [] => 0
  end.

(** [goto_chat_view] up to the start of the poller thread: the read
    receipt, the initial window, the watermark. *)
Definition open_chat (db : DB) (s : MessagingInterface) (rid : Z)
    (rname : string) : DB * MessagingInterface * list Printed :=
  let s1 := enter_chat rid rname s in
  let db1 := update_is_read
               (fun m => (m_sender_id m =? rid)
                         && (m_recipient_id m =? user_id s1)) db in
  let total_messages := total_messages_with db1 (user_id s1) rid in
  let msgs := messages_with db1 (user_id s1) rid (messages_per_page s1)
                (history_offset s1) in
  let s2 := set_last_msg (last_id msgs) s1 in
  let banner :=
    if messages_per_page s2 <? total_messages then
      [ShowingRecent (len msgs) total_messages;
       EnterMoreHint (Z.min (messages_per_page s2)
                            (total_messages - messages_per_page s2))]
    else match msgs with
         | [] => []
         | _ => [ShowingAll (len msgs)]
         end in
  let footer := match msgs with [] => [] | _ => [Rule] end in
  (db1, s2,
   [ClearScreen; ChatHeader rname] ++ banner
   ++ map (ShowMessage Initial) msgs ++ footer).

(** [get_older_messages_from(user_id)] *)
Definition get_older_messages_from (db : DB) (s : MessagingInterface)
    (other : Z) : MessagingInterface * list Printed :=
  let total_messages := total_messages_with db (user_id s) other in
  let offset := history_offset s + messages_per_page s in
  if total_messages <=? offset then (s, [NoOlderMessages])
  else
    let msgs := messages_with db (user_id s) other (messages_per_page s)
                  offset in
    match msgs with
    | [] => (s, [])
    | _ =>
        let s' := set_history_offset offset s in
        let remaining :=
          total_messages - (history_offset s' + messages_per_page s') in
        (s', [LoadingOlder (len msgs)] ++ map (ShowMessage Older) msgs
             ++ [if 0 <? remaining then OlderRemaining remaining
                 else AllMessagesLoaded])
    end.

(** The poller's [SELECT]; a comparison with the [NULL] of a closed chat
    selects nothing. *)
Definition poll_query (db : DB) (s : MessagingInterface) : list MessageRow :=
  match recipient_id s with
  | None => []
  | Some rid =>
      order_by_asc row_id
        (join_sender db
           (filter (fun m => (last_msg s <? m_id m)
                             && between (user_id s) rid m)
                   (messages db)))
  end.

Definition is_recipient (s : MessagingInterface) (sender : Z) : bool :=
  match recipient_id s with
  | Some rid => rid =? sender
  | None => false
  end.

(** The body of the poller's [for row in messages]. *)
Definition poll_row (acc : DB * MessagingInterface * list Printed)
    (row : MessageRow) : DB * MessagingInterface * list Printed :=
  let '(db, s, out) := acc in
  let db' := if is_recipient s (row_sender_id row)
             then update_is_read (fun m => m_id m =? row_id row) db
             else db in
  (db', set_last_msg (row_id row) s, out ++ [ShowMessage Polled row]).

(** One iteration of [poll_and_print_new_messages_in_thread] that meets
    no storage error. *)
Definition poll (db : DB) (s : MessagingInterface)
  : DB * MessagingInterface * list Printed :=
  if is_executing s && chatting s
  then fold_left poll_row (poll_query db s) (db, s, [])
  else (db, s, []).

Definition one_of (cmd : string) (names : list string) : bool :=
  existsb (String.eqb cmd) names.

(** One iteration of the message loop of [goto_chat_view]; [rid] and
    [rname] are the function's arguments, [raw] the line read, [now] the
    store's clock should the line be sent.  Whatever the line is, it is
    first wiped from the terminal. *)
Definition chat_input (db : DB) (s : MessagingInterface) (rid : Z)
    (rname : string) (raw : string) (now : Z)
  : DB * MessagingInterface * list Printed :=
  if is_executing s && chatting s then
    let message := PyStr.strip raw in
    let wiped := ClearTerminalLines raw in
    let cmd := PyStr.lower message in
    if one_of cmd ["/b"; "/back"; "/q"; "/quit"; "/exit"] then
      (db, leave_chat s, [wiped])
    else if one_of cmd ["/c"; "/clear"; "/clean"] then
      let msgs := messages_with db (user_id s) rid
                    (messages_per_page s + history_offset s) 0 in
      (db, s, wiped :: [ClearScreen; ChatHeader rname]
              ++ map (ShowMessage Redrawn) msgs)
    else if one_of cmd ["/m"; "/more"] then
      let (s', out) := get_older_messages_from db s rid in
      (db, s', wiped :: out)
    else if one_of cmd ["/help"; "/h"] then (db, s, [wiped; ChatHelp])
    else match message with
         | EmptyString => (db, s, [wiped])
         | _ => (send_message db (user_id s) message rid now, s, [wiped])
         end
  else (db, s, []).

(** [KeyboardInterrupt] inside the message loop. *)
Definition chat_interrupt (s : MessagingInterface) : MessagingInterface :=
  if is_executing s && chatting s then leave_chat s else s.

End Interface.

(** ** Vocabulary of the specification *)

Module Spec.
Import Store Chat Interface.

(** The items of page [p] (one-based) for pages of [s] items. *)
Definition page_slice {A : Type} (data : list A) (p s : Z) : list A :=
  firstn (Z.to_nat s) (skipn (Z.to_nat ((p - 1) * s)) data).

(** The unread count of the specification: the number of messages where
    [recipient_id = user] and [sender_id = partner] and [is_read = false]. *)
Definition unread_count (db : DB) (user partner : Z) : Z :=
  len (filter (fun m => (m_recipient_id m =? user)
                        && (m_sender_id m =? partner)
                        && negb (m_is_read m))
              (messages db)).

(** The rows of the conversation between [uid] and [other], as both
    [messages_with] and the poller select them, in table order. *)
Definition conv_rows (db : DB) (uid other : Z) : list MessageRow :=
  join_sender db (filter (between uid other) (messages db)).

(** A row of a message query shows message [m]. *)
Definition row_of (r : MessageRow) (m : Message) : Prop :=
  row_id r = m_id m /\ row_sender_id r = m_sender_id m
  /\ row_message r = m_message m /\ row_created_at r = m_created_at m.

(** The sender of [m] is exactly one row of [users]. *)
Definition has_sender (db : DB) (m : Message) : Prop :=
  exists u, filter (fun u => m_sender_id m =? u_id u) (users db) = [u].

(** The integrity constraints of the store: [messages.id] is the rowid
    (positive, ascending in table order), and every [sender_id] refers to
    exactly one row of [users]. *)
Definition well_formed (db : DB) : Prop :=
  StronglySorted (fun a b => m_id a < m_id b) (messages db)
  /\ Forall (fun m => 0 < m_id m) (messages db)
  /\ Forall (has_sender db) (messages db).

(** The messages of one conversation carry strictly increasing
    timestamps: no two fall in the same second, and the store's clock
    never went back between them. *)
Definition chronological (db : DB) (uid other : Z) : Prop :=
  StronglySorted (fun a b => m_created_at a < m_created_at b)
                 (filter (between uid other) (messages db)).

(** Rows in the order of their ids, which is also the strict order of
    their timestamps. *)
Definition in_order (rows : list MessageRow) : Prop :=
  StronglySorted (fun x y => row_created_at x < row_created_at y
                             /\ row_id x < row_id y) rows.

(** The message [m] is one the poller fetches for watermark [w] in the
    chat of [uid] with [other]. *)
Definition fetched (w uid other : Z) (m : Message) : bool :=
  (w <? m_id m) && between uid other m.

(** The rows the poller marks read while it goes through [rows]: those
    sent by the open chat's partner. *)
Definition marked_by_poll (s : MessagingInterface) (rows : list MessageRow)
    (m : Message) : bool :=
  existsb (fun r => is_recipient s (row_sender_id r) && (m_id m =? row_id r))
          rows.

(** The watermark after a batch: the id of its last row, and unchanged
    when the batch is empty. *)
Definition watermark_after (w : Z) (rows : list MessageRow) : Z :=
  match rows with
  | [] => w
  | _ => last_id rows
  end.

End Spec.

(** ** The conversation menu: [MessagingInterface.run] *)

Module Menu.
Import Store Chat Interface.

(** [show_command_menu_view]: the conversations of the current page, as
    returned to [run]; the screen it draws is not modelled, the division
    by [chats_per_page] is. *)
Definition show_command_menu_view (db : DB) (s : MessagingInterface)
  : PyResult (list ChatRow) :=
  let rows := chats db (user_id s) (Some (chats_per_page s))
                (chat_page s * chats_per_page s) in
  if chats_per_page s =? 0 then Raise ZeroDivisionError else Ok rows.

(** The views [run] hands the terminal to. *)
Inductive View : Type :=
| ChatView (rid : Z) (rname : string)   (* [goto_chat_view] *)
| UsersView                             (* [show_users_with_pagination] *)
| RecipientPrompt.                      (* [prompt_for_recipient_and_initialize_chat] *)

(** How one iteration of the [while self.is_executing] loop goes on
    from its [match command].  Of the interface a view leaves behind,
    [run] reads the user, [is_executing], [chats_per_page] and
    [chat_page], and no view assigns any of them: they are those of
    [s]. *)
Inductive Control : Type :=
| Continue (s : MessagingInterface)   (* back to the loop test *)
| Call (v : View) (s : MessagingInterface)
                                      (* a view is called: see [conclude] *)
| Break (s : MessagingInterface).     (* the loop is left by [break] *)

(** [except Exception: print(...); break] *)
Definition fatal (s : MessagingInterface) : Control * list Printed :=
  (Break s, [TechnicalDifficulties]).

(** The [match command] of [run], for the conversations [rows] shown. *)
Definition dispatch (db : DB) (s : MessagingInterface)
    (rows : list ChatRow) (command : string) : Control * list Printed :=
  if String.eqb command "p" then
    (Continue (if 0 <? chat_page s then set_chat_page (chat_page s - 1) s
               else s), [])
  else if String.eqb command "n" then
    if chats_per_page s =? 0 then fatal s
    else
      let total_pages := ceil_div (total_chats db (user_id s))
                                  (chats_per_page s) in
      (Continue (if chat_page s <? total_pages - 1
                 then set_chat_page (chat_page s + 1) s else s), [])
  else if String.eqb command "f" then (Continue (set_chat_page 0 s), [])
  else if String.eqb command "l" then
    if 0 <? total_chats db (user_id s) then
      if chats_per_page s =? 0 then fatal s
      else
        let total_pages := ceil_div (total_chats db (user_id s))
                                    (chats_per_page s) in
        (Continue (set_chat_page (total_pages - 1) s), [])
    else (Continue s, [])
  else if String.eqb command "o" then (Call RecipientPrompt s, [])
  else if String.eqb command "u" then (Call UsersView s, [])
  else if String.eqb command "r" then (Continue s, [])
  else if String.eqb command "b" || String.eqb command "q" then
    (Continue (set_is_executing false s), [])
  else if PyStr.isdigit command then
    match PyStr.int command with
    | Raise _ => fatal s
    | Ok n =>
        let i := n - 1 in
        if (i <? 0) || (len rows <? i) then (Continue s, [])
        else match py_index rows i with
             | Ok row =>
                 (Call (ChatView (chat_partner_id row)
                                 (chat_partner_username row)) s, [])
             | Raise _ => fatal s
             end
    end
  else (Continue s, [UnrecognizedCommand command]).

(** One iteration of [run]; [command] is the line read, already
    stripped and lower-cased. *)
Definition run_iteration (db : DB) (s : MessagingInterface)
    (command : string) : Control * list Printed :=
  match show_command_menu_view db s with
  | Raise _ => fatal s
  | Ok rows => dispatch db s rows command
  end.

(** How the view an iteration called ends: it returns, or an exception
    leaves it and reaches the handlers of [run]. *)
Inductive Ending : Type :=
| Returned
| Raised (e : PyException)   (* caught by [except Exception] *)
| Interrupted.               (* caught by [except KeyboardInterrupt] *)

(** An iteration of [run] to its end: when it called a view, what the
    handlers of [run] do with the way the view ended. *)
Definition conclude (r : Control * list Printed) (ending : Ending)
  : Control * list Printed :=
  match r with
  | (Call v s, out) =>
      match ending with
      | Returned => r
      | Raised _ => (Break s, out ++ [TechnicalDifficulties])
      | Interrupted => (Break (set_is_executing false s), out)
      end
  | _ => r
  end.

(** Whether the loop test lets the chat interface go on after an
    iteration that came to its end (for a [Call]: the view returned). *)
Definition goes_on (c : Control) : bool :=
  match c with
  | Continue s => is_executing s
  | Call _ s => is_executing s
  | Break _ => false
  end.

(** [prompt_for_recipient_and_initialize_chat], for the name typed. *)
Definition prompt_for_recipient (db : DB) (s : MessagingInterface)
    (typed : string) : option (Z * string) :=
  match find (fun u => String.eqb (u_username u) (PyStr.strip typed))
             (nondisabled_users db (user_id s)) with
  | Some u => Some (u_id u, u_username u)
  | None => None
  end.

(** The rest of [case 'o'] once the prompt has returned. *)
Definition open_by_username (db : DB) (s : MessagingInterface)
    (typed : string) : Control :=
  match prompt_for_recipient db s typed with
  | Some (rid, rname) =>
      if negb (rid =? 0) && negb (String.eqb rname "")
      then Call (ChatView rid rname) (set_chat_page 0 s)
      else Continue s
  | None => Continue s
  end.

(** The [match command] with the prompt of [o] answered: [typed] is the
    line the prompt read.  What is left to call, if anything, is
    [goto_chat_view] or [show_users_with_pagination]. *)
Definition resolve (db : DB) (s : MessagingInterface) (command typed : string)
  : Control * list Printed :=
  match run_iteration db s command with
  | (Call RecipientPrompt s1, out) => (open_by_username db s1 typed, out)
  | r => r
  end.

(** One iteration of [run] from the command read to its end. *)
Definition iteration (db : DB) (s : MessagingInterface)
    (command typed : string) (ending : Ending) : Control * list Printed :=
  conclude (resolve db s command typed) ending.

End Menu.

(** ** An open chat as a sequence of events *)

Module Session.
Import Store Chat Interface.

(** What can happen while a chat is open: the poller thread runs one
    iteration, the message loop reads a line, the user interrupts, or
    another session writes a message to the store. *)
Inductive Event : Type :=
| Poll
| Line (raw : string) (now : Z)
| Interrupt
| Peer (sender recipient : Z) (text : string) (now : Z).

Record State : Type := mkState {
  db : DB;
  ui : MessagingInterface;
  rid : Z;            (* [recipient_id] argument of [goto_chat_view] *)
  rname : string;     (* [recipient_username] argument *)
  console : list Printed
}.

(** [goto_chat_view(rid, rname)] called on interface [s]. *)
Definition start (d : DB) (s : MessagingInterface) (r : Z) (n : string)
  : State :=
  let '(d', s', out) := open_chat d s r n in mkState d' s' r n out.

(** The store, the interface and the output after one event. *)
Definition react (st : State) (e : Event)
  : DB * MessagingInterface * list Printed :=
  match e with
  | Poll => poll (db st) (ui st)
  | Line raw now => chat_input (db st) (ui st) (rid st) (rname st) raw now
  | Interrupt => (db st, chat_interrupt (ui st), [])
  | Peer sender recipient text now =>
      (insert_message (db st) sender recipient text now, ui st, [])
  end.

Definition step (st : State) (e : Event) : State :=
  let '(d, s, out) := react st e in
  mkState d s (rid st) (rname st) (console st ++ out).

Definition run (st : State) (evs : list Event) : State :=
  fold_left step evs st.

(** The ids of the messages printed from the given call sites. *)
Definition shown (from : Source -> bool) (out : list Printed) : list Z :=
  flat_map (fun p => match p with
                     | ShowMessage src row =>
                         if from src then [row_id row] else []
                     | _ => []
                     end) out.

Definition any_source (_ : Source) : bool := true.

Definition is_window (src : Source) : bool :=
  match src with Initial | Older => true | _ => false end.



(** A line the message loop sends as a message: not empty once
    stripped, and none of the chat commands. *)
Definition is_message (raw : string) : bool :=
  let message := PyStr.strip raw in
  let cmd := PyStr.lower message in
  negb (one_of cmd ["/b"; "/back"; "/q"; "/quit"; "/exit"])
  && negb (one_of cmd ["/c"; "/clear"; "/clean"])
  && negb (one_of cmd ["/m"; "/more"])
  && negb (one_of cmd ["/help"; "/h"])
  && negb (String.eqb message "").

(** An event that adds a message to the conversation of [a] and [b]: a
    line sent in the open chat, or a write of either of them to the
    other from another session. *)
Definition writes_between (a b : Z) (e : Event) : bool :=
  match e with
  | Peer sender recipient _ _ =>
      (sender =? a) && (recipient =? b) || (sender =? b) && (recipient =? a)
  | Line raw _ => is_message raw
  | _ => false
  end.

(** The rows of the open conversation, as the store has them now. *)
Definition conversation (st : State) : list MessageRow :=
  Spec.conv_rows (db st) (user_id (ui st)) (rid st).


(** What one event can do to the store, the interface and the
    console. *)
Inductive Outcome (st : State) (e : Event)
  : DB -> MessagingInterface -> list Printed -> Prop :=
| OutIdle : Outcome st e (db st) (ui st) []
| OutHelp : Outcome st e (db st) (ui st) [ChatHelp]
| OutLeave : Outcome st e (db st) (leave_chat (ui st)) []
| OutPoll :
    e = Poll ->
    is_executing (ui st) && chatting (ui st) = true ->
    let rows := poll_query (db st) (ui st) in
    Outcome st e
      (update_is_read (Spec.marked_by_poll (ui st) rows) (db st))
      (set_last_msg (Spec.watermark_after (last_msg (ui st)) rows) (ui st))
      (map (ShowMessage Polled) rows)
| OutClear (limit : Z) :
    Outcome st e (db st) (ui st)
      ([ClearScreen; ChatHeader (rname st)]
       ++ map (ShowMessage Redrawn)
              (messages_with (db st) (user_id (ui st)) (rid st) limit 0))
| OutNoOlder : Outcome st e (db st) (ui st) [NoOlderMessages]
| OutOlder (tail : Printed) :
    let offset := history_offset (ui st) + messages_per_page (ui st) in
    let msgs := messages_with (db st) (user_id (ui st)) (rid st)
                  (messages_per_page (ui st)) offset in
    msgs <> [] ->
    shown any_source [tail] = [] ->
    Outcome st e (db st) (set_history_offset offset (ui st))
      ([LoadingOlder (len msgs)] ++ map (ShowMessage Older) msgs ++ [tail])
| OutInsert (sender recipient : Z) (text : string) (now : Z) :
    writes_between (user_id (ui st)) (rid st) e
    = between (user_id (ui st)) (rid st)
        (mkMessage (next_id (db st)) sender recipient text now false) ->
    Outcome st e (insert_message (db st) sender recipient text now) (ui st) []
| OutWiped (text : string) (d : DB) (s : MessagingInterface)
    (out : list Printed) :
    Outcome st e d s out ->
    Outcome st e d s (ClearTerminalLines text :: out).

(** The conversation latest first, as [messages_with] orders it before
    it cuts a window. *)
Definition latest_first (st : State) : list MessageRow :=
  order_by_desc row_created_at (conversation st).

(** What holds of the windows of a chat in which nothing is written:
    the messages loaded so far are distinct and all among the first
    [history_offset + messages_per_page] of the conversation. *)
Definition windows_invariant (st : State) : Prop :=
  0 <= history_offset (ui st)
  /\ NoDup (shown is_window (console st))
  /\ (forall i, In i (shown is_window (console st)) ->
                In i (map row_id
                        (firstn (Z.to_nat (history_offset (ui st)
                                           + messages_per_page (ui st)))
                                (latest_first st)))).

End Session.

(** ** Sample stores *)

Module Sample.
Import Store Chat Interface.

Definition people : list User :=
  [mkUser 1 "alice" "admin" false;
   mkUser 2 "bob" "leader" false;
   mkUser 3 "carol" "leader" false].

(** Alice has heard from Bob and from Carol. *)
Definition inbox : DB :=
  mkDB people
       [mkMessage 1 2 1 "hi" 100 false;
        mkMessage 2 1 2 "yo" 101 true;
        mkMessage 3 3 1 "hey" 102 false;
        mkMessage 4 3 1 "again" 103 false].



(** Eleven messages from Bob, one per second. *)
Definition history : DB :=
  mkDB people
       (map (fun i => mkMessage (Z.of_nat i) 2 1 "m" (Z.of_nat i) false)
            (seq 1 11)).

(** Alice's interface, as [MessagingInterface(alice)] builds it. *)
Definition alice : MessagingInterface := init 1 3.

(** ... and once she has entered the chat with Bob. *)
Definition alice_with_bob : MessagingInterface := enter_chat 2 "bob" alice.

End Sample.

(** ** The page-turning step of the callers of the pagination helper *)

Module Pager.
Import Pagination.

(** One turn of the paging loops of [coordinator_dash]
    ([coordinator/coord.py]) and [show_camp_selection_menu]
    ([visualisations/camp_visualisations.py]), for an input that reaches
    [process_pagination_command]: the page is fetched, the command is
    processed against the page count just obtained, and
    [current_page = new_page] when it was a pagination command.  The
    result is the page of the next turn. *)
Definition turn_page {A : Type} (data : list A) (page_size current_page : Z)
    (option : string) : PyResult Z :=
  match get_page_data data current_page page_size with
  | Raise e => Raise e
  | Ok (_, num_pages) =>
      let '(new_page, is_nav, _) :=
        process_pagination_command option current_page num_pages in
      Ok (if is_nav then new_page else current_page)
  end.

(** The turns for a sequence of inputs over unchanged data. *)
Fixpoint browse {A : Type} (data : list A) (page_size current_page : Z)
    (options : list string) : PyResult Z :=
  match options with
  | [] => Ok current_page
  | option :: rest =>
      match turn_page data page_size current_page option with
      | Ok page => browse data page_size page rest
      | Raise e => Raise e
      end
  end.

End Pager.

(** ** Further vocabulary *)

Module Terms.
Import Store Chat Interface Session.

(** The id is the id of exactly one row of [users]. *)
Definition known (db : DB) (id : Z) : Prop :=
  exists u, filter (fun u => id =? u_id u) (users db) = [u].


(** A write from another session comes from a known user. *)
Definition peer_known (db : DB) (e : Event) : Prop :=
  match e with
  | Peer sender _ _ _ => known db sender
  | _ => True
  end.

(** A string made of white space only (the empty string included). *)
Fixpoint all_space (s : string) : bool :=
  match s with
  | EmptyString => true
  | String c s' => PyStr.is_space c && all_space s'
  end.

Definition is_redrawn (src : Source) : bool :=
  match src with Redrawn => true | _ => false end.


(** Every message loaded so far is on the console: the converse of the
    inclusion in [windows_invariant]. *)
Definition windows_complete (st : State) : Prop :=
  forall i,
    In i (map row_id
            (firstn (Z.to_nat (history_offset (ui st)
                               + messages_per_page (ui st)))
                    (latest_first st))) ->
    In i (shown is_window (console st)).



(** The interface a turn of the menu loop goes on with. *)
Definition after (c : Menu.Control) : MessagingInterface :=
  match c with
  | Menu.Continue s => s
  | Menu.Call _ s => s
  | Menu.Break s => s
  end.

(** The page of the menu is one of the pages of the conversation list
    (page 0 when there is none). *)
Definition in_pages (db : DB) (s : MessagingInterface) : Prop :=
  0 <= chat_page s
  <= Z.max 0 (ceil_div (total_chats db (user_id s)) (chats_per_page s) - 1).

End Terms.


(** * Terminal helpers: [camptrack/ui.py] *)

Module Ui.

(** [\033], the escape character. *)
Definition ESC : ascii := "027"%char.

(** The class [[0-9;]] of the pattern. *)
Definition is_param (c : ascii) : bool :=
  PyStr.is_decimal c || Ascii.eqb c ";"%char.

(** The length of the match of [[0-9;]*m] at the head of [s].  No
    character of the class is an [m], so the greedy star has one way to
    match. *)
Fixpoint sgr_tail (s : string) : option nat :=
  match s with
  | EmptyString => None
  | String c r =>
      if is_param c then option_map S (sgr_tail r)
      else if Ascii.eqb c "m"%char then Some 1%nat
      else None
  end.

(** The length of the match of [\033\[[0-9;]*m] at the head of [s]. *)
Definition ansi_match (s : string) : option nat :=
  match s with
  | String c1 (String c2 r) =>
      if Ascii.eqb c1 ESC && Ascii.eqb c2 "["%char
      then option_map (fun n => S (S n)) (sgr_tail r)
      else None
  | _ => None
  end.

(** [_get_ansi_compiled_regex().sub('', s)], scanning from the left;
    [skip] counts the characters of the current match still to drop. *)
Fixpoint remove_ansi_from (skip : nat) (s : string) : string :=
  match s with
  | EmptyString => EmptyString
  | String c r =>
      match skip with
      | S k => remove_ansi_from k r
      | O =>
          match ansi_match s with
          | Some (S k) => remove_ansi_from k r
          | _ => String c (remove_ansi_from O r)
          end
      end
  end.

Definition remove_ansi (s : string) : string := remove_ansi_from 0 s.

(** [' ' * n]: empty for [n <= 0]. *)
Fixpoint blanks (n : nat) : string :=
  match n with
  | O => EmptyString
  | S k => String " "%char (blanks k)
  end.

Definition spaces (n : Z) : string := blanks (Z.to_nat n).

(** [len(_get_ansi_compiled_regex().sub('', s))] *)
Definition strlen_no_ansi (s : string) : Z :=
  Z.of_nat (String.length (remove_ansi s)).

(** [center(s, width)] *)
Definition center (s : string) (width : Z) : string :=
  if width <=? strlen_no_ansi s then s
  else
    let padding := width - strlen_no_ansi s in
    let left_padding := padding / 2 in
    let right_padding := padding - left_padding in
    (spaces left_padding ++ s ++ spaces right_padding)%string.

End Ui.

(** * The list of users: [show_users_with_pagination] *)

Module UsersView.
Import Store Chat Interface.

(** [ORDER BY role, username], in the byte order of SQLite's default
    collation; rows that compare equal keep their input order. *)
Definition listed_before (u v : User) : bool :=
  match String.compare (u_role u) (u_role v) with
  | Lt => true
  | Gt => false
  | Eq => String.leb (u_username u) (u_username v)
  end.

Fixpoint insert_user (u : User) (l : list User) : list User :=
  match l with
  | [] => [u]
  | v :: l' => if listed_before u v then u :: l else v :: insert_user u l'
  end.

(** [nondisabled_users()] with its [ORDER BY]. *)
Definition listing (db : DB) (uid : Z) : list User :=
  fold_right insert_user [] (nondisabled_users db uid).

Definition users_per_page : Z := 10.

Definition total_pages (db : DB) (s : MessagingInterface) : Z :=
  ceil_div (len (listing db (user_id s))) users_per_page.

(** [users[offset:min(total_users, offset + limit)]] *)
Definition page_users (db : DB) (s : MessagingInterface) (current_page : Z)
  : list User :=
  let users := listing db (user_id s) in
  let offset := current_page * users_per_page in
  py_slice users offset (Z.min (len users) (offset + users_per_page)).

(** What one turn of the loop ends in: the next turn on a page, a chat
    opened (the loop ends after it), the way back, or an exception that
    leaves the function. *)
Inductive Turn : Type :=
| Stay (current_page : Z) (out : list Printed)
| Opened (rid : Z) (rname : string)
| Back
| Failed (e : PyException).

(** One turn of the loop; [command] is the line read, stripped and
    lower-cased. *)
Definition turn (db : DB) (s : MessagingInterface) (current_page : Z)
    (command : string) : Turn :=
  let shown := page_users db s current_page in
  if String.eqb command "p" then
    Stay (if 0 <? current_page then current_page - 1 else current_page) []
  else if String.eqb command "n" then
    Stay (if current_page <? total_pages db s - 1 then current_page + 1
          else current_page) []
  else if PyStr.isdigit command then
    match PyStr.int command with
    | Raise e => Failed e
    | Ok n =>
        let i := n - 1 in
        if (i <? 0) || (len shown <? i) then Stay current_page []
        else match py_index shown i with
             | Ok u => Opened (u_id u) (u_username u)
             | Raise e => Failed e
             end
    end
  else if String.eqb command "b" then Back
  else Stay current_page [UnrecognizedCommand command].

End UsersView.

(** * Centring a block of text: [center_string] of [utils/pagination.py] *)

Module TextBlock.

Definition NL : ascii := "010"%char.

(** [s.split('\n')]: never empty, [['']] for the empty string. *)
Fixpoint split (s : string) : list string :=
  match s with
  | EmptyString => [EmptyString]
  | String c r =>
      if Ascii.eqb c NL then EmptyString :: split r
      else match split r with
           | line :: rest => String c line :: rest
           | [] => [String c EmptyString]
           end
  end.

(** ['\n'.join(lines)] *)
Fixpoint join (lines : list string) : string :=
  match lines with
  | [] => EmptyString
  | [line] => line
  | line :: rest => (line ++ String NL (join rest))%string
  end.

(** [max(len(line) for line in lines) if lines else 0] *)
Definition max_len (lines : list string) : Z :=
  fold_right Z.max 0 (map (fun line => Z.of_nat (String.length line)) lines).

Definition TERMINAL_WIDTH : Z := 80.

(** No line break in the string. *)
Fixpoint one_line (s : string) : bool :=
  match s with
  | EmptyString => true
  | String c r => negb (Ascii.eqb c NL) && one_line r
  end.

(** [center_string(s, width)] *)
Definition center_string (s : string) (width : Z) : string :=
  let lines := split s in
  let margin := (width - max_len lines) / 2 in
  let centered_lines :=
    map (fun line => (Ui.spaces margin ++ line)%string) lines in
  join centered_lines.

End TextBlock.
(** * Properties *)

(** ** Lists and arithmetic *)

Section ListFacts.
Context {A : Type}.

Lemma firstn_plus (a b : nat) (l : list A) :
  firstn (a + b)%nat l = firstn a l ++ firstn b (skipn a l).
Proof.
  revert l; induction a as [|a IH]; intros l; simpl.
  - reflexivity.
  - destruct l as [|x l]; simpl.
    + now rewrite firstn_nil.
    + now rewrite IH.
Qed.

Lemma firstn_cap (n : nat) (l : list A) :
  firstn (Nat.min n (List.length l)) l = firstn n l.
Proof.
  destruct (Nat.le_ge_cases n (List.length l)) as [H|H].
  - now rewrite Nat.min_l.
  - rewrite Nat.min_r by assumption.
    now rewrite !firstn_all2 by lia.
Qed.

(** Consecutive chunks of [s] items, glued back together. *)
Lemma chunks_concat (s : nat) (l : list A) (m : nat) :
  List.concat (map (fun k => firstn s (skipn (k * s)%nat l)) (seq 0 m))
  = firstn (m * s)%nat l.
Proof.
  induction m as [|m IH].
  - reflexivity.
  - rewrite seq_S, map_app, concat_app, IH. simpl.
    rewrite app_nil_r, (Nat.add_comm s (m * s)%nat).
    now rewrite firstn_plus.
Qed.

(** A slice with bounds inside the natural numbers is [firstn] of
    [skipn]. *)
Lemma py_slice_window (l : list A) (start size : Z) :
  0 <= start -> 0 <= size ->
  py_slice l start (start + size)
  = firstn (Z.to_nat size) (skipn (Z.to_nat start) l).
Proof.
  intros Hs Hz. unfold py_slice, slice_index.
  destruct (start <? 0) eqn:E1; [lia|].
  destruct (start + size <? 0) eqn:E2; [lia|].
  unfold len.
  destruct (Z.le_gt_cases start (Z.of_nat (List.length l))) as [H|H].
  - rewrite (Z.min_l start) by lia.
    rewrite <- (firstn_cap (Z.to_nat size)).
    rewrite length_skipn. f_equal. lia.
  - rewrite (Z.min_r start) by lia.
    rewrite Z.min_r by lia.
    rewrite !skipn_all2 by lia.
    now rewrite !firstn_nil.
Qed.
End ListFacts.

Lemma ceil_div_covers (n s : Z) : 0 < s -> n <= ceil_div n s * s.
Proof.
  intros Hs. unfold ceil_div.
  pose proof (Z.div_mod (- n) s ltac:(lia)) as E.
  pose proof (Z.mod_pos_bound (- n) s Hs) as B.
  nia.
Qed.

Lemma ceil_div_pos (n s : Z) : 0 < s -> 0 < n -> 1 <= ceil_div n s.
Proof.
  intros Hs Hn. pose proof (ceil_div_covers n s Hs). nia.
Qed.

Lemma ceil_div_zero (s : Z) : ceil_div 0 s = 0.
Proof. unfold ceil_div. simpl. now destruct s. Qed.

(** ** The pagination helper *)

Section PaginationFacts.
Import Pagination Spec.
Context {A : Type}.

(** What [get_page_data] computes on a non-empty list with a positive
    page size. *)
Lemma get_page_data_window (data : list A) (k s : Z) :
  data <> [] -> 0 < s ->
  get_page_data data k s
  = Ok (page_slice data (Z.max 1 (Z.min k (ceil_div (len data) s))) s,
        ceil_div (len data) s).
Proof.
  intros Hd Hs. unfold get_page_data.
  destruct data as [|x data]; [congruence|].
  destruct (s =? 0) eqn:E; [lia|].
  rewrite py_slice_window by nia.
  reflexivity.
Qed.

Lemma page_numbers_shift (n : nat) (f : Z -> list A) :
  map f (map Z.of_nat (seq 1 n))
  = map (fun k => f (Z.of_nat k + 1)) (seq 0 n).
Proof.
  rewrite <- seq_shift, !map_map.
  apply map_ext. intros k. f_equal. lia.
Qed.
End PaginationFacts.

Section PaginationClaims.
Import Pagination Spec.
Context {A : Type}.

(** C7. For every non-empty list [data] and page size [s > 0], every
    call [get_page_data data k s] for [k = 1 .. ceil(len(data)/s)]
    returns, reporting that number of pages, and the pages concatenated
    in order are exactly [data]: every element once, in the original
    order. *)
Theorem get_page_data_roundtrip (data : list A) (s : Z) :
  data <> [] -> 0 < s ->
  let n := ceil_div (len data) s in
  Forall (fun k => page_count (get_page_data data k s) = Some n)
         (page_numbers n)
  /\ List.concat (map (fun k => page_items (get_page_data data k s))
                      (page_numbers n)) = data.
Proof.
  intros Hd Hs n. split.
  - apply Forall_forall. intros k _.
    now rewrite get_page_data_window.
  - unfold page_numbers. rewrite page_numbers_shift.
    rewrite (map_ext_in _
               (fun k => firstn (Z.to_nat s)
                           (skipn (k * Z.to_nat s)%nat data))).
    + rewrite chunks_concat. apply firstn_all2.
      pose proof (ceil_div_covers (len data) s Hs) as Hc.
      fold n in Hc. unfold len in Hc.
      pose proof (ceil_div_pos (len data) s Hs) as Hp. unfold len in *.
      nia.
    + intros k Hk. apply in_seq in Hk.
      rewrite get_page_data_window by assumption. simpl.
      unfold page_slice. fold n.
      replace (Z.max 1 (Z.min (Z.of_nat k + 1) n)) with (Z.of_nat k + 1)
        by lia.
      do 2 f_equal. nia.
Qed.

(** C8, as the code has it.  For every non-empty list and page size
    [s > 0], [get_page_data] reports [ceil(total_items / page_size)]
    pages and returns the slice of the requested page clamped into
    [[1, total_pages]], which is the requested page when that is one of
    the pages.  For an empty list nothing is clamped: the result is the
    empty list with the page count 0, whatever page and page size are
    requested, and the count 0 tells the caller that there is nothing
    to show.  With
    12 items and page size 5 the pages hold 5, 5 and 2 items, and a
    request for page 4 returns page 3. *)
Theorem get_page_data_clamps (data : list A) (k s : Z) :
  let total := ceil_div (len data) s in
  let p := Z.max 1 (Z.min k total) in
  (data = [] -> get_page_data data k s = Ok ([], 0))
  /\ (data <> [] -> 0 < s ->
      get_page_data data k s = Ok (page_slice data p s, total)
      /\ 1 <= p <= total
      /\ (1 <= k <= total -> p = k))
  /\ (len data = 12 -> s = 5 ->
      map (fun q => len (page_items (get_page_data data q s))) [1; 2; 3]
      = [5; 5; 2]
      /\ get_page_data data 4 s = get_page_data data 3 s).
Proof.
  intros total p. split; [|split].
  - intros ->. reflexivity.
  - intros Hd Hs. split; [now apply get_page_data_window|].
    assert (1 <= total).
    { apply ceil_div_pos; [assumption|]. unfold len.
      destruct data; [congruence | simpl; lia]. }
    unfold p. lia.
  - intros H12 ->.
    assert (Hd : data <> []) by (intros ->; discriminate).
    cbn [map].
    rewrite !get_page_data_window by (assumption || lia).
    rewrite H12. split; [|reflexivity].
    unfold page_slice, len in *. cbn [page_items].
    rewrite !length_firstn, !length_skipn.
    assert (L : List.length data = 12%nat) by lia.
    rewrite L. reflexivity.
Qed.
End PaginationClaims.

(** C7 at a list of seven items cut into pages of three. *)
Lemma get_page_data_roundtrip_witness :
  let data := [10; 20; 30; 40; 50; 60; 70] in
  List.concat (map (fun k => Pagination.page_items
                               (Pagination.get_page_data data k 3))
                   (Pagination.page_numbers (ceil_div (len data) 3)))
  = data.
Proof.
  intros data.
  apply (get_page_data_roundtrip data 3); [discriminate | lia].
Defined.

(** C8 at the scenario of the specification: twelve conversations, five
    per page, page 4 requested. *)
Lemma get_page_data_clamps_witness :
  Pagination.get_page_data [1; 2; 3; 4; 5; 6; 7; 8; 9; 10; 11; 12] 4 5
  = Ok ([11; 12], 3).
Proof.
  refine (proj1 (proj1 (proj2 (get_page_data_clamps
                   [1; 2; 3; 4; 5; 6; 7; 8; 9; 10; 11; 12] 4 5)) _ _));
    [discriminate | lia].
Defined.

(** C8 as the specification states it, for every page size, fails at
    the sizes that are not positive.  With page size 0 the division
    raises and there is neither a page count nor a slice.  With a
    negative page size the page count is negative, no page number lies
    in [[1, total_pages]], and the slice returned is cut from the end of
    the list. *)
Lemma get_page_data_bad_size :
  Pagination.get_page_data [1; 2; 3] 1 0 = Raise ZeroDivisionError
  /\ Pagination.get_page_data [1; 2; 3] 1 (-2) = Ok ([1], -1).
Proof. split; reflexivity. Qed.

(** C10. For every current page and page count,
    [process_pagination_command] answers ['p'] on page 1 and ['n'] on the
    last page with [(current_page, False)]: the input is reported as not
    being a pagination command, and nothing is printed. *)
Theorem process_pagination_command_at_edge
    (command : string) (current_page num_pages : Z) :
  (PyStr.strip (PyStr.lower command) = "p" /\ current_page = 1)
  \/ (PyStr.strip (PyStr.lower command) = "n" /\ current_page = num_pages) ->
  Pagination.process_pagination_command command current_page num_pages
  = (current_page, false, []).
Proof.
  unfold Pagination.process_pagination_command.
  intros [[-> ->] | [-> ->]]; simpl.
  - reflexivity.
  - now rewrite Z.ltb_irrefl.
Qed.

(** C10 for the input [" N "] typed on page 3 of 3. *)
Lemma process_pagination_command_at_edge_witness :
  Pagination.process_pagination_command " N " 3 3 = (3, false, []).
Proof.
  apply process_pagination_command_at_edge.
  right. split; reflexivity.
Defined.

(** ** The SQL constructs *)

Section SqlFacts.
Import Store.
Context {A : Type}.
Variable key : A -> Z.

Lemma insert_desc_in (x y : A) (l : list A) :
  In y (insert_desc key x l) <-> y = x \/ In y l.
Proof.
  induction l as [|z l IH]; simpl.
  - intuition.
  - destruct (key x <? key z); simpl; rewrite ?IH; intuition.
Qed.

Lemma order_by_desc_in (y : A) (l : list A) :
  In y (order_by_desc key l) <-> In y l.
Proof.
  induction l as [|x l IH]; simpl.
  - reflexivity.
  - rewrite insert_desc_in, IH. intuition.
Qed.

Lemma insert_asc_in (x y : A) (l : list A) :
  In y (insert_asc key x l) <-> y = x \/ In y l.
Proof.
  induction l as [|z l IH]; simpl.
  - intuition.
  - destruct (key z <? key x); simpl; rewrite ?IH; intuition.
Qed.

Lemma order_by_asc_in (y : A) (l : list A) :
  In y (order_by_asc key l) <-> In y l.
Proof.
  induction l as [|x l IH]; simpl.
  - reflexivity.
  - rewrite insert_asc_in, IH. intuition.
Qed.

Lemma skipn_in (n : nat) (x : A) (l : list A) :
  In x (skipn n l) -> In x l.
Proof.
  intros H. rewrite <- (firstn_skipn n l). apply in_or_app. now right.
Qed.

Lemma firstn_in (n : nat) (x : A) (l : list A) :
  In x (firstn n l) -> In x l.
Proof.
  intros H. rewrite <- (firstn_skipn n l). apply in_or_app. now left.
Qed.

Lemma limit_offset_in (limit offset : Z) (x : A) (l : list A) :
  In x (limit_offset limit offset l) -> In x l.
Proof.
  unfold limit_offset. intros H.
  destruct (limit <? 0).
  - eapply skipn_in, H.
  - eapply skipn_in, firstn_in, H.
Qed.

Lemma filter_none (f : A -> bool) (l : list A) :
  (forall x, In x l -> f x = false) -> filter f l = [].
Proof.
  induction l as [|x l IH]; simpl; intros H.
  - reflexivity.
  - rewrite (H x) by now left. apply IH. intros y Hy. apply H. now right.
Qed.

Lemma filter_filter (f g : A -> bool) (l : list A) :
  filter f (filter g l) = filter (fun x => g x && f x) l.
Proof.
  induction l as [|x l IH]; simpl.
  - reflexivity.
  - destruct (g x); simpl; [destruct (f x)|]; now rewrite IH.
Qed.
End SqlFacts.

Lemma distinct_in (z : Z) (l : list Z) : In z (Store.distinct l) <-> In z l.
Proof.
  unfold Store.distinct. rewrite order_by_asc_in. apply nodup_In.
Qed.

(** ** The conversation list *)

Section ChatsFacts.
Import Store Chat Spec.

(** The unread total joined to partner [p] is the specification's
    count, 0 included. *)
Lemma left_join_unread_count (db : DB) (uid p n : Z) :
  In n (left_join_unread (unread_totals db uid) p) ->
  n = unread_count db uid p.
Proof.
  unfold left_join_unread, unread_count.
  set (unread := filter (fun m => (m_recipient_id m =? uid)
                                  && negb (m_is_read m)) (messages db)).
  assert (Hcount :
    len (filter (fun m => m_sender_id m =? p) unread)
    = len (filter (fun m => (m_recipient_id m =? uid)
                            && (m_sender_id m =? p)
                            && negb (m_is_read m)) (messages db))).
  { unfold unread. rewrite filter_filter.
    unfold len. do 2 f_equal. apply filter_ext. intros m.
    cbv beta. now rewrite <- !andb_assoc, (andb_comm (negb _)). }
  destruct (filter (fun ut => snd ut =? p) (unread_totals db uid))
    as [|ut rest] eqn:E.
  - intros [<- | []]. rewrite <- Hcount.
    rewrite (filter_none (fun m => m_sender_id m =? p)); [reflexivity|].
    intros m Hm. destruct (m_sender_id m =? p) eqn:Es; [|reflexivity].
    exfalso. apply Z.eqb_eq in Es.
    assert (Hin : In (len (filter (fun m' => m_sender_id m' =? p) unread), p)
                     (filter (fun ut => snd ut =? p)
                             (unread_totals db uid))).
    { apply filter_In. split; [|apply Z.eqb_refl].
      unfold unread_totals. fold unread.
      apply in_map_iff. exists p. split; [reflexivity|].
      apply distinct_in, in_map_iff. exists m. now split. }
    rewrite E in Hin. destruct Hin.
  - intros Hn. apply in_map_iff in Hn. destruct Hn as [[c s] [<- Hin]].
    rewrite <- E in Hin. apply filter_In in Hin. destruct Hin as [Hin Hs].
    simpl in Hs. apply Z.eqb_eq in Hs. subst s.
    unfold unread_totals in Hin. fold unread in Hin.
    apply in_map_iff in Hin. destruct Hin as [s [Heq _]].
    inversion Heq; subst. simpl. exact Hcount.
Qed.

Lemma chats_in_query (db : DB) (uid : Z) (limit : option Z) (offset : Z)
    (row : ChatRow) :
  In row (chats db uid limit offset) -> In row (chats_query db uid).
Proof.
  unfold chats. destruct limit as [n|]; [|tauto].
  destruct (truthy (Some n)); [apply limit_offset_in | tauto].
Qed.

(** C6. For every user and every conversation list that [chats]
    returns, paginated or not, the [num_unread] of each row equals the
    number of message rows whose recipient is the user, whose sender is
    the row's chat partner and whose [is_read] is false in the store
    queried; it is 0 when there is no such row. *)
Theorem chats_num_unread (db : DB) (uid : Z) (limit : option Z)
    (offset : Z) (row : ChatRow) :
  In row (chats db uid limit offset) ->
  num_unread row = unread_count db uid (chat_partner_id row)
  /\ (filter (fun m => (m_recipient_id m =? uid)
                       && (m_sender_id m =? chat_partner_id row)
                       && negb (m_is_read m)) (messages db) = [] ->
      num_unread row = 0).
Proof.
  intros Hin. apply chats_in_query in Hin.
  assert (H : num_unread row = unread_count db uid (chat_partner_id row)).
  { unfold chats_query in Hin. apply order_by_desc_in in Hin.
    apply in_flat_map in Hin. destruct Hin as [[t msg_rank] [_ Hin]].
    destruct (msg_rank =? 1); [|destruct Hin].
    apply in_flat_map in Hin. destruct Hin as [u [_ Hin]].
    apply in_map_iff in Hin. destruct Hin as [n [<- Hn]]. simpl.
    now apply left_join_unread_count. }
  split; [exact H|].
  intros Hnone. rewrite H. unfold unread_count. now rewrite Hnone.
Qed.

(** C9. [chats(limit=0, offset=k)] is not an empty page: 0 is falsy, no
    [LIMIT] clause is appended, and for every offset [k] the result is
    the full conversation list, exactly as for [chats(limit=None)]. *)
Theorem chats_limit_zero (db : DB) (uid k : Z) :
  chats db uid (Some 0) k = chats db uid None 0
  /\ chats db uid (Some 0) k = chats_query db uid.
Proof. split; reflexivity. Qed.
End ChatsFacts.

(** On Alice's inbox [limit=0] lists both conversations at any offset,
    where [limit=1] at offset 5 lists none. *)
Example chats_limit_zero_sample :
  len (Chat.chats Sample.inbox 1 (Some 0) 5) = 2
  /\ Chat.chats Sample.inbox 1 (Some 1) 5 = [].
Proof. split; reflexivity. Qed.

(** ** Read receipts *)

Section ReadReceipts.
Import Store Chat Interface Spec.

Lemma unread_count_update (cond : Message -> bool) (db : DB) (u q : Z) :
  (forall m, In m (messages db) -> cond m = true ->
             (m_recipient_id m =? u) && (m_sender_id m =? q) = false) ->
  unread_count (update_is_read cond db) u q = unread_count db u q.
Proof.
  unfold unread_count, update_is_read. simpl.
  induction (messages db) as [|m l IH]; intros H; [reflexivity|].
  assert (IH' := IH (fun m' Hm' => H m' (or_intror Hm'))).
  unfold len in *. simpl.
  destruct (cond m) eqn:Ec.
  - pose proof (H m (or_introl eq_refl) Ec) as Hf. simpl.
    rewrite Hf. simpl. exact IH'.
  - destruct ((m_recipient_id m =? u) && (m_sender_id m =? q)
              && negb (m_is_read m)); simpl; lia.
Qed.

(** C4. For every user [U] and partner [P], opening a chat with [P]
    sets [is_read] on every message sent by [P] to [U] and on no other
    row: afterwards the unread count of [P] for [U] is 0, every other
    unread count is what it was, and every row that is not a message
    from [P] to [U] is unchanged. *)
Theorem open_chat_marks_read (db : DB) (s : MessagingInterface) (P : Z)
    (name : string) :
  let U := user_id s in
  let db' := fst (fst (open_chat db s P name)) in
  let from_P_to_U m := (m_sender_id m =? P) && (m_recipient_id m =? U) in
  users db' = users db
  /\ messages db'
     = map (fun m => if from_P_to_U m then set_read m else m) (messages db)
  /\ unread_count db' U P = 0
  /\ (forall u q, (u, q) <> (U, P) ->
                  unread_count db' u q = unread_count db u q)
  /\ Forall2 (fun m m' => from_P_to_U m = false -> m' = m)
             (messages db) (messages db').
Proof.
  intros U db' from_P_to_U.
  assert (Hdb : db' = update_is_read from_P_to_U db) by reflexivity.
  rewrite Hdb. split; [reflexivity|]. split; [reflexivity|].
  split; [|split].
  - unfold unread_count, update_is_read, len. simpl.
    rewrite filter_none; [reflexivity|].
    intros m' Hm'. apply in_map_iff in Hm'. destruct Hm' as [m [<- _]].
    unfold from_P_to_U.
    destruct (m_sender_id m =? P) eqn:E1, (m_recipient_id m =? U) eqn:E2;
      simpl; rewrite ?E1, ?E2; simpl;
      auto using andb_false_r.
  - intros u q Hne. apply unread_count_update.
    intros m _ Hc. unfold from_P_to_U in Hc.
    apply andb_true_iff in Hc. destruct Hc as [H1 H2].
    apply Z.eqb_eq in H1, H2.
    apply andb_false_iff.
    destruct (Z.eq_dec u U) as [->|Hu].
    + right. apply Z.eqb_neq. intros Hq. apply Hne. congruence.
    + left. apply Z.eqb_neq. congruence.
  - unfold update_is_read. simpl.
    induction (messages db) as [|m l IH]; constructor; [|exact IH].
    now intros ->.
Qed.
End ReadReceipts.

(** ** Sorted tables *)

Section SortedFacts.
Import Store.
Context {A : Type}.
Variable key : A -> Z.

Let lt_key (a b : A) : Prop := key a < key b.

Lemma sorted_filter (R : A -> A -> Prop) (f : A -> bool) (l : list A) :
  StronglySorted R l -> StronglySorted R (filter f l).
Proof.
  induction 1 as [|x l Hs IH Hx]; simpl.
  - constructor.
  - destruct (f x); [|exact IH].
    constructor; [exact IH|].
    apply Forall_forall. intros y Hy. apply filter_In in Hy.
    destruct Hy as [Hy _]. revert y Hy. now apply Forall_forall.
Qed.

(** Rows already in ascending key order are left as they are. *)
Lemma order_by_asc_sorted (l : list A) :
  StronglySorted lt_key l -> order_by_asc key l = l.
Proof.
  induction 1 as [|x l Hs IH Hx]; simpl.
  - reflexivity.
  - rewrite IH. destruct l as [|y l]; [reflexivity|]. simpl.
    inversion Hx as [|? ? Hxy _]; subst. unfold lt_key in Hxy.
    destruct (key y <? key x) eqn:E; [lia | reflexivity].
Qed.

Lemma insert_desc_last (x : A) (l : list A) :
  Forall (fun y => key x < key y) l -> insert_desc key x l = l ++ [x].
Proof.
  induction 1 as [|y l Hy Hl IH]; simpl.
  - reflexivity.
  - destruct (key x <? key y) eqn:E; [now rewrite IH | lia].
Qed.

(** Rows in strictly ascending key order come out reversed. *)
Lemma order_by_desc_sorted (l : list A) :
  StronglySorted lt_key l -> order_by_desc key l = rev l.
Proof.
  induction 1 as [|x l Hs IH Hx]; simpl.
  - reflexivity.
  - rewrite IH. apply insert_desc_last.
    apply Forall_forall. intros y Hy. apply in_rev in Hy.
    revert y Hy. now apply Forall_forall.
Qed.

(** A key that is strictly sorted identifies its row. *)
Lemma sorted_key_inj (l : list A) (a b : A) :
  StronglySorted lt_key l -> In a l -> In b l -> key a = key b -> a = b.
Proof.
  induction 1 as [|x l Hs IH Hx]; simpl; [tauto|].
  rewrite Forall_forall in Hx. unfold lt_key in Hx.
  intros [<-|Ha] [<-|Hb] E; auto.
  - specialize (Hx b Hb). lia.
  - specialize (Hx a Ha). lia.
Qed.


End SortedFacts.

Lemma sorted_map {A B : Type} (f : A -> B) (R : B -> B -> Prop) (l : list A) :
  StronglySorted (fun a b => R (f a) (f b)) l -> StronglySorted R (map f l).
Proof.
  induction 1 as [|x l Hs IH Hx]; simpl; constructor; [exact IH|].
  now apply Forall_map.
Qed.

(** ** Joining messages with their senders *)

Section JoinFacts.
Import Store Chat Interface Spec.

(** With every sender known, the join yields one row per message. *)
Lemma join_sender_rows (db : DB) (ms : list Message) :
  Forall (has_sender db) ms -> Forall2 row_of (join_sender db ms) ms.
Proof.
  induction 1 as [|m ms [u Hu] Hms IH]; simpl.
  - constructor.
  - rewrite Hu. simpl. constructor; [|exact IH].
    repeat split.
Qed.

Lemma join_sender_in (db : DB) (ms : list Message) (r : MessageRow) :
  In r (join_sender db ms) ->
  exists m, In m ms /\ row_of r m.
Proof.
  unfold join_sender. intros H. apply in_flat_map in H.
  destruct H as [m [Hm H]]. apply in_map_iff in H.
  destruct H as [u [<- _]]. exists m. split; [exact Hm|]. repeat split.
Qed.


Lemma rows_in (rows : list MessageRow) (ms : list Message) (m : Message) :
  Forall2 row_of rows ms -> In m ms -> exists r, In r rows /\ row_of r m.
Proof.
  induction 1 as [|r m' rows ms Hr _ IH]; intros Hin.
  - destruct Hin.
  - destruct Hin as [->|Hin].
    + exists r. split; [now left | exact Hr].
    + destruct (IH Hin) as (r' & Hr' & Hm). exists r'.
      split; [now right | exact Hm].
Qed.

Lemma rows_ids (rows : list MessageRow) (ms : list Message) :
  Forall2 row_of rows ms -> map row_id rows = map m_id ms.
Proof.
  induction 1 as [|r m rows ms [Hid _] _ IH]; simpl; congruence.
Qed.

Lemma rows_sorted (R : Z -> Z -> Prop) (rows : list MessageRow)
    (ms : list Message) :
  Forall2 row_of rows ms ->
  StronglySorted (fun a b => R (m_id a) (m_id b)) ms ->
  StronglySorted (fun a b => R (row_id a) (row_id b)) rows.
Proof.
  intros H Hs. apply sorted_map in Hs. rewrite <- (rows_ids _ _ H) in Hs.
  clear H. induction rows as [|r rows IH]; [constructor|].
  simpl in Hs. inversion Hs as [|? ? Hs' Hr]; subst.
  constructor; [now apply IH|].
  rewrite Forall_map in Hr. exact Hr.
Qed.

Lemma well_formed_senders (db : DB) (f : Message -> bool) :
  well_formed db -> Forall (has_sender db) (filter f (messages db)).
Proof.
  intros (_ & _ & H). apply Forall_forall. intros m Hm.
  apply filter_In in Hm. destruct Hm as [Hm _].
  revert m Hm. now apply Forall_forall.
Qed.
End JoinFacts.

(** ** The poller *)

Section PollerFacts.
Import Store Chat Interface Spec.

Lemma last_id_cons (r : MessageRow) (rows : list MessageRow) :
  rows <> [] -> last_id (r :: rows) = last_id rows.
Proof.
  intros H. unfold last_id. simpl.
  destruct (rev rows) as [|x l] eqn:E; [|reflexivity].
  apply (f_equal (@rev _)) in E. rewrite rev_involutive in E.
  now destruct H.
Qed.


Lemma update_is_read_twice (c1 c2 c : Message -> bool) (db : DB) :
  (forall m, c2 (set_read m) = c2 m) ->
  (forall m, c m = c1 m || c2 m) ->
  update_is_read c2 (update_is_read c1 db) = update_is_read c db.
Proof.
  intros H2 Hc. unfold update_is_read. simpl. f_equal.
  rewrite map_map. apply map_ext. intros m. rewrite Hc.
  destruct (c1 m); simpl.
  - rewrite H2. now destruct (c2 m).
  - reflexivity.
Qed.

Lemma update_is_read_never (c : Message -> bool) (db : DB) :
  (forall m, c m = false) -> update_is_read c db = db.
Proof.
  intros H. unfold update_is_read. destruct db as [us ms]. simpl. f_equal.
  rewrite <- (map_id ms) at 2. apply map_ext. intros m. now rewrite H.
Qed.

(** The whole [for row in messages] loop of the poller at once. *)
Lemma poll_rows (rows : list MessageRow) :
  forall (db : DB) (s : MessagingInterface) (out : list Printed),
    fold_left poll_row rows (db, s, out)
    = (update_is_read (marked_by_poll s rows) db,
       set_last_msg (watermark_after (last_msg s) rows) s,
       out ++ map (ShowMessage Polled) rows).
Proof.
  induction rows as [|r rows IH]; intros db s out.
  - simpl. rewrite app_nil_r, update_is_read_never by reflexivity.
    now destruct s.
  - cbn [fold_left poll_row]. rewrite IH. f_equal; [f_equal|].
    + destruct (is_recipient s (row_sender_id r)) eqn:E.
      * apply update_is_read_twice; [reflexivity|].
        intros m. unfold marked_by_poll. cbn [existsb].
        now rewrite E.
      * unfold marked_by_poll. cbn [existsb]. rewrite E.
        reflexivity.
    + destruct rows as [|r' rows]; [reflexivity|].
      cbn [watermark_after].
      now rewrite (last_id_cons r) by discriminate.
    + now rewrite <- app_assoc.
Qed.

Variables (db : DB) (s : MessagingInterface) (P : Z).
Hypothesis Hwf : well_formed db.
Hypothesis Hopen : recipient_id s = Some P.

Let batch := filter (fetched (last_msg s) (user_id s) P) (messages db).

Lemma poll_query_rows :
  poll_query db s = join_sender db batch
  /\ Forall2 row_of (poll_query db s) batch.
Proof.
  assert (Hrows : Forall2 row_of (join_sender db batch) batch)
    by (apply join_sender_rows, well_formed_senders, Hwf).
  unfold poll_query. rewrite Hopen. fold (fetched (last_msg s) (user_id s) P).
  fold batch. rewrite order_by_asc_sorted; [now split|].
  apply (rows_sorted Z.lt _ batch Hrows).
  apply sorted_filter, Hwf.
Qed.

(** The poller marks a stored message exactly when it fetched it and
    the partner sent it. *)
Lemma marked_by_poll_fetched (m : Message) :
  In m (messages db) ->
  marked_by_poll s (poll_query db s) m
  = fetched (last_msg s) (user_id s) P m && (m_sender_id m =? P).
Proof.
  intros Hm. destruct poll_query_rows as [Hq Hrows].
  unfold marked_by_poll, is_recipient. rewrite Hopen.
  apply eq_true_iff_eq. rewrite existsb_exists, !andb_true_iff.
  split.
  - intros (r & Hr & Hc). apply andb_true_iff in Hc.
    destruct Hc as [Hs Hid]. apply Z.eqb_eq in Hs, Hid.
    rewrite Hq in Hr. apply join_sender_in in Hr.
    destruct Hr as (m' & Hm' & Hid' & Hs' & _).
    apply filter_In in Hm'. destruct Hm' as [Hm' Hf].
    assert (m = m').
    { destruct Hwf as [Hsorted _].
      apply (sorted_key_inj m_id (messages db)); auto. congruence. }
    subst m'. split; [exact Hf|]. apply Z.eqb_eq. congruence.
  - intros [Hf Hs].
    assert (Hin : In m batch) by (apply filter_In; now split).
    destruct (rows_in _ _ m Hrows Hin) as (r & Hr & Hid & Hs' & _).
    exists r. split; [exact Hr|].
    rewrite Hs', Hid, Z.eqb_refl, andb_true_r.
    apply Z.eqb_eq. apply Z.eqb_eq in Hs. congruence.
Qed.
End PollerFacts.

Section PollerClaims.
Import Store Chat Interface Spec.



End PollerClaims.

(** ** Digit strings *)

Section DigitFacts.
Import PyStr.

Lemma digit_is_no_space (c : ascii) :
  is_digit c = true -> is_space c = false.
Proof.
  destruct c as [[] [] [] [] [] [] [] []]; intros H;
    try discriminate H; reflexivity.
Qed.

Lemma rstrip_digits (s : string) : all_digits s = true -> rstrip s = s.
Proof.
  induction s as [|c s IH]; [reflexivity|].
  cbn [all_digits rstrip]. intros H. apply andb_true_iff in H.
  destruct H as [Hc Hs]. rewrite (IH Hs).
  destruct s; [|reflexivity]. now rewrite digit_is_no_space.
Qed.

Lemma strip_digits (s : string) : all_digits s = true -> strip s = s.
Proof.
  intros H. unfold strip.
  replace (lstrip s) with s; [now apply rstrip_digits|].
  destruct s as [|c s]; [reflexivity|].
  cbn [all_digits] in H. apply andb_true_iff in H. destruct H as [Hc _].
  cbn [lstrip]. now rewrite digit_is_no_space.
Qed.


Lemma decimal_is_digit (c : ascii) : is_decimal c = true -> is_digit c = true.
Proof. unfold is_digit. now intros ->. Qed.





(** [int] raises nothing but [ValueError]. *)
Lemma int_raises (s : string) (e : PyException) :
  int s = Raise e -> e = ValueError.
Proof.
  unfold int. destruct (parse_digits _ _ _ _) as [[n digits]|].
  - destruct (MAX_STR_DIGITS <? digits); [|discriminate]. now intros [= <-].
  - now intros [= <-].
Qed.
End DigitFacts.

(** ** The conversation menu *)

Section MenuFacts.
Import Store Chat Interface Menu.

Lemma digit_is_no_letter (c : ascii) :
  PyStr.is_digit c = true ->
  Forall (fun k => Ascii.eqb c k = false)
         ["p"; "n"; "f"; "l"; "o"; "u"; "r"; "b"; "q"]%char.
Proof.
  destruct c as [[] [] [] [] [] [] [] []]; intros H;
    try discriminate H; repeat constructor.
Qed.

(** A command made of digits is none of the letter commands. *)
Lemma digits_are_no_command (command : string) :
  PyStr.isdigit command = true ->
  Forall (fun k => String.eqb command k = false)
         ["p"; "n"; "f"; "l"; "o"; "u"; "r"; "b"; "q"].
Proof.
  destruct command as [|c rest]; [discriminate|].
  cbn [PyStr.isdigit PyStr.all_digits]. intros H.
  apply andb_true_iff in H. destruct H as [H _].
  pose proof (digit_is_no_letter c H) as L.
  repeat match goal with
         | L : Forall _ (_ :: _) |- _ =>
             let E := fresh "E" in
             inversion L as [|? ? E ?]; clear L; subst
         end.
  repeat constructor; cbn [String.eqb];
    match goal with E : Ascii.eqb c ?k = false |- context [Ascii.eqb c ?k] =>
      now rewrite E end.
Qed.

(** What [dispatch] does with a command made of digits. *)
Lemma dispatch_digits (db : DB) (s : MessagingInterface)
    (rows : list ChatRow) (command : string) :
  PyStr.isdigit command = true ->
  dispatch db s rows command
  = match PyStr.int command with
    | Raise _ => fatal s
    | Ok n =>
        if (n - 1 <? 0) || (len rows <? n - 1) then (Continue s, [])
        else match py_index rows (n - 1) with
             | Ok row => (Call (ChatView (chat_partner_id row)
                                         (chat_partner_username row)) s, [])
             | Raise _ => fatal s
             end
    end.
Proof.
  intros H. pose proof (digits_are_no_command command H) as L.
  repeat match goal with
         | L : Forall _ (_ :: _) |- _ =>
             let E := fresh "E" in
             inversion L as [|? ? E ?]; clear L; subst
         end.
  unfold dispatch.
  repeat match goal with
         | E : String.eqb command _ = false |- _ => rewrite E; clear E
         end.
  cbn [orb]. now rewrite H.
Qed.
End MenuFacts.

Section MenuClaims.
Import Store Chat Interface Menu.

(** C1, as the code has it.  In the conversation-menu loop a digit
    command that [int] reads as a number [n] below 1, or as one that
    exceeds the number of listed conversations by more than one, is
    ignored: the state is unchanged, nothing is printed about it, and
    the loop goes on to redraw the menu; it is not fatal. *)
Theorem run_ignores_far_selection (db : DB) (s : MessagingInterface)
    (rows : list ChatRow) (command : string) (n : Z) :
  show_command_menu_view db s = Ok rows ->
  PyStr.isdigit command = true ->
  PyStr.int command = Ok n ->
  n < 1 \/ len rows + 1 < n ->
  run_iteration db s command = (Continue s, [])
  /\ goes_on (fst (run_iteration db s command)) = is_executing s
  /\ (forall typed ending,
        iteration db s command typed ending = (Continue s, [])).
Proof.
  intros Hview Hdigits Hint Hfar.
  assert (E : run_iteration db s command = (Continue s, [])).
  { unfold run_iteration. rewrite Hview, dispatch_digits by assumption.
    rewrite Hint.
    destruct Hfar as [Hlow | Hhigh].
    - replace (n - 1 <? 0) with true by (symmetry; apply Z.ltb_lt; lia).
      reflexivity.
    - replace (len rows <? n - 1) with true
        by (symmetry; apply Z.ltb_lt; lia).
      now rewrite orb_true_r. }
  split; [exact E|]. split; [now rewrite E|].
  intros typed ending. unfold iteration, resolve. now rewrite E.
Qed.
End MenuClaims.

(** C1 at Alice's menu, which lists two conversations, for the input
    ["4"]. *)
Lemma run_ignores_far_selection_witness :
  Menu.run_iteration Sample.inbox Sample.alice "4"
  = (Menu.Continue Sample.alice, []).
Proof.
  refine (proj1 (run_ignores_far_selection Sample.inbox Sample.alice
                   (Chat.chats Sample.inbox 1 (Some 3) 0) "4" 4
                   eq_refl eq_refl eq_refl _)).
  right. vm_compute. reflexivity.
Defined.

(** C1 as the specification states it fails on the same input: the
    selection 4 names none of the two conversations listed, the loop goes
    on, and nothing at all is reported to the user. *)
Lemma run_far_selection_unreported :
  len (Chat.chats Sample.inbox 1 (Some 3) 0) = 2
  /\ PyStr.isdigit "4" = true
  /\ snd (Menu.run_iteration Sample.inbox Sample.alice "4") = [].
Proof. repeat split. Qed.

(** The selection one past the end of the list is not caught by the
    range test [i > len(chats)]: [chats[i]] raises [IndexError], the
    [except Exception] branch prints its apology and leaves the loop. *)
Example run_selection_one_past_the_end :
  Menu.run_iteration Sample.inbox Sample.alice "3"
  = (Menu.Break Sample.alice, [Interface.TechnicalDifficulties])
  /\ Menu.goes_on (fst (Menu.run_iteration Sample.inbox Sample.alice "3"))
     = false.
Proof. split; reflexivity. Qed.

(** A digit command that [int] does not read is not caught either:
    4301 digits are more than [int] converts, the superscript two is a
    digit to [isdigit] and none to [int]; the [ValueError] reaches
    [except Exception]. *)
Example run_selection_unreadable :
  Menu.run_iteration Sample.inbox Sample.alice
    (PyStr.replicate "1" 4301)
  = (Menu.Break Sample.alice, [Interface.TechnicalDifficulties])
  /\ Menu.run_iteration Sample.inbox Sample.alice
       (String (ascii_of_nat 178) EmptyString)
     = (Menu.Break Sample.alice, [Interface.TechnicalDifficulties]).
Proof. split; vm_compute; reflexivity. Qed.

(** A listed conversation is opened. *)
Example run_selection_in_range :
  Menu.run_iteration Sample.inbox Sample.alice "2"
  = (Menu.Call (Menu.ChatView 2 "bob") Sample.alice, []).
Proof. reflexivity. Qed.

(** ** More on sorted lists *)

Lemma sorted_snoc {A : Type} (R : A -> A -> Prop) (l : list A) (x : A) :
  StronglySorted R l -> Forall (fun y => R y x) l ->
  StronglySorted R (l ++ [x]).
Proof.
  induction 1 as [|y l Hs IH Hy]; intros Hx; simpl.
  - repeat constructor.
  - inversion Hx; subst. constructor; [now apply IH|].
    apply Forall_app. split; [exact Hy | now repeat constructor].
Qed.

Section SortedMore.
Context {A : Type}.
Variable R : A -> A -> Prop.

Lemma sorted_rev (l : list A) :
  StronglySorted R l -> StronglySorted (fun a b => R b a) (rev l).
Proof.
  induction 1 as [|x l Hs IH Hx]; simpl.
  - constructor.
  - apply sorted_snoc; [exact IH|].
    apply Forall_forall. intros y Hy. apply in_rev in Hy.
    revert y Hy. now apply Forall_forall.
Qed.

Lemma sorted_app_inv (l1 l2 : list A) :
  StronglySorted R (l1 ++ l2) ->
  StronglySorted R l1 /\ StronglySorted R l2
  /\ (forall a b, In a l1 -> In b l2 -> R a b).
Proof.
  induction l1 as [|x l1 IH]; simpl; intros H.
  - repeat split; [constructor | exact H | tauto].
  - inversion H as [|? ? Hs Hx]; subst.
    destruct (IH Hs) as (H1 & H2 & H12).
    rewrite Forall_app in Hx. destruct Hx as [Hx1 Hx2].
    repeat split; [now constructor | exact H2 |].
    intros a b [<-|Ha] Hb; [|now apply H12].
    revert b Hb. now apply Forall_forall.
Qed.

Lemma sorted_firstn (n : nat) (l : list A) :
  StronglySorted R l -> StronglySorted R (firstn n l).
Proof.
  intros H. rewrite <- (firstn_skipn n l) in H.
  now apply sorted_app_inv in H.
Qed.

Lemma sorted_skipn (n : nat) (l : list A) :
  StronglySorted R l -> StronglySorted R (skipn n l).
Proof.
  intros H. rewrite <- (firstn_skipn n l) in H.
  now apply sorted_app_inv in H.
Qed.

Lemma sorted_limit_offset (limit offset : Z) (l : list A) :
  StronglySorted R l -> StronglySorted R (Store.limit_offset limit offset l).
Proof.
  intros H. unfold Store.limit_offset.
  destruct (limit <? 0); [|apply sorted_firstn]; now apply sorted_skipn.
Qed.

Lemma sorted_head (x : A) (l : list A) (y : A) :
  StronglySorted R (x :: l) -> In y l -> R x y.
Proof.
  intros H Hy. inversion H as [|? ? _ Hx]; subst.
  revert y Hy. now apply Forall_forall.
Qed.
End SortedMore.

Lemma sorted_weaken {A : Type} (R S : A -> A -> Prop) (l : list A) :
  (forall a b, R a b -> S a b) -> StronglySorted R l -> StronglySorted S l.
Proof.
  intros HRS. induction 1 as [|x l Hs IH Hx]; constructor; [exact IH|].
  eapply Forall_impl; [|exact Hx]. auto.
Qed.

Lemma sorted_and {A : Type} (R S : A -> A -> Prop) (l : list A) :
  StronglySorted R l -> StronglySorted S l ->
  StronglySorted (fun a b => R a b /\ S a b) l.
Proof.
  induction 1 as [|x l Hs IH Hx]; intros H; [constructor|].
  inversion H as [|? ? Hs' Hx']; subst.
  constructor; [now apply IH|].
  rewrite Forall_forall in *. auto.
Qed.

Lemma descending_nodup (l : list Z) : StronglySorted Z.gt l -> NoDup l.
Proof.
  induction 1 as [|x l Hs IH Hx]; constructor; [|exact IH].
  intros Hin. rewrite Forall_forall in Hx. specialize (Hx x Hin). lia.
Qed.

(** ** The rows of a conversation *)

Section ConversationFacts.
Import Store Chat Interface Spec.

Lemma between_set_read (c : Message -> bool) (a b : Z) (m : Message) :
  between a b (if c m then set_read m else m) = between a b m.
Proof. now destruct (c m). Qed.

Lemma join_sender_users (d1 d2 : DB) (ms : list Message) :
  users d1 = users d2 -> join_sender d1 ms = join_sender d2 ms.
Proof. unfold join_sender. now intros ->. Qed.

Lemma join_sender_cons (db : DB) (m : Message) (ms : list Message) :
  join_sender db (m :: ms)
  = map (fun u => mkMessageRow (m_id m) (m_sender_id m) (m_message m)
                               (m_created_at m) (u_username u))
        (filter (fun u => m_sender_id m =? u_id u) (users db))
    ++ join_sender db ms.
Proof. reflexivity. Qed.

Lemma join_sender_marked (c : Message -> bool) (db : DB) (a b : Z)
    (l : list Message) :
  join_sender db
    (filter (between a b) (map (fun m => if c m then set_read m else m) l))
  = join_sender db (filter (between a b) l).
Proof.
  induction l as [|m l IH]; [reflexivity|].
  cbn [map filter]. rewrite between_set_read.
  destruct (between a b m); [|exact IH].
  rewrite !join_sender_cons, IH.
  now destruct (c m).
Qed.

(** Marking messages read changes no row of a conversation. *)
Lemma conv_rows_update (c : Message -> bool) (db : DB) (a b : Z) :
  conv_rows (update_is_read c db) a b = conv_rows db a b.
Proof.
  unfold conv_rows.
  rewrite (join_sender_users (update_is_read c db) db) by reflexivity.
  apply join_sender_marked.
Qed.

(** A new message adds rows to a conversation and removes none. *)
Lemma conv_rows_insert (db : DB) (sender recipient : Z) (text : string)
    (now a b : Z) :
  exists added,
    conv_rows (insert_message db sender recipient text now) a b
    = conv_rows db a b ++ added
    /\ (between a b (mkMessage (next_id db) sender recipient text now false)
        = false -> added = []).
Proof.
  unfold conv_rows, insert_message. cbn [messages].
  rewrite filter_app. unfold join_sender at 1. rewrite flat_map_app.
  eexists. split; [reflexivity|].
  intros H. cbn [filter]. now rewrite H.
Qed.





End ConversationFacts.

(** ** One event of an open chat *)

Section EventFacts.
Import Store Chat Interface Spec Session.

Lemma shown_app (f : Source -> bool) (a b : list Printed) :
  shown f (a ++ b) = shown f a ++ shown f b.
Proof. apply flat_map_app. Qed.

Lemma shown_messages (f : Source -> bool) (src : Source)
    (rows : list MessageRow) :
  shown f (map (ShowMessage src) rows)
  = if f src then map row_id rows else [].
Proof.
  induction rows as [|r rows IH]; simpl.
  - now destruct (f src).
  - fold (shown f (map (ShowMessage src) rows)). rewrite IH.
    now destruct (f src).
Qed.

Lemma shown_wiped (f : Source -> bool) (text : string) (out : list Printed) :
  shown f (ClearTerminalLines text :: out) = shown f out.
Proof. reflexivity. Qed.

Lemma between_self (a b : Z) (text : string) (now i : Z) :
  between a b (mkMessage i a b text now false) = true.
Proof. unfold between. simpl. now rewrite !Z.eqb_refl. Qed.

(** Every reaction to an event is one of the outcomes. *)
Lemma react_outcome (st : State) (e : Event) :
  forall d s out, react st e = (d, s, out) -> Outcome st e d s out.
Proof.
  intros d s out H. destruct e as [|raw now| |sender recipient text now];
    cbn [react] in H.
  - unfold poll in H.
    destruct (is_executing (ui st) && chatting (ui st)) eqn:E.
    + rewrite poll_rows in H. inversion H; subst.
      now apply OutPoll.
    + inversion H; subst. constructor.
  - unfold chat_input in H.
    destruct (is_executing (ui st) && chatting (ui st)) eqn:E;
      [|inversion H; subst; constructor].
    destruct (one_of _ ["/b"; "/back"; "/q"; "/quit"; "/exit"]) eqn:E1;
      [inversion H; subst; apply OutWiped; constructor|].
    destruct (one_of _ ["/c"; "/clear"; "/clean"]) eqn:E2;
      [inversion H; subst; apply OutWiped; constructor|].
    destruct (one_of _ ["/m"; "/more"]) eqn:E3.
    { unfold get_older_messages_from in H.
      destruct (_ <=? _); [inversion H; subst; apply OutWiped; constructor|].
      destruct (messages_with _ _ _ _ _) as [|r rows] eqn:Em;
        [inversion H; subst; apply OutWiped; constructor|].
      rewrite <- Em in H. inversion H; subst.
      apply OutWiped, OutOlder.
      - rewrite Em. discriminate.
      - cbn [set_history_offset history_offset messages_per_page].
        now destruct (0 <? _). }
    destruct (one_of _ ["/help"; "/h"]) eqn:E4;
      [inversion H; subst; apply OutWiped; constructor|].
    destruct (PyStr.strip raw) as [|c rest] eqn:Es;
      [inversion H; subst; apply OutWiped; constructor|].
    rewrite <- Es in *. inversion H; subst.
    unfold send_message. apply OutWiped, OutInsert.
    unfold writes_between, is_message.
    rewrite E1, E2, E3, E4, Es. cbn [negb andb String.eqb].
    now rewrite between_self.
  - unfold chat_interrupt in H.
    destruct (is_executing (ui st) && chatting (ui st));
      inversion H; subst; constructor.
  - inversion H; subst. apply OutInsert. reflexivity.
Qed.
End EventFacts.

Section OutcomeFacts.
Import Store Chat Interface Spec Session.
Variables (st : State) (e : Event).
Variables (d : DB) (s : MessagingInterface) (out : list Printed).
Hypothesis Hout : Outcome st e d s out.

Lemma outcome_fields :
  user_id s = user_id (ui st)
  /\ messages_per_page s = messages_per_page (ui st)
  /\ is_executing s = is_executing (ui st).
Proof. induction Hout; repeat split; tauto. Qed.


(** Without a write between the two, the conversation is the same. *)
Lemma outcome_conv_same :
  writes_between (user_id (ui st)) (rid st) e = false ->
  conv_rows d (user_id (ui st)) (rid st)
  = conv_rows (db st) (user_id (ui st)) (rid st).
Proof.
  induction Hout as [| | | | | | |sender recipient text now Hw|];
    try reflexivity; try tauto.
  - intros _. apply conv_rows_update.
  - intros Hq. rewrite Hq in Hw.
    destruct (conv_rows_insert (db st) sender recipient text now
                (user_id (ui st)) (rid st)) as (added & -> & Hnone).
    rewrite Hnone by now symmetry. apply app_nil_r.
Qed.


End OutcomeFacts.

(** ** Windows of a conversation in order *)

Section WindowFacts.
Import Store Chat Interface Spec.

Lemma rows_sorted_by (f : MessageRow -> Z) (g : Message -> Z)
    (R : Z -> Z -> Prop) (rows : list MessageRow) (ms : list Message) :
  (forall r m, row_of r m -> f r = g m) ->
  Forall2 row_of rows ms ->
  StronglySorted (fun a b => R (g a) (g b)) ms ->
  StronglySorted (fun a b => R (f a) (f b)) rows.
Proof.
  intros Hfg. induction 1 as [|r m rows ms Hr Hrows IH]; intros Hs.
  - constructor.
  - inversion Hs as [|? ? Hs' Hm]; subst.
    constructor; [now apply IH|].
    rewrite (Hfg r m Hr). clear - Hfg Hrows Hm.
    induction Hrows as [|r' m' rows ms Hr' _ IH]; constructor.
    + inversion Hm; subst. now rewrite (Hfg r' m' Hr').
    + apply IH. now inversion Hm.
Qed.

(** In a well-formed store a chronological conversation is in order. *)
Lemma conv_in_order (db : DB) (a b : Z) :
  well_formed db -> chronological db a b -> in_order (conv_rows db a b).
Proof.
  intros Hwf Hchr.
  assert (Hrows : Forall2 row_of (conv_rows db a b)
                          (filter (between a b) (messages db)))
    by apply join_sender_rows, well_formed_senders, Hwf.
  apply sorted_and.
  - apply (rows_sorted_by row_created_at m_created_at Z.lt _ _
             (fun r m H => proj2 (proj2 (proj2 H))) Hrows Hchr).
  - apply (rows_sorted_by row_id m_id Z.lt _ _
             (fun r m H => proj1 H) Hrows).
    apply sorted_filter, Hwf.
Qed.


Variables (db : DB) (a b : Z).
Hypothesis Hord : in_order (conv_rows db a b).

(** Latest first is the table order reversed. *)
Lemma latest_first_rev :
  order_by_desc row_created_at (conv_rows db a b) = rev (conv_rows db a b).
Proof.
  apply order_by_desc_sorted.
  eapply sorted_weaken; [|exact Hord]. now intros x y [H _].
Qed.

Lemma latest_first_descending :
  StronglySorted (fun x y => row_id y < row_id x)
    (order_by_desc row_created_at (conv_rows db a b)).
Proof.
  rewrite latest_first_rev.
  apply (sorted_rev (fun x y => row_id x < row_id y)).
  eapply sorted_weaken; [|exact Hord]. now intros x y [_ H].
Qed.

(** Every window is in ascending id order. *)
Lemma window_ascending (limit offset : Z) :
  StronglySorted (fun x y => row_id x < row_id y)
                 (messages_with db a b limit offset).
Proof.
  unfold messages_with. fold (conv_rows db a b).
  apply (sorted_rev (fun x y => row_id y < row_id x)).
  apply sorted_limit_offset, latest_first_descending.
Qed.

End WindowFacts.

(** ** The watermark of an open chat *)

Section WatermarkFacts.
Import Store Chat Interface Spec Session.

Lemma step_eq (st : State) (e : Event) (d : DB) (s : MessagingInterface)
    (out : list Printed) :
  react st e = (d, s, out) ->
  step st e = mkState d s (rid st) (rname st) (console st ++ out).
Proof. unfold step. now intros ->. Qed.

Lemma run_snoc (st : State) (evs : list Event) (e : Event) :
  run st (evs ++ [e]) = step (run st evs) e.
Proof. unfold run. now rewrite fold_left_app. Qed.

Lemma step_fields (st : State) (e : Event) :
  rid (step st e) = rid st
  /\ user_id (ui (step st e)) = user_id (ui st)
  /\ messages_per_page (ui (step st e)) = messages_per_page (ui st)
  /\ is_executing (ui (step st e)) = is_executing (ui st).
Proof.
  destruct (react st e) as [[d s] out] eqn:E.
  rewrite (step_eq _ _ _ _ _ E). cbn [rid ui].
  split; [reflexivity|].
  apply (outcome_fields st e d s out), react_outcome, E.
Qed.

Lemma run_fields (st : State) (evs : list Event) :
  rid (run st evs) = rid st
  /\ user_id (ui (run st evs)) = user_id (ui st)
  /\ messages_per_page (ui (run st evs)) = messages_per_page (ui st)
  /\ is_executing (ui (run st evs)) = is_executing (ui st).
Proof.
  induction evs as [|e evs IH] using rev_ind; [repeat split|].
  rewrite run_snoc.
  destruct (step_fields (run st evs) e) as (-> & -> & -> & ->).
  exact IH.
Qed.



End WatermarkFacts.

Section OpeningFacts.
Import Store Chat Interface Spec Session.
Variables (d : DB) (s : MessagingInterface) (P : Z) (name : string).

Let opened : DB :=
  update_is_read (fun m => (m_sender_id m =? P)
                           && (m_recipient_id m =? user_id s)) d.
Let window : list MessageRow :=
  messages_with opened (user_id s) P (messages_per_page s) 0.

(** The state [goto_chat_view] hands to the poller and the message
    loop. *)
Lemma start_state :
  db (start d s P name) = opened
  /\ ui (start d s P name) = set_last_msg (last_id window) (enter_chat P name s)
  /\ rid (start d s P name) = P
  /\ forall f, shown f (console (start d s P name))
               = if f Initial then map row_id window else [].
Proof.
  subst window opened. unfold start, open_chat. cbn [db ui rid console].
  repeat split. intros f.
  cbn [enter_chat user_id messages_per_page history_offset set_last_msg].
  rewrite !shown_app, shown_messages.
  destruct (_ <? _), (messages_with _ _ _ _ _), (f Initial); cbn;
    rewrite ?app_nil_r; reflexivity.
Qed.

Hypothesis Hwf : well_formed d.
Hypothesis Hchr : chronological d (user_id s) P.

Lemma opened_in_order : in_order (conv_rows opened (user_id s) P).
Proof.
  unfold opened. rewrite conv_rows_update. now apply conv_in_order.
Qed.

End OpeningFacts.

Section WatermarkClaims.
Import Store Chat Interface Spec Session.

Lemma not_shown_at_all (f : Source -> bool) (p : Printed) :
  shown any_source [p] = [] -> shown f [p] = [].
Proof. destruct p; try reflexivity. discriminate. Qed.



End WatermarkClaims.

Lemma sample_history_well_formed : Spec.well_formed Sample.history.
Proof.
  repeat split.
  - repeat constructor.
  - repeat constructor.
  - repeat constructor; eexists; reflexivity.
Qed.

Lemma sample_history_chronological : Spec.chronological Sample.history 1 2.
Proof. unfold Spec.chronological. simpl. repeat constructor. Qed.



(** ** The windows of an open chat *)

Section WindowsFacts.
Import Store Chat Interface Spec Session.

(** The window [/more] loads: the rows at positions
    [offset .. offset + limit - 1] of the conversation latest first,
    printed oldest first. *)
Lemma messages_with_window (db : DB) (a b limit offset : Z) :
  0 <= limit ->
  messages_with db a b limit offset
  = rev (firstn (Z.to_nat limit)
           (skipn (Z.to_nat offset)
              (order_by_desc row_created_at (conv_rows db a b)))).
Proof.
  intros H. unfold messages_with, limit_offset.
  destruct (limit <? 0) eqn:E; [lia | reflexivity].
Qed.

Lemma descending_ids_nodup (rows : list MessageRow) :
  StronglySorted (fun x y => row_id y < row_id x) rows ->
  NoDup (map row_id rows).
Proof.
  intros H. apply descending_nodup, sorted_map.
  eapply sorted_weaken; [|exact H]. intros; simpl in *; lia.
Qed.

Variable st : State.
Hypothesis Hord : in_order (conversation st).
Hypothesis Hpage : 0 < messages_per_page (ui st).
Hypothesis Hinv : windows_invariant st.

Let offset : Z := history_offset (ui st) + messages_per_page (ui st).
Let loaded : list MessageRow := firstn (Z.to_nat offset) (latest_first st).
Let older : list MessageRow :=
  firstn (Z.to_nat (messages_per_page (ui st)))
         (skipn (Z.to_nat offset) (latest_first st)).

Lemma loaded_then_older :
  firstn (Z.to_nat (offset + messages_per_page (ui st))) (latest_first st)
  = loaded ++ older.
Proof.
  destruct Hinv as (Hpos & _). unfold loaded, older.
  rewrite <- firstn_plus. f_equal. unfold offset. lia.
Qed.

Lemma older_below_loaded (x y : MessageRow) :
  In x loaded -> In y older -> row_id y < row_id x.
Proof.
  intros Hx Hy.
  pose proof (latest_first_descending (db st) (user_id (ui st)) (rid st)
                Hord) as Hs.
  fold (conversation st) (latest_first st) in Hs.
  apply (sorted_firstn _ (Z.to_nat (offset + messages_per_page (ui st))))
    in Hs.
  rewrite loaded_then_older in Hs. apply sorted_app_inv in Hs.
  destruct Hs as (_ & _ & H). now apply H.
Qed.

Lemma older_nodup : NoDup (map row_id (rev older)).
Proof.
  rewrite map_rev. apply NoDup_rev, descending_ids_nodup.
  unfold older. apply sorted_firstn, sorted_skipn.
  apply (latest_first_descending (db st) (user_id (ui st)) (rid st) Hord).
Qed.

(** What an event prints of older messages lies strictly below
    everything loaded before, whatever the event. *)
Lemma windows_step_older (e : Event) (d : DB) (s : MessagingInterface)
    (out : list Printed) :
  react st e = (d, s, out) ->
  Forall (fun i => Forall (fun j => i < j) (shown is_window (console st)))
         (shown is_window out).
Proof.
  intros E. apply react_outcome in E.
  induction E as [| | |_ _ rows|limit| |tail off msgs _ Htail| |? ? ? ? _ IH];
    try constructor; try exact IH.
  - rewrite shown_messages. constructor.
  - rewrite shown_app, shown_messages. constructor.
  - rewrite !shown_app, shown_messages, (not_shown_at_all _ _ Htail).
    cbn [shown flat_map is_window app]. rewrite app_nil_r.
    subst msgs off. rewrite messages_with_window by lia.
    fold (conversation st) (latest_first st) offset older.
    destruct Hinv as (_ & _ & Hin).
    apply Forall_forall. intros i Hi. apply Forall_forall. intros j Hj.
    apply in_map_iff in Hi. destruct Hi as (y & <- & Hy).
    apply in_rev in Hy. specialize (Hin j Hj).
    apply in_map_iff in Hin. destruct Hin as (x & <- & Hx).
    now apply older_below_loaded.
Qed.

(** An event that writes nothing to the conversation keeps the
    windows distinct and leaves the conversation as it is. *)
Lemma windows_step_quiet (e : Event) :
  writes_between (user_id (ui st)) (rid st) e = false ->
  windows_invariant (step st e)
  /\ conversation (step st e) = conversation st.
Proof.
  intros Hquiet. destruct (react st e) as [[d s] out] eqn:E.
  pose proof (windows_step_older e d s out E) as Holder.
  rewrite (step_eq _ _ _ _ _ E).
  pose proof (react_outcome _ _ _ _ _ E) as Hout.
  pose proof (outcome_conv_same st e d s out Hout Hquiet) as Hsame.
  destruct (outcome_fields st e d s out Hout) as (Huid & Hmpp & _).
  assert (Hconv : conversation (mkState d s (rid st) (rname st)
                                        (console st ++ out))
                  = conversation st).
  { unfold conversation. cbn [db ui rid]. now rewrite Huid. }
  split; [|exact Hconv].
  unfold windows_invariant, latest_first. rewrite Hconv.
  fold (latest_first st). cbn [ui console]. rewrite Hmpp, shown_app.
  destruct Hinv as (Hpos & Hnodup & Hin).
  clear E Hsame Hconv Huid Hmpp. revert Holder.
  induction Hout as [| | |_ _ rows|limit| |tail off msgs _ Htail| |? ? ? ? _ IH];
    intros Holder;
    cbn [history_offset leave_chat set_last_msg set_history_offset];
    try (rewrite ?shown_app, ?shown_messages;
         cbn [shown flat_map is_window app]; rewrite ?app_nil_r;
         repeat split; assumption);
    try exact (IH Holder).
  rewrite !shown_app, shown_messages, (not_shown_at_all _ _ Htail)
    in Holder |- *.
  cbn [shown flat_map is_window app] in Holder |- *.
  rewrite app_nil_r in Holder |- *.
  subst msgs off. rewrite messages_with_window in Holder |- * by lia.
  fold (conversation st) (latest_first st) offset older in Holder |- *.
  rewrite loaded_then_older.
  split; [unfold offset; lia|]. split.
  - apply NoDup_app; [exact Hnodup | exact older_nodup |].
    intros i Hi Hi'. rewrite Forall_forall in Holder.
    specialize (Holder i Hi'). rewrite Forall_forall in Holder.
    specialize (Holder i Hi). lia.
  - intros i Hi. rewrite map_app. apply in_or_app.
    apply in_app_or in Hi. destruct Hi as [Hi|Hi].
    + left. now apply Hin.
    + right. rewrite map_rev in Hi. now apply in_rev in Hi.
Qed.
End WindowsFacts.

Section WindowsClaims.
Import Store Chat Interface Spec Session.

(** Opening a chat loads the first window. *)
Lemma start_windows_invariant (d : DB) (s : MessagingInterface) (P : Z)
    (name : string) :
  well_formed d -> chronological d (user_id s) P ->
  0 < messages_per_page s ->
  windows_invariant (start d s P name)
  /\ in_order (conversation (start d s P name)).
Proof.
  intros Hwf Hchr Hpage.
  pose proof (opened_in_order d s P Hwf Hchr) as Hord.
  destruct (start_state d s P name) as (Hdb & Hui & Hrid & Hshown).
  unfold windows_invariant, latest_first, conversation.
  rewrite Hshown, Hdb, Hui, Hrid.
  cbn [is_window history_offset messages_per_page user_id set_last_msg
       enter_chat].
  split; [|exact Hord].
  rewrite messages_with_window by lia. cbn [Z.to_nat skipn].
  split; [lia|]. split.
  - rewrite map_rev. apply NoDup_rev, descending_ids_nodup, sorted_firstn.
    now apply latest_first_descending.
  - intros i Hi. rewrite map_rev in Hi. now apply in_rev in Hi.
Qed.

Lemma run_windows_invariant (st : State) (evs : list Event) :
  in_order (conversation st) ->
  0 < messages_per_page (ui st) ->
  windows_invariant st ->
  Forall (fun e => writes_between (user_id (ui st)) (rid st) e = false)
         evs ->
  windows_invariant (run st evs)
  /\ conversation (run st evs) = conversation st.
Proof.
  intros Hord Hpage Hinv.
  induction evs as [|e evs IH] using rev_ind; intros Hquiet.
  - now split.
  - apply Forall_app in Hquiet. destruct Hquiet as [Hquiet He].
    inversion He as [|? ? Hq _]; subst.
    destruct (IH Hquiet) as (Hinv' & Hconv).
    destruct (run_fields st evs) as (Hrid & Huid & Hmpp & _).
    rewrite run_snoc.
    destruct (windows_step_quiet (run st evs)) with (e := e)
      as (Hinv'' & Hconv'').
    + now rewrite Hconv.
    + now rewrite Hmpp.
    + exact Hinv'.
    + now rewrite Huid, Hrid.
    + split; [exact Hinv'' | congruence].
Qed.

End WindowsClaims.



(** ** The claims on the sample stores *)

Lemma sample_inbox_well_formed : Spec.well_formed Sample.inbox.
Proof.
  repeat split.
  - repeat constructor.
  - repeat constructor.
  - repeat constructor; eexists; reflexivity.
Qed.



(** C6 at Alice's conversation list: Carol's row reports her two unread
    messages. *)
Lemma chats_num_unread_witness :
  let row := Chat.mkChatRow "carol" "leader" 3 3 "again" 103 2 in
  Chat.num_unread row
  = Spec.unread_count Sample.inbox 1 (Chat.chat_partner_id row).
Proof.
  intros row.
  apply (chats_num_unread Sample.inbox 1 None 0 row).
  left. reflexivity.
Defined.

(** * Further properties *)

(** ** Pages of the pagination helper *)

Lemma ceil_div_last_page (n s : Z) : 0 < s -> (ceil_div n s - 1) * s < n.
Proof.
  intros Hs. unfold ceil_div.
  pose proof (Z.div_mod (- n) s ltac:(lia)) as E.
  pose proof (Z.mod_pos_bound (- n) s Hs) as B.
  nia.
Qed.

Section PageFacts.
Import Pagination Spec.
Context {A : Type}.

Lemma page_items_sizes (data : list A) (k s : Z) :
  data <> [] -> 0 < s ->
  let n := ceil_div (len data) s in
  let p := Z.max 1 (Z.min k n) in
  let items := page_items (get_page_data data k s) in
  items <> []
  /\ len items <= s
  /\ (p < n -> len items = s)
  /\ (p = n -> len items = len data - (n - 1) * s).
Proof.
  intros Hd Hs n p items.
  assert (Hn : 1 <= n).
  { apply ceil_div_pos; [assumption|]. unfold len.
    destruct data; [congruence | simpl; lia]. }
  pose proof (ceil_div_last_page (len data) s Hs) as Hlast. fold n in Hlast.
  pose proof (ceil_div_covers (len data) s Hs) as Hcov. fold n in Hcov.
  assert (Hlen : len items = Z.min s (len data - (p - 1) * s)).
  { unfold items. rewrite get_page_data_window by assumption.
    cbn [page_items]. fold n p. unfold page_slice, len in *.
    rewrite length_firstn, length_skipn. nia. }
  assert (Hp : 1 <= p <= n) by (unfold p; lia).
  split; [|split; [|split]].
  - intros E. rewrite E in Hlen. unfold len in Hlen at 1. simpl in Hlen. nia.
  - lia.
  - intros Hlt. nia.
  - intros ->. nia.
Qed.

(** X1. For a non-empty list and a positive page size, whatever page
    number is requested, [get_page_data] returns a page that is not
    empty and holds at most [page_size] items: exactly [page_size] on
    every page before the last, and the remaining items on the last. *)
Theorem get_page_data_page_sizes (data : list A) (k s : Z) :
  data <> [] -> 0 < s ->
  let n := ceil_div (len data) s in
  let p := Z.max 1 (Z.min k n) in
  let items := page_items (get_page_data data k s) in
  items <> []
  /\ len items <= s
  /\ (p < n -> len items = s)
  /\ (p = n -> len items = len data - (n - 1) * s).
Proof.
  exact (page_items_sizes data k s).
Qed.
End PageFacts.

(** X1 at seven items in pages of three, page 9 requested. *)
Lemma get_page_data_page_sizes_witness :
  len (Pagination.page_items
         (Pagination.get_page_data [1; 2; 3; 4; 5; 6; 7] 9 3)) <= 3.
Proof.
  apply (get_page_data_page_sizes [1; 2; 3; 4; 5; 6; 7] 9 3);
    [discriminate | lia].
Defined.

Lemma command_in_range (command : string) (current_page num_pages : Z) :
  1 <= current_page <= num_pages ->
  let r := Pagination.process_pagination_command command current_page
             num_pages in
  1 <= fst (fst r) <= num_pages
  /\ (snd (fst r) = false -> fst (fst r) = current_page /\ snd r = []).
Proof.
  intros Hin. unfold Pagination.process_pagination_command.
  destruct (_ && (1 <? current_page)) eqn:E1.
  { apply andb_true_iff in E1. cbn. split; [lia | discriminate]. }
  destruct (_ && (current_page <? num_pages)) eqn:E2.
  { apply andb_true_iff in E2. cbn. split; [lia | discriminate]. }
  destruct (String.eqb _ "f"); [cbn; split; [lia | discriminate]|].
  destruct (String.eqb _ "l"); [cbn; split; [lia | discriminate]|].
  destruct (PyStr.startswith _ _); [|cbn; split; [lia | auto]].
  destruct (PyStr.int _) as [val|]; [|cbn; split; [lia | auto]].
  destruct ((1 <=? val) && (val <=? num_pages)) eqn:E3; cbn.
  - apply andb_true_iff in E3. split; [lia | discriminate].
  - split; [lia | discriminate].
Qed.

(** X2. [process_pagination_command] never leaves the range of pages:
    from a page in [[1, num_pages]] every command leads to a page in
    [[1, num_pages]].  When it reports that the input was not a
    pagination command, the page is the one it was given and nothing was
    printed. *)
Theorem process_pagination_command_in_range
    (command : string) (current_page num_pages : Z) :
  1 <= current_page <= num_pages ->
  let r := Pagination.process_pagination_command command current_page
             num_pages in
  1 <= fst (fst r) <= num_pages
  /\ (snd (fst r) = false -> fst (fst r) = current_page /\ snd r = []).
Proof.
  exact (command_in_range command current_page num_pages).
Qed.

(** X2 for the input ["g 7"] on page 2 of 3. *)
Lemma process_pagination_command_in_range_witness :
  1 <= fst (fst (Pagination.process_pagination_command "g 7" 2 3)) <= 3.
Proof.
  apply (process_pagination_command_in_range "g 7" 2 3). lia.
Defined.

Section PagerFacts.
Import Pagination Spec.
Context {A : Type}.

Lemma turn_page_in_range (data : list A) (s p : Z) (option : string) :
  data <> [] -> 0 < s ->
  1 <= p <= ceil_div (len data) s ->
  exists p', Pager.turn_page data s p option = Ok p'
             /\ 1 <= p' <= ceil_div (len data) s.
Proof.
  intros Hd Hs Hp. unfold Pager.turn_page.
  rewrite get_page_data_window by assumption.
  pose proof (command_in_range option p _ Hp) as H.
  cbv zeta in H.
  destruct (process_pagination_command option p _) as [[p' nav] eff].
  cbn [fst snd] in H. destruct H as [H _].
  destruct nav; eexists; split; try reflexivity; lia.
Qed.

Lemma browse_from_in_range (data : list A) (s : Z) (options : list string) :
  data <> [] -> 0 < s ->
  forall p0, 1 <= p0 <= ceil_div (len data) s ->
  exists p,
    Pager.browse data s p0 options = Ok p
    /\ 1 <= p <= ceil_div (len data) s.
Proof.
  intros Hd Hs. induction options as [|o rest IH]; intros p0 H0.
  - now exists p0.
  - destruct (turn_page_in_range data s p0 o Hd Hs H0) as (p' & E & Hp').
    cbn [Pager.browse]. rewrite E. now apply IH.
Qed.

(** X3. The paging loops of the callers never leave the range of pages
    and never show an empty page: over a non-empty list with a positive
    page size, starting from page 1 as they do, after any sequence of
    inputs the current page [p] is in [[1, num_pages]], and
    [get_page_data] answers it without clamping, with the items of page
    [p], of which there is at least one. *)
Theorem browse_stays_in_range (data : list A) (s : Z)
    (options : list string) :
  data <> [] -> 0 < s ->
  exists p,
    Pager.browse data s 1 options = Ok p
    /\ 1 <= p <= ceil_div (len data) s
    /\ get_page_data data p s
       = Ok (page_slice data p s, ceil_div (len data) s)
    /\ page_slice data p s <> [].
Proof.
  intros Hd Hs.
  assert (H1 : 1 <= 1 <= ceil_div (len data) s).
  { split; [lia|]. apply ceil_div_pos; [assumption|]. unfold len.
    destruct data; [congruence | simpl; lia]. }
  destruct (browse_from_in_range data s options Hd Hs 1 H1) as (p & E & Hp).
  exists p. split; [exact E|]. split; [exact Hp|].
  pose proof (page_items_sizes data p s Hd Hs) as Hsz.
  cbv zeta in Hsz. rewrite get_page_data_window in * by assumption.
  replace (Z.max 1 (Z.min p (ceil_div (len data) s))) with p in * by lia.
  split; [reflexivity | apply Hsz].
Qed.
End PagerFacts.

(** X3 at seven items in pages of three, for the inputs [n], [n], [n],
    [g9], [p]. *)
Lemma browse_stays_in_range_witness :
  exists p, Pager.browse [1; 2; 3; 4; 5; 6; 7] 3 1 ["n"; "n"; "n"; "g9"; "p"]
            = Ok p /\ 1 <= p <= 3.
Proof.
  destruct (browse_stays_in_range [1; 2; 3; 4; 5; 6; 7] 3
              ["n"; "n"; "n"; "g9"; "p"]) as (p & E & Hp & _);
    [discriminate | lia |].
  exists p. split; assumption.
Defined.

(** ** The conversation list *)


Section SortMore.
Import Store.
Context {A : Type}.
Variable key : A -> Z.

Lemma insert_desc_sorted (x : A) (l : list A) :
  StronglySorted (fun a b => key b <= key a) l ->
  StronglySorted (fun a b => key b <= key a) (insert_desc key x l).
Proof.
  induction 1 as [|y l Hs IH Hy]; simpl.
  - repeat constructor.
  - destruct (key x <? key y) eqn:E.
    + constructor; [exact IH|].
      apply Forall_forall. intros z Hz. apply insert_desc_in in Hz.
      destruct Hz as [->|Hz]; [lia|].
      rewrite Forall_forall in Hy. now apply Hy.
    + constructor; [now constructor|].
      constructor; [lia|].
      eapply Forall_impl; [|exact Hy]. simpl. intros; lia.
Qed.

Lemma order_by_desc_is_sorted (l : list A) :
  StronglySorted (fun a b => key b <= key a) (order_by_desc key l).
Proof.
  induction l as [|x l IH]; simpl.
  - constructor.
  - now apply insert_desc_sorted.
Qed.

Lemma insert_desc_perm (x : A) (l : list A) :
  Permutation (insert_desc key x l) (x :: l).
Proof.
  induction l as [|y l IH]; simpl; [reflexivity|].
  destruct (key x <? key y); [|reflexivity].
  rewrite IH. apply perm_swap.
Qed.

Lemma order_by_desc_perm (l : list A) : Permutation (order_by_desc key l) l.
Proof.
  induction l as [|x l IH]; simpl; [reflexivity|].
  now rewrite insert_desc_perm, IH.
Qed.

Lemma insert_asc_perm (x : A) (l : list A) :
  Permutation (insert_asc key x l) (x :: l).
Proof.
  induction l as [|y l IH]; simpl; [reflexivity|].
  destruct (key y <? key x); [|reflexivity].
  rewrite IH. apply perm_swap.
Qed.

Lemma order_by_asc_perm (l : list A) : Permutation (order_by_asc key l) l.
Proof.
  induction l as [|x l IH]; simpl; [reflexivity|].
  now rewrite insert_asc_perm, IH.
Qed.
End SortMore.

Section ChatsMore.
Import Store Chat Spec.

(** The row ranked first in a partition is its first row. *)
Lemma row_number_first {A : Type} (l : list A) (x : A) :
  In (x, 1) (row_number l) -> exists rest, l = x :: rest.
Proof.
  unfold row_number. destruct l as [|y l]; [intros []|].
  cbn [List.length seq map combine]. intros [E|H].
  - inversion E; subst. now exists l.
  - apply in_combine_r in H. apply in_map_iff in H.
    destruct H as (k & Hk & Hin). apply in_seq in Hin. lia.
Qed.

Lemma row_number_head {A : Type} (x : A) (l : list A) :
  In (x, 1) (row_number (x :: l)).
Proof. now left. Qed.

(** Where a row of the conversation list comes from. *)
Lemma chats_query_row (db : DB) (uid : Z) (row : ChatRow) :
  In row (chats_query db uid) <->
  exists t rest u n,
    order_by_desc t_timestamp
      (filter (fun t' => t_chat_partner_id t' =? chat_partner_id row)
              (chat_threads db uid)) = t :: rest
    /\ In u (users db) /\ u_id u = chat_partner_id row
    /\ u_is_disabled u = false
    /\ In n (left_join_unread (unread_totals db uid) (chat_partner_id row))
    /\ row = mkChatRow (u_username u) (u_role u) (t_sender_id t)
               (t_chat_partner_id t) (t_message t) (t_timestamp t) n
    /\ t_chat_partner_id t = chat_partner_id row.
Proof.
  unfold chats_query. rewrite order_by_desc_in, in_flat_map. split.
  - intros ([t rank] & Hlt & Hrow).
    destruct (rank =? 1) eqn:E; [|destruct Hrow]. apply Z.eqb_eq in E.
    subst rank. unfold latest_in_thread in Hlt. apply in_flat_map in Hlt.
    destruct Hlt as (p & _ & Hlt). apply row_number_first in Hlt.
    destruct Hlt as (rest & Hsorted).
    assert (Hp : t_chat_partner_id t = p).
    { assert (Hin : In t (order_by_desc t_timestamp
                            (filter (fun t' => t_chat_partner_id t' =? p)
                                    (chat_threads db uid))))
        by (rewrite Hsorted; now left).
      apply order_by_desc_in, filter_In in Hin. now apply Z.eqb_eq. }
    apply in_flat_map in Hrow. destruct Hrow as (u & Hu & Hrow).
    apply filter_In in Hu. destruct Hu as (Hu & Hc).
    apply andb_true_iff in Hc. destruct Hc as (Hid & Hdis).
    apply Z.eqb_eq in Hid. apply negb_true_iff in Hdis.
    apply in_map_iff in Hrow. destruct Hrow as (n & <- & Hn).
    cbn [chat_partner_id]. rewrite Hp.
    exists t, rest, u, n. repeat split; try assumption; congruence.
  - intros (t & rest & u & n & Hsorted & Hu & Hid & Hdis & Hn & -> & Hp).
    cbn [chat_partner_id] in *.
    exists (t, 1). split.
    + unfold latest_in_thread. apply in_flat_map.
      exists (t_chat_partner_id t). split.
      * apply distinct_in, in_map.
        assert (Hin : In t (order_by_desc t_timestamp
                      (filter (fun t' => t_chat_partner_id t'
                                         =? t_chat_partner_id t)
                              (chat_threads db uid))))
          by (rewrite Hsorted; now left).
        now apply order_by_desc_in, filter_In in Hin.
      * rewrite Hsorted. apply row_number_head.
    + cbn [Z.eqb Pos.eqb]. apply in_flat_map. exists u. split.
      * apply filter_In. split; [exact Hu|].
        rewrite Hid, Z.eqb_refl, Hdis. reflexivity.
      * apply in_map_iff. exists n. now split.
Qed.

Lemma chat_threads_in (db : DB) (uid : Z) (t : Thread) :
  In t (chat_threads db uid) <->
  exists m, In m (messages db) /\ involves uid m = true
            /\ t = mkThread (m_sender_id m) (partner_of uid m)
                            (m_message m) (m_created_at m).
Proof.
  unfold chat_threads. rewrite in_map_iff. split.
  - intros (m & <- & Hm). apply filter_In in Hm. exists m. tauto.
  - intros (m & Hm & Hi & ->). exists m. split; [reflexivity|].
    now apply filter_In.
Qed.

(** X4. [chats] lists the conversations most recent first: in every
    result, paginated or not, the timestamps never increase from one row
    to the next. *)
Theorem chats_most_recent_first (db : DB) (uid : Z) (limit : option Z)
    (offset : Z) :
  StronglySorted (fun a b => chat_timestamp b <= chat_timestamp a)
                 (chats db uid limit offset).
Proof.
  assert (H : StronglySorted (fun a b => chat_timestamp b <= chat_timestamp a)
                             (chats_query db uid))
    by apply order_by_desc_is_sorted.
  unfold chats. destruct limit as [n|]; [|exact H].
  destruct (truthy (Some n)); [|exact H].
  now apply sorted_limit_offset.
Qed.

(** X5. Every row of [chats] shows the latest message of its thread:
    its sender, text and timestamp are those of a stored message between
    the user and the row's partner, and no message of that thread has a
    later timestamp. *)
Theorem chats_row_is_latest (db : DB) (uid : Z) (limit : option Z)
    (offset : Z) (row : ChatRow) :
  In row (chats db uid limit offset) ->
  (exists m, In m (messages db) /\ involves uid m = true
             /\ partner_of uid m = chat_partner_id row
             /\ m_sender_id m = chat_sender_id row
             /\ m_message m = chat_message row
             /\ m_created_at m = chat_timestamp row)
  /\ (forall m, In m (messages db) -> involves uid m = true ->
                partner_of uid m = chat_partner_id row ->
                m_created_at m <= chat_timestamp row).
Proof.
  intros Hin. apply chats_in_query, chats_query_row in Hin.
  destruct Hin as (t & rest & u & n & Hsorted & _ & _ & _ & _ & Hrow & Hp).
  pose proof (order_by_desc_is_sorted t_timestamp
                (filter (fun t' => t_chat_partner_id t' =? chat_partner_id row)
                        (chat_threads db uid))) as Hs.
  assert (Hmem : forall t', In t' (t :: rest) <->
                            In t' (chat_threads db uid)
                            /\ t_chat_partner_id t' = chat_partner_id row).
  { intros t'. rewrite <- Hsorted, order_by_desc_in, filter_In.
    now rewrite Z.eqb_eq. }
  rewrite Hsorted in Hs. split.
  - destruct (proj1 (Hmem t) (or_introl eq_refl)) as (Ht & _).
    apply chat_threads_in in Ht. destruct Ht as (m & Hm & Hi & Ht).
    exists m. subst row t. cbn in *. repeat split; assumption.
  - intros m Hm Hi Hpm.
    assert (Ht' : In (mkThread (m_sender_id m) (partner_of uid m)
                               (m_message m) (m_created_at m)) (t :: rest)).
    { apply Hmem. split; [|exact Hpm]. apply chat_threads_in. now exists m. }
    replace (chat_timestamp row) with (t_timestamp t) by now subst row.
    destruct Ht' as [E|Ht']; [rewrite E; cbn; lia|].
    apply (sorted_head _ t rest _ Hs Ht').
Qed.

(** X6. [chats] lists exactly the partners whose account is not
    disabled: every row carries the username and role of a [users] row
    that has the partner's id and is not disabled, and every partner
    with such a row and at least one message to or from the user has a
    row in the unpaginated list. *)
Theorem chats_lists_enabled_partners (db : DB) (uid : Z) :
  (forall limit offset row,
      In row (chats db uid limit offset) ->
      exists u, In u (users db) /\ u_id u = chat_partner_id row
                /\ u_is_disabled u = false
                /\ u_username u = chat_partner_username row
                /\ u_role u = chat_role row)
  /\ (forall m u,
        In m (messages db) -> involves uid m = true ->
        In u (users db) -> u_id u = partner_of uid m ->
        u_is_disabled u = false ->
        exists row, In row (chats db uid None 0)
                    /\ chat_partner_id row = partner_of uid m).
Proof.
  split.
  - intros limit offset row Hin. apply chats_in_query, chats_query_row in Hin.
    destruct Hin as (t & rest & u & n & _ & Hu & Hid & Hdis & _ & Hrow & _).
    exists u. subst row. cbn. repeat split; assumption.
  - intros m u Hm Hi Hu Hid Hdis. cbn [chats].
    set (p := partner_of uid m) in *.
    set (part := filter (fun t' => t_chat_partner_id t' =? p)
                        (chat_threads db uid)).
    assert (Hne : In (mkThread (m_sender_id m) p (m_message m)
                               (m_created_at m))
                     (order_by_desc t_timestamp part)).
    { apply order_by_desc_in, filter_In. split.
      - apply chat_threads_in. now exists m.
      - apply Z.eqb_refl. }
    destruct (order_by_desc t_timestamp part) as [|t rest] eqn:Hsorted;
      [destruct Hne|].
    assert (Hp : t_chat_partner_id t = p).
    { assert (Hin : In t (order_by_desc t_timestamp part))
        by (rewrite Hsorted; now left).
      apply order_by_desc_in, filter_In in Hin. now apply Z.eqb_eq. }
    assert (Hjoin : exists n, In n (left_join_unread (unread_totals db uid) p)).
    { unfold left_join_unread.
      destruct (filter _ (unread_totals db uid)) as [|ut l].
      - exists 0. now left.
      - exists (fst ut). now left. }
    destruct Hjoin as (n & Hn).
    exists (mkChatRow (u_username u) (u_role u) (t_sender_id t)
                      (t_chat_partner_id t) (t_message t) (t_timestamp t) n).
    split; [|exact Hp].
    apply chats_query_row. cbn [chat_partner_id]. rewrite Hp.
    exists t, rest, u, n. repeat split; assumption || congruence.
Qed.

(** X7. The pages of the conversation menu partition the list: for a
    positive page size [n], the results of [chats(limit=n, offset=k*n)]
    for [k = 0 .. ceil(total/n) - 1], concatenated in order, are the
    unpaginated list, and each holds at most [n] rows. *)
Theorem chats_pages_partition (db : DB) (uid n : Z) :
  0 < n ->
  let total_pages := ceil_div (len (chats db uid None 0)) n in
  List.concat (map (fun k => chats db uid (Some n) (Z.of_nat k * n))
                   (seq 0 (Z.to_nat total_pages)))
  = chats db uid None 0
  /\ forall k, len (chats db uid (Some n) (k * n)) <= n.
Proof.
  intros Hn total_pages. cbn [chats] in *.
  assert (Ht : truthy (Some n) = true).
  { unfold truthy. destruct (n =? 0) eqn:E; [lia | reflexivity]. }
  rewrite Ht. unfold limit_offset.
  destruct (n <? 0) eqn:E; [lia|]. split.
  - rewrite (map_ext _ (fun k => firstn (Z.to_nat n)
                          (skipn (k * Z.to_nat n)%nat (chats_query db uid)))).
    + rewrite chunks_concat. apply firstn_all2.
      pose proof (ceil_div_covers (len (chats_query db uid)) n Hn) as Hc.
      fold total_pages in Hc. unfold len in Hc.
      destruct (Z.le_gt_cases total_pages 0); nia.
    + intros k. do 2 f_equal. nia.
  - intros k. unfold len. rewrite length_firstn. lia.
Qed.
End ChatsMore.


(** ** Counting conversations *)

Section CountFacts.
Context {A B : Type}.

Lemma flat_map_flat_map {C : Type} (f : B -> list C) (g : A -> list B)
    (l : list A) :
  flat_map f (flat_map g l) = flat_map (fun x => flat_map f (g x)) l.
Proof.
  induction l as [|x l IH]; simpl; [reflexivity|].
  now rewrite flat_map_app, IH.
Qed.

Lemma flat_map_nothing (f : A -> list B) (l : list A) :
  (forall x, In x l -> f x = []) -> flat_map f l = [].
Proof.
  induction l as [|x l IH]; simpl; intros H; [reflexivity|].
  rewrite (H x) by now left. apply IH. intros y Hy. apply H. now right.
Qed.

Lemma flat_map_length_const (f : A -> list B) (l : list A) (k : nat) :
  (forall x, In x l -> List.length (f x) = k) ->
  List.length (flat_map f l) = (List.length l * k)%nat.
Proof.
  induction l as [|x l IH]; simpl; intros H; [reflexivity|].
  rewrite length_app, (H x) by now left.
  rewrite IH; [lia|]. intros y Hy. apply H. now right.
Qed.

Lemma flat_map_length_filter (f : A -> list B) (keep : A -> bool)
    (l : list A) :
  (forall x, In x l -> List.length (f x) = if keep x then 1%nat else 0%nat) ->
  List.length (flat_map f l) = List.length (filter keep l).
Proof.
  induction l as [|x l IH]; simpl; intros H; [reflexivity|].
  rewrite length_app, (H x) by now left.
  rewrite IH by (intros y Hy; apply H; now right).
  now destruct (keep x).
Qed.

Lemma filter_length_perm (f : A -> bool) (l l' : list A) :
  Permutation l l' -> List.length (filter f l) = List.length (filter f l').
Proof.
  induction 1 as [|x l l' _ IH|x y l|l l' l'' _ IH1 _ IH2]; simpl.
  - reflexivity.
  - destruct (f x); simpl; congruence.
  - destruct (f x), (f y); reflexivity.
  - congruence.
Qed.

Lemma filter_map_swap (f : A -> B) (keep : B -> bool) (l : list A) :
  filter keep (map f l) = map f (filter (fun x => keep (f x)) l).
Proof.
  induction l as [|x l IH]; simpl; [reflexivity|].
  destruct (keep (f x)); simpl; now rewrite IH.
Qed.
End CountFacts.

Lemma nodup_filter (keep : Z -> bool) (l : list Z) :
  nodup Z.eq_dec (filter keep l) = filter keep (nodup Z.eq_dec l).
Proof.
  induction l as [|x l IH]; [reflexivity|]. cbn [filter nodup].
  destruct (keep x) eqn:E.
  - cbn [nodup]. destruct (in_dec Z.eq_dec x (filter keep l)) as [Hi|Hn],
      (in_dec Z.eq_dec x l) as [Hi'|Hn']; cbn [filter]; rewrite ?E, ?IH;
      try reflexivity.
    + apply filter_In in Hi. tauto.
    + exfalso. apply Hn. now apply filter_In.
  - destruct (in_dec Z.eq_dec x l); cbn [filter]; rewrite ?E; exact IH.
Qed.

(** At most one row of a list without duplicates has a given key. *)
Lemma filter_key_nodup {A : Type} (key : A -> Z) (p : Z) (l : list A) :
  NoDup (map key l) ->
  (List.length (filter (fun x => (key x =? p)%Z) l) <= 1)%nat.
Proof.
  induction l as [|x l IH]; simpl; intros H; [lia|].
  inversion H as [|? ? Hx Hl]; subst. specialize (IH Hl).
  destruct (key x =? p) eqn:E; [|exact IH].
  apply Z.eqb_eq in E. rewrite filter_none; [simpl; lia|].
  intros y Hy. apply Z.eqb_neq. intros E'. apply Hx.
  apply in_map_iff. exists y. split; [congruence | exact Hy].
Qed.

Section TotalChats.
Import Store Chat Spec.
Variables (db : DB) (uid : Z).
Hypothesis Hpk : NoDup (map u_id (users db)).

Lemma distinct_nodup (l : list Z) : NoDup (distinct l).
Proof.
  unfold distinct.
  eapply Permutation_NoDup;
    [symmetry; apply order_by_asc_perm | apply NoDup_nodup].
Qed.

Lemma enabled_rows_count (p : Z) :
  List.length (filter (fun u => (p =? u_id u) && negb (u_is_disabled u))
                      (users db))
  = if nondisabled_id db p then 1%nat else 0%nat.
Proof.
  unfold nondisabled_id. revert Hpk.
  induction (users db) as [|u us IH]; intros H; [reflexivity|].
  cbn [map] in H. inversion H as [|? ? Hu Hus]; subst.
  specialize (IH Hus). cbn [filter existsb].
  rewrite (Z.eqb_sym (u_id u) p).
  destruct (p =? u_id u) eqn:E; cbn [andb].
  - apply Z.eqb_eq in E.
    assert (Hnone : forall v, In v us -> (p =? u_id v) = false).
    { intros v Hv. apply Z.eqb_neq. intros E'. apply Hu.
      apply in_map_iff. exists v. split; [congruence | exact Hv]. }
    assert (Hf : filter (fun v => (p =? u_id v) && negb (u_is_disabled v)) us
                 = []).
    { apply filter_none. intros v Hv. now rewrite (Hnone v Hv). }
    assert (He : existsb (fun v => (u_id v =? p) && negb (u_is_disabled v)) us
                 = false).
    { destruct (existsb _ us) eqn:Ee; [|reflexivity].
      apply existsb_exists in Ee. destruct Ee as (v & Hv & Hc).
      apply andb_true_iff in Hc. destruct Hc as (Hc & _).
      rewrite Z.eqb_sym, (Hnone v Hv) in Hc. discriminate. }
    rewrite He, orb_false_r.
    destruct (negb (u_is_disabled u)); cbn [List.length]; now rewrite Hf.
  - exact IH.
Qed.

Lemma left_join_unread_one (p : Z) :
  List.length (left_join_unread (unread_totals db uid) p) = 1%nat.
Proof.
  unfold left_join_unread.
  assert (H : (List.length (filter (fun ut : Z * Z => (snd ut =? p)%Z)
                                   (unread_totals db uid)) <= 1)%nat).
  { apply (filter_key_nodup (fun ut : Z * Z => snd ut)).
    unfold unread_totals. rewrite map_map. cbn [snd]. rewrite map_id.
    apply distinct_nodup. }
  destruct (filter _ (unread_totals db uid)) as [|ut [|ut' l]];
    cbn in *; [reflexivity | reflexivity | lia].
Qed.

(** What the final [SELECT] yields for one partner: one row when the
    partner's account exists and is enabled, none otherwise. *)
Lemma partner_rows_count (p : Z) :
  In p (distinct (map t_chat_partner_id (chat_threads db uid))) ->
  List.length
    (flat_map
       (fun lt : Thread * Z =>
          let (t, msg_rank) := lt in
          if msg_rank =? 1 then
            flat_map
              (fun u : User =>
                 map (fun n => mkChatRow (u_username u) (u_role u)
                                 (t_sender_id t) (t_chat_partner_id t)
                                 (t_message t) (t_timestamp t) n)
                     (left_join_unread (unread_totals db uid)
                                       (t_chat_partner_id t)))
              (filter (fun u => (t_chat_partner_id t =? u_id u)
                                && negb (u_is_disabled u)) (users db))
          else [])
       (row_number
          (order_by_desc t_timestamp
             (filter (fun t => t_chat_partner_id t =? p)
                     (chat_threads db uid)))))
  = if nondisabled_id db p then 1%nat else 0%nat.
Proof.
  intros Hp. apply distinct_in, in_map_iff in Hp.
  destruct Hp as (t0 & Hp0 & Ht0).
  set (part := filter (fun t => t_chat_partner_id t =? p)
                      (chat_threads db uid)).
  assert (Hin0 : In t0 (order_by_desc t_timestamp part)).
  { apply order_by_desc_in, filter_In. split; [exact Ht0|].
    now apply Z.eqb_eq. }
  destruct (order_by_desc t_timestamp part) as [|t rest] eqn:Hsorted;
    [destruct Hin0|].
  assert (Hpt : t_chat_partner_id t = p).
  { assert (Hin : In t (order_by_desc t_timestamp part))
      by (rewrite Hsorted; now left).
    apply order_by_desc_in, filter_In in Hin. now apply Z.eqb_eq. }
  unfold row_number. cbn [List.length seq map combine flat_map].
  cbn [Z.of_nat Pos.of_succ_nat Z.eqb Pos.eqb].
  rewrite length_app,
    (flat_map_nothing _ (combine rest (map Z.of_nat
                                           (seq 2 (List.length rest))))).
  - rewrite Nat.add_0_r, Hpt.
    rewrite (flat_map_length_const _ _ 1%nat).
    + rewrite Nat.mul_1_r. apply enabled_rows_count.
    + intros u _. rewrite length_map. apply left_join_unread_one.
  - intros [t' k] Hk. apply in_combine_r in Hk. apply in_map_iff in Hk.
    destruct Hk as (j & <- & Hj). apply in_seq in Hj.
    destruct (Z.of_nat j =? 1) eqn:E; [|reflexivity].
    apply Z.eqb_eq in E. lia.
Qed.

Lemma total_chats_length :
  total_chats db uid = len (chats db uid None 0).
Proof.
  cbn [chats]. unfold chats_query, len.
  rewrite (Permutation_length (order_by_desc_perm _ _)).
  unfold latest_in_thread. rewrite flat_map_flat_map.
  rewrite (flat_map_length_filter _ (nondisabled_id db))
    by (intros p Hp; now apply partner_rows_count).
  unfold total_chats, len. f_equal.
  unfold chat_threads. rewrite map_map. cbn [t_chat_partner_id].
  unfold distinct.
  rewrite (Permutation_length (order_by_asc_perm _ _)).
  rewrite (filter_length_perm _ _ _ (order_by_asc_perm _ _)).
  rewrite <- nodup_filter. f_equal. f_equal.
  rewrite filter_map_swap. f_equal.
  rewrite filter_filter. reflexivity.
Qed.

(** X8. When [users.id] is a key, the number [total_chats] reports is
    the number of rows the unpaginated conversation list has, so the
    page count the menu derives from it is the page count of that
    list. *)
Theorem total_chats_counts_chats :
  total_chats db uid = len (chats db uid None 0).
Proof.
  exact total_chats_length.
Qed.
End TotalChats.

(** ** Writing to the store *)

Section StoreFacts.
Import Store Chat Interface Spec Terms.

Lemma next_id_above (db : DB) :
  Forall (fun m => m_id m < next_id db) (messages db).
Proof.
  unfold next_id. induction (messages db) as [|m l IH]; constructor.
  - cbn [map fold_right]. lia.
  - eapply Forall_impl; [|exact IH]. cbn [map fold_right]. intros; lia.
Qed.

Lemma next_id_positive (db : DB) : 0 < next_id db.
Proof.
  unfold next_id. induction (messages db) as [|m l IH];
    cbn [map fold_right]; lia.
Qed.


Lemma unread_count_insert (db : DB) (sender recipient : Z) (text : string)
    (now u q : Z) :
  unread_count (insert_message db sender recipient text now) u q
  = unread_count db u q
    + (if (recipient =? u) && (sender =? q) then 1 else 0).
Proof.
  unfold unread_count, insert_message, len. cbn [messages].
  rewrite filter_app, length_app. cbn.
  destruct ((recipient =? u) && (sender =? q)); cbn; lia.
Qed.

(** X9. [send_message] appends one unread row whose id is above every
    id in the table and touches no other row: the recipient's unread
    count for the sender goes up by one, every other unread count is
    what it was, and the two of them have one more message with each
    other. *)
Theorem send_message_counts (db : DB) (U : Z) (text : string) (R now : Z) :
  let db' := send_message db U text R now in
  messages db' = messages db ++ [mkMessage (next_id db) U R text now false]
  /\ Forall (fun m => m_id m < next_id db) (messages db)
  /\ unread_count db' R U = unread_count db R U + 1
  /\ (forall u q, (u, q) <> (R, U) ->
                  unread_count db' u q = unread_count db u q)
  /\ total_messages_with db' U R = total_messages_with db U R + 1
  /\ total_messages_with db' R U = total_messages_with db R U + 1.
Proof.
  intros db'. unfold db', send_message.
  split; [reflexivity|]. split; [apply next_id_above|].
  split; [|split; [|split]].
  - rewrite unread_count_insert, !Z.eqb_refl. reflexivity.
  - intros u q Hne. rewrite unread_count_insert.
    destruct (R =? u) eqn:E1, (U =? q) eqn:E2; cbn; try lia.
    apply Z.eqb_eq in E1, E2. congruence.
  - unfold total_messages_with, insert_message, len. cbn [messages].
    rewrite filter_app, length_app. cbn [filter].
    rewrite between_self. cbn. lia.
  - unfold total_messages_with, insert_message, len. cbn [messages].
    rewrite filter_app, length_app. cbn [filter].
    unfold between at 2. cbn. rewrite !Z.eqb_refl, orb_true_r. cbn. lia.
Qed.

Lemma well_formed_update (c : Message -> bool) (db : DB) :
  well_formed db -> well_formed (update_is_read c db).
Proof.
  intros (Hs & Hp & Hk). unfold well_formed, update_is_read.
  cbn [messages users]. repeat split.
  - apply sorted_map. eapply sorted_weaken; [|exact Hs].
    intros a b. now destruct (c a), (c b).
  - apply Forall_map. eapply Forall_impl; [|exact Hp].
    intros m. now destruct (c m).
  - apply Forall_map. eapply Forall_impl; [|exact Hk].
    intros m. unfold has_sender. cbn [users]. now destruct (c m).
Qed.

Lemma well_formed_insert (db : DB) (sender recipient : Z) (text : string)
    (now : Z) :
  well_formed db -> known db sender ->
  well_formed (insert_message db sender recipient text now).
Proof.
  intros (Hs & Hp & Hk) Hsender. unfold well_formed, insert_message.
  cbn [messages users]. repeat split.
  - apply sorted_snoc; [exact Hs | apply next_id_above].
  - apply Forall_app. split; [exact Hp|].
    constructor; [apply next_id_positive | constructor].
  - apply Forall_app. split; [exact Hk|].
    constructor; [exact Hsender | constructor].
Qed.
End StoreFacts.

Section IntegrityFacts.
Import Store Chat Interface Spec Session Terms.

Lemma outcome_users (st : State) (e : Event) (d : DB)
    (s : MessagingInterface) (out : list Printed) :
  Outcome st e d s out -> users d = users (db st).
Proof. induction 1; auto. Qed.

Lemma known_users (d1 d2 : DB) (id : Z) :
  users d1 = users d2 -> known d1 id -> known d2 id.
Proof. unfold known. now intros ->. Qed.

(** A line typed in the chat leaves the store alone or sends one
    message from the user to the partner. *)
Lemma chat_input_store (d : DB) (s : MessagingInterface) (r : Z)
    (name raw : string) (now : Z) :
  fst (fst (chat_input d s r name raw now)) = d
  \/ fst (fst (chat_input d s r name raw now))
     = send_message d (user_id s) (PyStr.strip raw) r now.
Proof.
  unfold chat_input.
  destruct (_ && _); [|now left].
  destruct (one_of _ _); [now left|].
  destruct (one_of _ _); [now left|].
  destruct (one_of _ _).
  { destruct (get_older_messages_from d s r). now left. }
  destruct (one_of _ _); [now left|].
  destruct (PyStr.strip raw); [now left | now right].
Qed.

Lemma step_well_formed (st : State) (e : Event) :
  well_formed (db st) ->
  known (db st) (user_id (ui st)) ->
  peer_known (db st) e ->
  well_formed (db (step st e)).
Proof.
  intros Hwf Hme Hpeer. destruct (react st e) as [[d s] out] eqn:E.
  rewrite (step_eq _ _ _ _ _ E). cbn [db].
  destruct e as [|raw now| |sender recipient text now]; cbn [react] in E.
  - unfold poll in E. destruct (_ && _).
    + rewrite poll_rows in E. inversion E; subst.
      now apply well_formed_update.
    + now inversion E; subst.
  - destruct (chat_input_store (db st) (ui st) (rid st) (rname st) raw now)
      as [H|H]; rewrite E in H; cbn [fst] in H; subst d; [exact Hwf|].
    now apply well_formed_insert.
  - now inversion E; subst.
  - inversion E; subst. now apply well_formed_insert.
Qed.

(** X10. An open chat keeps the integrity of the store: when the store
    is well formed at the moment the chat is opened, the user is a known
    user and every write from another session comes from a known user,
    the store is well formed after every sequence of events: ids stay
    positive and ascending, and every sender stays known. *)
Theorem session_keeps_integrity (d : DB) (s : MessagingInterface) (P : Z)
    (name : string) (evs : list Event) :
  well_formed d ->
  known d (user_id s) ->
  Forall (peer_known d) evs ->
  well_formed (db (run (start d s P name) evs)).
Proof.
  intros Hwf Hme Hpeers.
  destruct (start_state d s P name) as (Hdb & Hui & _).
  assert (H : well_formed (db (run (start d s P name) evs))
              /\ users (db (run (start d s P name) evs)) = users d).
  { induction evs as [|e evs IH] using rev_ind.
    - cbn [run fold_left]. rewrite Hdb.
      split; [now apply well_formed_update | reflexivity].
    - apply Forall_app in Hpeers. destruct Hpeers as [Hpeers He].
      inversion He as [|? ? Hpe _]; subst.
      destruct (IH Hpeers) as (IHwf & IHusers).
      destruct (run_fields (start d s P name) evs) as (_ & Huid & _).
      rewrite run_snoc. split.
      + apply step_well_formed; [exact IHwf | |].
        * rewrite Huid, Hui. cbn. now apply (known_users d).
        * destruct e; cbn in *; try exact I. now apply (known_users d).
      + destruct (react (run (start d s P name) evs) e) as [[d' s'] out]
          eqn:E.
        rewrite (step_eq _ _ _ _ _ E). cbn [db].
        rewrite (outcome_users _ _ _ _ _ (react_outcome _ _ _ _ _ E)).
        exact IHusers. }
  apply H.
Qed.
End IntegrityFacts.

(** ** More on the poller *)

Section PollAgain.
Import Store Chat Interface Spec.



End PollAgain.

Section Receipts.
Import Store Chat Interface Spec Session Terms.



Lemma set_read_fields (c : Message -> bool) (m : Message) :
  let m' := if c m then set_read m else m in
  m_id m' = m_id m /\ m_sender_id m' = m_sender_id m
  /\ m_recipient_id m' = m_recipient_id m
  /\ (m_is_read m' = false -> m' = m).
Proof. destruct (c m); cbn; repeat split; congruence. Qed.








End Receipts.


(** ** The message loop *)

Section ClosedChat.
Import Store Chat Interface Spec Session Terms.

Lemma step_closed (st : State) (e : Event) :
  chatting (ui st) = false ->
  ui (step st e) = ui st
  /\ console (step st e) = console st
  /\ (match e with Peer _ _ _ _ => False | _ => True end ->
      db (step st e) = db st).
Proof.
  intros Hc. unfold step.
  destruct e as [|raw now| |sender recipient text now]; cbn [react].
  - unfold poll. rewrite Hc, andb_false_r. cbn [ui console db].
    now rewrite app_nil_r.
  - unfold chat_input. rewrite Hc, andb_false_r. cbn [ui console db].
    now rewrite app_nil_r.
  - unfold chat_interrupt. rewrite Hc, andb_false_r. cbn [ui console db].
    now rewrite app_nil_r.
  - cbn [ui console db]. rewrite app_nil_r. repeat split. intros [].
Qed.

(** X13. A closed chat is inert: once [chatting] is false, no event
    changes the interface or prints anything (the poller's loop test and
    the message loop's both fail), and only a write from another session
    changes the store. *)
Theorem closed_chat_is_inert (st : State) (evs : list Event) :
  chatting (ui st) = false ->
  ui (run st evs) = ui st
  /\ console (run st evs) = console st
  /\ (Forall (fun e => match e with Peer _ _ _ _ => False | _ => True end)
             evs ->
      db (run st evs) = db st).
Proof.
  intros Hc. induction evs as [|e evs IH] using rev_ind.
  - repeat split.
  - destruct IH as (Hui & Hcon & Hdb). rewrite run_snoc.
    destruct (step_closed (run st evs) e) as (Hui' & Hcon' & Hdb');
      [now rewrite Hui|].
    repeat split; try congruence.
    intros Hall. apply Forall_app in Hall. destruct Hall as [Hall He].
    inversion He; subst. rewrite Hdb' by assumption. now apply Hdb.
Qed.

Lemma strip_all_space (s : string) : all_space s = true -> PyStr.strip s = "".
Proof.
  intros H. unfold PyStr.strip.
  replace (PyStr.lstrip s) with ""; [reflexivity|].
  induction s as [|c s IH]; [reflexivity|].
  cbn [all_space] in H. apply andb_true_iff in H. destruct H as [Hc Hs].
  cbn [PyStr.lstrip]. rewrite Hc. now apply IH.
Qed.

(** X14. A line that is empty or made of white space only is not sent:
    the message loop leaves the store and the interface as they are,
    and all it prints is the wipe of the typed line from the terminal,
    as for every line it reads. *)
Theorem blank_line_is_not_sent (d : DB) (s : MessagingInterface) (r : Z)
    (name raw : string) (now : Z) :
  all_space raw = true ->
  chat_input d s r name raw now
  = (d, s, if is_executing s && chatting s then [ClearTerminalLines raw]
           else []).
Proof.
  intros H. unfold chat_input. rewrite (strip_all_space raw H).
  now destruct (is_executing s && chatting s).
Qed.
End ClosedChat.

(** X13 at Alice's chat with Bob, after she has left it with [/b]. *)
Lemma closed_chat_is_inert_witness :
  let closed := Session.run (Session.start Sample.inbox Sample.alice 2 "bob")
                  [Session.Line "/b" 104] in
  Session.console
    (Session.run closed [Session.Poll; Session.Line "hello?" 105;
                         Session.Line "/more" 106])
  = Session.console closed.
Proof.
  intros closed.
  apply (closed_chat_is_inert closed). reflexivity.
Defined.

(** X14 for a line of two spaces and a tab. *)
Lemma blank_line_is_not_sent_witness :
  Interface.chat_input Sample.inbox Sample.alice_with_bob 2 "bob"
    (String " " (String " " (String (ascii_of_nat 9) EmptyString))) 104
  = (Sample.inbox, Sample.alice_with_bob,
     [Interface.ClearTerminalLines
        (String " " (String " " (String (ascii_of_nat 9) EmptyString)))]).
Proof.
  exact (blank_line_is_not_sent Sample.inbox Sample.alice_with_bob 2 "bob"
           (String " " (String " " (String (ascii_of_nat 9) EmptyString)))
           104 eq_refl).
Defined.

Section WindowShape.
Import Store Chat Interface Spec Session Terms.

(** X15. On a conversation in order, a window of [messages_with] is a
    contiguous slice of the conversation, counted from its end and
    printed oldest first: with [L] messages in the conversation, limit
    [n] and offset [k], it is the messages at positions
    [L - k - n .. L - k - 1].  In particular the window of an opened
    chat is the last [messages_per_page] messages. *)
Theorem messages_with_slice (db : DB) (a b n k : Z) :
  in_order (conv_rows db a b) ->
  0 <= n ->
  let C := conv_rows db a b in
  let L := List.length C in
  messages_with db a b n k
  = skipn (L - Z.to_nat k - Z.to_nat n) (firstn (L - Z.to_nat k) C)
  /\ (k = 0 -> messages_with db a b n k = skipn (L - Z.to_nat n) C).
Proof.
  intros Hord Hn C L.
  assert (E : messages_with db a b n k
              = skipn (L - Z.to_nat k - Z.to_nat n)
                      (firstn (L - Z.to_nat k) C)).
  { rewrite messages_with_window by assumption.
    rewrite latest_first_rev by assumption. fold C.
    rewrite skipn_rev, firstn_rev, rev_involutive.
    rewrite length_firstn. fold L. f_equal. lia. }
  split; [exact E|].
  intros ->. rewrite E. cbn [Z.to_nat]. rewrite !Nat.sub_0_r.
  unfold L. now rewrite firstn_all.
Qed.
End WindowShape.

(** X15 at Alice's history with Bob: the window of three messages after
    the latest four is messages 5, 6 and 7. *)
Lemma messages_with_slice_witness :
  map Chat.row_id (Chat.messages_with Sample.history 1 2 3 4) = [5; 6; 7].
Proof.
  rewrite (proj1 (messages_with_slice Sample.history 1 2 3 4
                    (conv_in_order Sample.history 1 2
                       sample_history_well_formed
                       sample_history_chronological)
                    ltac:(lia))).
  reflexivity.
Defined.

(** ** What the windows cover *)

Section WindowsCover.
Import Store Chat Interface Spec Session Terms.

Lemma total_update (c : Message -> bool) (db : DB) (a b : Z) :
  total_messages_with (update_is_read c db) a b = total_messages_with db a b.
Proof.
  unfold total_messages_with, update_is_read, len. cbn [messages]. f_equal.
  induction (messages db) as [|m l IH]; [reflexivity|].
  cbn [map filter]. rewrite between_set_read.
  destruct (between a b m); cbn [List.length]; now rewrite IH.
Qed.

(** Without a write between the two, they have as many messages with
    each other as before. *)
Lemma outcome_total_same (st : State) (e : Event) (d : DB)
    (s : MessagingInterface) (out : list Printed) :
  Outcome st e d s out ->
  writes_between (user_id (ui st)) (rid st) e = false ->
  total_messages_with d (user_id (ui st)) (rid st)
  = total_messages_with (db st) (user_id (ui st)) (rid st).
Proof.
  intros Hout.
  induction Hout as [| | | | | | |sender recipient text now Hw|];
    try reflexivity; try assumption.
  - intros _. apply total_update.
  - intros Hq. rewrite Hq in Hw.
    unfold total_messages_with, insert_message, len. cbn [messages].
    rewrite filter_app. cbn [filter]. rewrite <- Hw. now rewrite app_nil_r.
Qed.

Lemma chat_input_clear (d : DB) (s : MessagingInterface) (r : Z)
    (name : string) (now : Z) :
  is_executing s && chatting s = true ->
  chat_input d s r name "/clear" now
  = (d, s, ClearTerminalLines "/clear"
           :: [ClearScreen; ChatHeader name]
           ++ map (ShowMessage Redrawn)
                  (messages_with d (user_id s) r
                     (messages_per_page s + history_offset s) 0)).
Proof. unfold chat_input. now intros ->. Qed.

Lemma chat_input_more (d : DB) (s : MessagingInterface) (r : Z)
    (name : string) (now : Z) :
  is_executing s && chatting s = true ->
  chat_input d s r name "/more" now
  = (d, fst (get_older_messages_from d s r),
     ClearTerminalLines "/more" :: snd (get_older_messages_from d s r)).
Proof.
  unfold chat_input. intros ->.
  change (one_of (PyStr.lower (PyStr.strip "/more")) ["/m"; "/more"])
    with true.
  cbv iota. now destruct (get_older_messages_from d s r).
Qed.

Lemma step_windows_complete (st : State) (e : Event) :
  in_order (conversation st) ->
  0 < messages_per_page (ui st) ->
  windows_invariant st ->
  windows_complete st ->
  writes_between (user_id (ui st)) (rid st) e = false ->
  windows_complete (step st e)
  /\ total_messages_with (db (step st e)) (user_id (ui st)) (rid st)
     = total_messages_with (db st) (user_id (ui st)) (rid st).
Proof.
  intros Hord Hpage Hinv Hall Hquiet.
  destruct (windows_step_quiet st Hord Hpage Hinv e Hquiet) as (_ & Hconv).
  destruct (react st e) as [[d s] out] eqn:E.
  rewrite (step_eq _ _ _ _ _ E) in *.
  pose proof (react_outcome _ _ _ _ _ E) as Hout.
  destruct (outcome_fields st e d s out Hout) as (Huid & Hmpp & _).
  split; [|cbn [db]; now apply (outcome_total_same st e d s out)].
  unfold windows_complete, latest_first. rewrite Hconv.
  fold (latest_first st). cbn [ui console]. rewrite Hmpp.
  unfold windows_complete in Hall.
  intros i Hi. rewrite shown_app. apply in_or_app.
  clear E Hconv Huid Hmpp. revert i Hi.
  induction Hout as [| | |_ _ rows|limit| |tail off msgs _ Htail| |? ? ? ? _ IH];
    intros i Hi;
    cbn [history_offset leave_chat set_last_msg set_history_offset] in Hi;
    try (left; now apply Hall); try exact (IH i Hi).
  subst msgs off.
  rewrite (loaded_then_older st Hpage Hinv), map_app in Hi.
  apply in_app_or in Hi. destruct Hi as [Hi|Hi]; [left; now apply Hall|].
  right. rewrite !shown_app, shown_messages, (not_shown_at_all _ _ Htail).
  cbn [shown flat_map is_window app]. rewrite app_nil_r.
  rewrite messages_with_window by lia.
  fold (conversation st) (latest_first st).
  rewrite map_rev. now apply in_rev in Hi.
Qed.

Lemma start_windows_complete (d : DB) (s : MessagingInterface) (P : Z)
    (name : string) :
  0 < messages_per_page s ->
  windows_complete (start d s P name).
Proof.
  intros Hpage.
  destruct (start_state d s P name) as (Hdb & Hui & Hrid & Hshown).
  unfold windows_complete, latest_first, conversation.
  rewrite Hshown, Hdb, Hui, Hrid.
  cbn [is_window history_offset messages_per_page user_id set_last_msg
       enter_chat].
  rewrite messages_with_window by lia. cbn [Z.to_nat skipn].
  intros i Hi. rewrite Z.add_0_l in Hi. rewrite map_rev, <- in_rev.
  exact Hi.
Qed.

Lemma run_windows_complete (st : State) (evs : list Event) :
  in_order (conversation st) ->
  0 < messages_per_page (ui st) ->
  windows_invariant st ->
  windows_complete st ->
  Forall (fun e => writes_between (user_id (ui st)) (rid st) e = false) evs ->
  windows_complete (run st evs)
  /\ total_messages_with (db (run st evs)) (user_id (ui st)) (rid st)
     = total_messages_with (db st) (user_id (ui st)) (rid st).
Proof.
  intros Hord Hpage Hinv Hall.
  induction evs as [|e evs IH] using rev_ind; intros Hquiet.
  - now split.
  - apply Forall_app in Hquiet. destruct Hquiet as [Hquiet He].
    inversion He as [|? ? Hq _]; subst.
    destruct (IH Hquiet) as (Hall' & Htotal).
    destruct (run_windows_invariant st evs Hord Hpage Hinv Hquiet)
      as (Hinv' & Hconv).
    destruct (run_fields st evs) as (Hrid & Huid & Hmpp & _).
    rewrite run_snoc.
    destruct (step_windows_complete (run st evs) e) as (Hall'' & Htotal');
      try assumption.
    + now rewrite Hconv.
    + now rewrite Hmpp.
    + now rewrite Huid, Hrid.
    + split; [exact Hall''|]. rewrite Huid, Hrid in Htotal'. congruence.
Qed.

Variables (d : DB) (s : MessagingInterface) (P : Z) (name : string).
Variable evs : list Event.
Hypothesis Hwf : well_formed d.
Hypothesis Hchr : chronological d (user_id s) P.
Hypothesis Hpage : 0 < messages_per_page s.
Hypothesis Hexec : is_executing s = true.
Hypothesis Hquiet :
  Forall (fun e => writes_between (user_id s) P e = false) evs.

Let st : State := run (start d s P name) evs.

(** The state a quiet session reaches. *)
Lemma quiet_session :
  windows_invariant st /\ windows_complete st
  /\ in_order (conversation st)
  /\ conversation st = conv_rows d (user_id s) P
  /\ total_messages_with (db st) (user_id s) P
     = Z.of_nat (List.length (conv_rows d (user_id s) P))
  /\ user_id (ui st) = user_id s /\ rid st = P
  /\ messages_per_page (ui st) = messages_per_page s
  /\ is_executing (ui st) = true.
Proof.
  destruct (start_windows_invariant d s P name Hwf Hchr Hpage)
    as (Hinv0 & Hord0).
  destruct (start_state d s P name) as (Hdb & Hui & Hrid & _).
  assert (Huid : user_id (ui (start d s P name)) = user_id s)
    by now rewrite Hui.
  assert (Hmpp : messages_per_page (ui (start d s P name))
                 = messages_per_page s) by now rewrite Hui.
  assert (Hpage0 : 0 < messages_per_page (ui (start d s P name)))
    by now rewrite Hmpp.
  assert (Hquiet0 :
    Forall (fun e => writes_between (user_id (ui (start d s P name)))
                                    (rid (start d s P name)) e = false) evs)
    by now rewrite Huid, Hrid.
  destruct (run_windows_invariant _ evs Hord0 Hpage0 Hinv0 Hquiet0)
    as (Hinv & Hconv).
  destruct (run_windows_complete _ evs Hord0 Hpage0 Hinv0
              (start_windows_complete d s P name Hpage) Hquiet0)
    as (Hall & Htotal).
  destruct (run_fields (start d s P name) evs) as (Hrid' & Huid' & Hmpp' & He).
  fold st in Hinv, Hconv, Hall, Htotal, Hrid', Huid', Hmpp', He.
  assert (Hconv0 : conversation (start d s P name)
                   = conv_rows d (user_id s) P).
  { unfold conversation. rewrite Hdb, Hui, Hrid. cbn [user_id set_last_msg
      enter_chat]. apply conv_rows_update. }
  split; [exact Hinv|]. split; [exact Hall|].
  split; [now rewrite Hconv|]. split; [congruence|].
  split; [|split; [congruence|]; split; [congruence|]; split;
           [congruence|]; rewrite He, Hui; exact Hexec].
  rewrite Huid, Hrid in Htotal. rewrite Htotal, Hdb, total_update.
  unfold total_messages_with, len. f_equal. symmetry.
  apply (Forall2_length (join_sender_rows d _
                           (well_formed_senders d _ Hwf))).
Qed.

(** X16. In a chat where nothing is written to the conversation,
    [/clear] prints again exactly the messages loaded so far, oldest
    first: the ids it prints are those of the initial window and of the
    windows loaded by [/more], in ascending order. *)
Theorem clear_reprints_loaded :
  chatting (ui st) = true ->
  forall now,
    let out := snd (react st (Line "/clear" now)) in
    (forall i, In i (shown is_redrawn out)
               <-> In i (shown is_window (console st)))
    /\ StronglySorted Z.lt (shown is_redrawn out).
Proof.
  intros Hchat now out.
  destruct quiet_session
    as (Hinv & Hall & Hord & _ & _ & _ & _ & Hmpp & He).
  assert (Hout : shown is_redrawn out
                 = map row_id
                     (messages_with (db st) (user_id (ui st)) (rid st)
                        (messages_per_page (ui st) + history_offset (ui st))
                        0)).
  { unfold out. cbn [react].
    rewrite chat_input_clear by now rewrite He, Hchat.
    cbn [snd]. rewrite shown_wiped, shown_app, shown_messages.
    reflexivity. }
  rewrite Hout. destruct Hinv as (Hpos & _ & Hin). split.
  - intros i. rewrite messages_with_window by lia.
    fold (conversation st) (latest_first st).
    cbn [Z.to_nat skipn]. rewrite map_rev, <- in_rev.
    rewrite (Z.add_comm (messages_per_page (ui st))).
    split; [apply Hall | apply Hin].
  - apply sorted_map. now apply window_ascending.
Qed.

(** X17. In a chat where nothing is written to the conversation,
    [/more] answers "No older messages" only when everything is on the
    screen: every message of the conversation has then been printed by
    the initial window or by an earlier [/more]. *)
Theorem no_older_means_all_loaded :
  forall now,
    In NoOlderMessages (snd (react st (Line "/more" now))) ->
    forall r, In r (conversation st) ->
              In (row_id r) (shown is_window (console st)).
Proof.
  intros now Hout r Hr.
  destruct quiet_session
    as (Hinv & Hall & Hord & Hconv & Htotal & Huid & Hrid & Hmpp & He).
  assert (Hfew : total_messages_with (db st) (user_id (ui st)) (rid st)
                 <= history_offset (ui st) + messages_per_page (ui st)).
  { cbn [react] in Hout.
    destruct (chatting (ui st)) eqn:Hchat.
    - rewrite chat_input_more in Hout by now rewrite He, Hchat.
      cbn [snd In] in Hout.
      destruct Hout as [Hout | Hout]; [discriminate Hout|].
      unfold get_older_messages_from in Hout.
      destruct (_ <=? _) eqn:E; [now apply Z.leb_le|]. exfalso.
      cbv zeta in Hout.
      destruct (messages_with _ _ _ _ _) as [|m msgs];
        cbn [snd In app] in Hout; [exact Hout|].
      destruct Hout as [Hout | Hout]; [discriminate Hout|].
      apply in_app_or in Hout. destruct Hout as [Hout | [Hout | []]].
      + apply in_map_iff in Hout. destruct Hout as (x & Hx & _).
        discriminate Hx.
      + destruct (0 <? _); discriminate Hout.
    - unfold chat_input in Hout. rewrite He, Hchat in Hout.
      destruct Hout. }
  apply Hall. apply in_map.
  rewrite firstn_all2; [unfold latest_first; now apply order_by_desc_in|].
  unfold latest_first.
  rewrite (Permutation_length (order_by_desc_perm _ _)), Hconv.
  rewrite Huid, Hrid, Htotal in Hfew. lia.
Qed.
End WindowsCover.

(** ** An empty conversation *)

Section EmptyConversation.
Import Store Chat Interface Spec Session Terms.

(** X18. With no message between the user and the partner, opening the
    chat prints the header and no message, the watermark is 0, and
    [/more], once the typed line is wiped, answers "No older messages"
    and changes nothing. *)
Theorem empty_conversation (d : DB) (s : MessagingInterface) (P : Z)
    (name : string) (now : Z) :
  filter (between (user_id s) P) (messages d) = [] ->
  0 <= messages_per_page s ->
  is_executing s = true ->
  let st := start d s P name in
  console st = [ClearScreen; ChatHeader name]
  /\ last_msg (ui st) = 0
  /\ react st (Line "/more" now)
     = (db st, ui st, [ClearTerminalLines "/more"; NoOlderMessages]).
Proof.
  intros Hnone Hpage Hexec st.
  set (opened := update_is_read
                   (fun m => (m_sender_id m =? P)
                             && (m_recipient_id m =? user_id s)) d).
  assert (Hconv : conv_rows opened (user_id s) P = []).
  { unfold opened. rewrite conv_rows_update. unfold conv_rows.
    now rewrite Hnone. }
  assert (Hwin : forall limit offset,
             messages_with opened (user_id s) P limit offset = []).
  { intros limit offset. unfold messages_with.
    fold (conv_rows opened (user_id s) P). rewrite Hconv.
    unfold limit_offset. cbn [order_by_desc fold_right].
    rewrite skipn_nil. now destruct (limit <? 0); rewrite ?firstn_nil. }
  assert (Htotal : total_messages_with opened (user_id s) P = 0).
  { unfold opened. rewrite total_update. unfold total_messages_with.
    now rewrite Hnone. }
  assert (Hst : st = mkState opened
                       (set_last_msg 0 (enter_chat P name s)) P name
                       [ClearScreen; ChatHeader name]).
  { unfold st, start, open_chat.
    change (user_id (enter_chat P name s)) with (user_id s).
    change (messages_per_page (enter_chat P name s))
      with (messages_per_page s).
    fold opened. cbv zeta. rewrite Hwin, Htotal.
    change (messages_per_page (set_last_msg _ _)) with (messages_per_page s).
    destruct (messages_per_page s <? 0) eqn:E; [lia|]. reflexivity. }
  rewrite Hst. cbn [console ui last_msg set_last_msg db rid rname].
  repeat split. cbn [react db ui rid rname].
  rewrite chat_input_more by (cbn; now rewrite Hexec).
  unfold get_older_messages_from.
  cbn [user_id history_offset messages_per_page set_last_msg enter_chat].
  rewrite Htotal.
  destruct (0 <=? 0 + messages_per_page s) eqn:E; [reflexivity|].
  apply Z.leb_gt in E. lia.
Qed.
End EmptyConversation.

(** X18 at Carol's side of the inbox: she has no message with Bob. *)
Lemma empty_conversation_witness :
  Session.console (Session.start Sample.inbox (Interface.init 3 3) 2 "bob")
  = [Interface.ClearScreen; Interface.ChatHeader "bob"].
Proof.
  apply (empty_conversation Sample.inbox (Interface.init 3 3) 2 "bob" 0);
    [reflexivity | cbn; lia | reflexivity].
Defined.

(** ** More on the conversation menu *)

Section MenuMore.
Import Store Chat Interface Spec Menu Terms.

(** X19. Over an unchanged store the menu never leaves the pages of
    the conversation list: with a positive [chats_per_page], when
    [chat_page] is one of the pages (0 when there is no conversation),
    it still is after any command, and after a chat was opened by
    username. *)
Theorem menu_stays_in_pages (db : DB) (s : MessagingInterface)
    (rows : list ChatRow) (command typed : string) :
  0 < chats_per_page s ->
  in_pages db s ->
  in_pages db (after (fst (dispatch db s rows command)))
  /\ in_pages db (after (open_by_username db s typed)).
Proof.
  unfold in_pages. intros Hcpp Hin. split.
  - unfold dispatch.
    destruct (String.eqb command "p").
    { cbn [fst after]. destruct (0 <? chat_page s) eqn:E;
        [apply Z.ltb_lt in E; cbn; lia | exact Hin]. }
    destruct (String.eqb command "n").
    { destruct (chats_per_page s =? 0) eqn:E0; [exact Hin|].
      cbn [fst after].
      destruct (chat_page s <? _) eqn:E;
        [apply Z.ltb_lt in E; cbn; lia | exact Hin]. }
    destruct (String.eqb command "f"); [cbn; lia|].
    destruct (String.eqb command "l").
    { destruct (0 <? total_chats db (user_id s)) eqn:Et; [|exact Hin].
      destruct (chats_per_page s =? 0) eqn:E0; [exact Hin|].
      apply Z.ltb_lt in Et.
      pose proof (ceil_div_pos _ _ Hcpp Et) as Hpos.
      cbn [fst after set_chat_page chat_page user_id chats_per_page]. lia. }
    destruct (String.eqb command "o"); [exact Hin|].
    destruct (String.eqb command "u"); [exact Hin|].
    destruct (String.eqb command "r"); [exact Hin|].
    destruct (_ || _); [exact Hin|].
    destruct (PyStr.isdigit command); [|exact Hin].
    destruct (PyStr.int command); [|exact Hin].
    destruct (_ || _); [exact Hin|].
    destruct (py_index rows _); exact Hin.
  - unfold open_by_username.
    destruct (prompt_for_recipient db s typed) as [[rid rname]|];
      [|exact Hin].
    destruct (_ && _); [cbn; lia | exact Hin].
Qed.

(** X20. With [users.id] a key and a positive [chats_per_page], the
    menu never shows an empty page while there are conversations: when
    [chat_page] is one of the pages and [total_chats] is positive,
    [show_command_menu_view] returns between 1 and [chats_per_page]
    rows. *)
Theorem menu_page_is_not_empty (db : DB) (s : MessagingInterface) :
  NoDup (map u_id (users db)) ->
  0 < chats_per_page s ->
  in_pages db s ->
  0 < total_chats db (user_id s) ->
  exists rows,
    show_command_menu_view db s = Ok rows
    /\ 1 <= len rows <= chats_per_page s.
Proof.
  intros Hpk Hcpp Hin Htotal. unfold in_pages in Hin.
  unfold show_command_menu_view.
  destruct (chats_per_page s =? 0) eqn:E0; [lia|].
  eexists. split; [reflexivity|].
  cbn [chats]. unfold truthy. rewrite E0. cbn [negb].
  unfold limit_offset. destruct (chats_per_page s <? 0) eqn:E1; [lia|].
  pose proof (total_chats_length db (user_id s) Hpk) as Hcount.
  cbn [chats] in Hcount.
  pose proof (ceil_div_last_page (total_chats db (user_id s))
                (chats_per_page s) Hcpp) as Hlast.
  pose proof (ceil_div_pos (total_chats db (user_id s))
                (chats_per_page s) Hcpp Htotal) as Hpos.
  unfold len in *. rewrite length_firstn, length_skipn. nia.
Qed.

(** What [l[i]] does for an index that is not negative. *)
Lemma py_index_nonneg {A : Type} (l : list A) (i : Z) :
  0 <= i ->
  (i < len l -> exists x, py_index l i = Ok x
                          /\ nth_error l (Z.to_nat i) = Some x)
  /\ (len l <= i -> py_index l i = Raise IndexError).
Proof.
  intros Hi. unfold py_index, len.
  destruct (i <? 0) eqn:E; [lia|]. rewrite E. split.
  - intros Hlt.
    destruct (nth_error l (Z.to_nat i)) as [x|] eqn:En.
    + now exists x.
    + apply nth_error_None in En. lia.
  - intros Hge.
    destruct (nth_error l (Z.to_nat i)) as [x|] eqn:En; [|reflexivity].
    assert (nth_error l (Z.to_nat i) <> None) by congruence.
    apply nth_error_Some in H. lia.
Qed.

(** X21. A digit command that names a listed conversation opens it:
    when [int] reads the command as [n] with [1 <= n <= len(chats)], the
    loop calls [goto_chat_view] with the partner id and username of the
    [n]-th row shown, having printed nothing itself. *)
Theorem run_opens_selected (db : DB) (s : MessagingInterface)
    (rows : list ChatRow) (command : string) (n : Z) :
  show_command_menu_view db s = Ok rows ->
  PyStr.isdigit command = true ->
  PyStr.int command = Ok n ->
  1 <= n <= len rows ->
  exists row,
    nth_error rows (Z.to_nat (n - 1)) = Some row
    /\ run_iteration db s command
       = (Call (ChatView (chat_partner_id row) (chat_partner_username row)) s,
          []).
Proof.
  intros Hview Hdigits Hint Hn.
  destruct (proj1 (py_index_nonneg rows (n - 1) ltac:(lia)) ltac:(lia))
    as (row & Hidx & Hnth).
  exists row. split; [exact Hnth|].
  unfold run_iteration. rewrite Hview.
  rewrite dispatch_digits by assumption. rewrite Hint, Hidx.
  destruct (n - 1 <? 0) eqn:E1; [lia|].
  destruct (len rows <? n - 1) eqn:E2; [lia|]. reflexivity.
Qed.



(** X23. [prompt_for_recipient_and_initialize_chat] finds enabled users
    other than the user, by their exact username: what it returns is the
    id and username of a row of [users] that is not disabled, is not the
    user's own, and carries the typed name once stripped; and it returns
    nothing only when no such row exists. *)
Theorem prompt_finds_enabled_user (db : DB) (s : MessagingInterface)
    (typed : string) :
  (forall rid rname,
      prompt_for_recipient db s typed = Some (rid, rname) ->
      exists u, In u (users db) /\ u_id u = rid /\ u_username u = rname
                /\ rname = PyStr.strip typed
                /\ u_is_disabled u = false /\ rid <> user_id s)
  /\ (prompt_for_recipient db s typed = None ->
      forall u, In u (users db) -> u_username u = PyStr.strip typed ->
                u_is_disabled u = true \/ u_id u = user_id s).
Proof.
  unfold prompt_for_recipient, nondisabled_users. split.
  - intros rid rname H.
    destruct (find _ _) as [u|] eqn:E; [|discriminate].
    inversion H; subst. apply find_some in E. destruct E as (Hin & Hname).
    apply filter_In in Hin. destruct Hin as (Hin & Hc).
    apply andb_true_iff in Hc. destruct Hc as (Hdis & Hself).
    apply negb_true_iff in Hdis, Hself. apply Z.eqb_neq in Hself.
    apply String.eqb_eq in Hname.
    exists u. repeat split; assumption.
  - intros H u Hu Hname.
    destruct (find _ _) as [v|] eqn:E; [discriminate|].
    destruct (u_is_disabled u) eqn:Hdis; [now left|].
    destruct (Z.eq_dec (u_id u) (user_id s)) as [Hself|Hself]; [now right|].
    exfalso.
    assert (Hin : In u (filter (fun u => negb (u_is_disabled u)
                                         && negb (u_id u =? user_id s))
                               (users db))).
    { apply filter_In. split; [exact Hu|].
      rewrite Hdis. apply Z.eqb_neq in Hself. now rewrite Hself. }
    pose proof (find_none _ _ E u Hin) as Hno. cbv beta in Hno.
    rewrite Hname, String.eqb_refl in Hno. discriminate.
Qed.
End MenuMore.

(** ** Centring text that carries colour codes *)

Section UiCenter.
Import Ui.

Lemma blanks_length (n : nat) : String.length (blanks n) = n.
Proof.
  induction n as [|n IH]; [reflexivity|]. cbn. now rewrite IH.
Qed.

Lemma append_length (a b : string) :
  String.length (a ++ b)%string = (String.length a + String.length b)%nat.
Proof.
  induction a as [|c a IH]; [reflexivity|]. cbn. now rewrite IH.
Qed.

(** Blanks start no escape sequence. *)
Lemma ansi_match_blank (r : string) : ansi_match (String " "%char r) = None.
Proof.
  now destruct r.
Qed.

Lemma remove_ansi_blanks (n : nat) (s : string) :
  remove_ansi_from 0 (blanks n ++ s)%string
  = (blanks n ++ remove_ansi_from 0 s)%string.
Proof.
  induction n as [|n IH]; [reflexivity|].
  cbn [blanks String.append]. cbn [remove_ansi_from].
  now rewrite ansi_match_blank, IH.
Qed.

Lemma sgr_tail_blanks (n : nat) : sgr_tail (blanks n) = None.
Proof.
  now destruct n.
Qed.

(** Blanks after the text neither complete nor break a match. *)
Lemma sgr_tail_append (r : string) (n : nat) :
  sgr_tail (r ++ blanks n)%string = sgr_tail r.
Proof.
  induction r as [|c r IH]; cbn [String.append sgr_tail].
  - apply sgr_tail_blanks.
  - now rewrite IH.
Qed.

Lemma ansi_match_append (c : ascii) (r : string) (n : nat) :
  ansi_match (String c r ++ blanks n)%string = ansi_match (String c r).
Proof.
  destruct r as [|c2 r]; cbn [String.append ansi_match].
  - destruct n as [|n]; [reflexivity|]. cbn [blanks].
    now rewrite andb_false_r.
  - now rewrite sgr_tail_append.
Qed.

Lemma sgr_tail_bound (r : string) (k : nat) :
  sgr_tail r = Some k -> (k <= String.length r)%nat.
Proof.
  revert k. induction r as [|c r IH]; intros k; cbn [sgr_tail]; [discriminate|].
  destruct (is_param c).
  - destruct (sgr_tail r) as [j|]; [|discriminate].
    cbn. intros [= <-]. specialize (IH j eq_refl). lia.
  - destruct (Ascii.eqb c "m"); [|discriminate]. intros [= <-]. cbn. lia.
Qed.

Lemma ansi_match_bound (s : string) (k : nat) :
  ansi_match s = Some k -> (k <= String.length s)%nat.
Proof.
  destruct s as [|c1 [|c2 r]]; cbn [ansi_match]; try discriminate.
  destruct (_ && _); [|discriminate].
  destruct (sgr_tail r) as [j|] eqn:E; [|discriminate].
  cbn. intros [= <-]. apply sgr_tail_bound in E. lia.
Qed.

Lemma remove_ansi_append (s : string) (k n : nat) :
  (k <= String.length s)%nat ->
  remove_ansi_from k (s ++ blanks n)%string
  = (remove_ansi_from k s ++ blanks n)%string.
Proof.
  revert k. induction s as [|c r IH]; intros k Hk.
  - cbn in Hk. assert (k = 0%nat) as -> by lia.
    cbn [String.append remove_ansi_from].
    clear. induction n as [|n IH]; [reflexivity|].
    cbn [blanks remove_ansi_from]. now rewrite ansi_match_blank, IH.
  - cbn [String.length] in Hk.
    change (String c r ++ blanks n)%string
      with (String c (r ++ blanks n)%string).
    cbn [remove_ansi_from].
    destruct k as [|k]; [|apply IH; lia].
    change (String c (r ++ blanks n)%string)
      with (String c r ++ blanks n)%string.
    rewrite ansi_match_append.
    destruct (ansi_match (String c r)) as [[|j]|] eqn:E.
    + cbn [String.append]. now rewrite IH by lia.
    + apply ansi_match_bound in E. cbn [String.length] in E.
      apply IH. lia.
    + cbn [String.append]. now rewrite IH by lia.
Qed.

(** X24. [center] counts what the terminal shows: colour codes are
    kept and do not count.  When the text without its codes is shorter
    than [width], the result is the text between [left] and [right]
    blanks with [left <= right <= left + 1], and without its codes it
    is exactly [width] characters long. *)
Theorem center_visible_width (s : string) (width : Z) :
  strlen_no_ansi s < width ->
  exists left right : nat,
    center s width = (blanks left ++ s ++ blanks right)%string
    /\ remove_ansi (center s width)
       = (blanks left ++ remove_ansi s ++ blanks right)%string
    /\ (left <= right <= left + 1)%nat
    /\ strlen_no_ansi (center s width) = width.
Proof.
  intros Hshort.
  assert (Hpos : 0 <= strlen_no_ansi s) by (unfold strlen_no_ansi; lia).
  set (padding := width - strlen_no_ansi s).
  exists (Z.to_nat (padding / 2)), (Z.to_nat (padding - padding / 2)).
  assert (Hc : center s width
               = (blanks (Z.to_nat (padding / 2)) ++ s
                  ++ blanks (Z.to_nat (padding - padding / 2)))%string).
  { unfold center. destruct (width <=? strlen_no_ansi s) eqn:E.
    - apply Z.leb_le in E. lia.
    - reflexivity. }
  assert (Hr : remove_ansi (center s width)
               = (blanks (Z.to_nat (padding / 2)) ++ remove_ansi s
                  ++ blanks (Z.to_nat (padding - padding / 2)))%string).
  { rewrite Hc. unfold remove_ansi.
    now rewrite remove_ansi_blanks, remove_ansi_append by lia. }
  assert (Hhalf : 0 <= padding / 2 /\ padding / 2 <= padding - padding / 2
                  /\ padding - padding / 2 <= padding / 2 + 1).
  { pose proof (Z.div_mod padding 2 ltac:(lia)).
    pose proof (Z.mod_pos_bound padding 2 ltac:(lia)). lia. }
  repeat split; try assumption; try lia.
  unfold strlen_no_ansi at 1. rewrite Hr, !append_length, !blanks_length.
  fold (strlen_no_ansi s) in *. unfold strlen_no_ansi in *. lia.
Qed.
End UiCenter.

(** X24 on the coloured part of a chat header, 11 visible characters in
    a field of 20. *)
Lemma center_visible_width_witness :
  exists left right : nat,
    Ui.center ("Chat with " ++ String Ui.ESC "[38;5;39m@"
               ++ String Ui.ESC "[0m")%string 20
    = (Ui.blanks left
       ++ ("Chat with " ++ String Ui.ESC "[38;5;39m@"
           ++ String Ui.ESC "[0m")
       ++ Ui.blanks right)%string
    /\ Ui.remove_ansi
         (Ui.center ("Chat with " ++ String Ui.ESC "[38;5;39m@"
                     ++ String Ui.ESC "[0m")%string 20)
       = (Ui.blanks left
          ++ Ui.remove_ansi ("Chat with " ++ String Ui.ESC "[38;5;39m@"
                             ++ String Ui.ESC "[0m")
          ++ Ui.blanks right)%string
    /\ (left <= right <= left + 1)%nat
    /\ Ui.strlen_no_ansi
         (Ui.center ("Chat with " ++ String Ui.ESC "[38;5;39m@"
                     ++ String Ui.ESC "[0m")%string 20) = 20.
Proof.
  apply center_visible_width. vm_compute. reflexivity.
Defined.

(** ** The list of users one can chat with *)

Section UsersViewFacts.
Import Store Chat Interface UsersView.

Lemma insert_user_in (u x : User) (l : list User) :
  In x (insert_user u l) <-> x = u \/ In x l.
Proof.
  induction l as [|v l IH]; cbn [insert_user].
  - cbn. intuition congruence.
  - destruct (listed_before u v); cbn [In]; [intuition congruence|].
    rewrite IH. intuition congruence.
Qed.

Lemma insert_user_perm (u : User) (l : list User) :
  Permutation (insert_user u l) (u :: l).
Proof.
  induction l as [|v l IH]; cbn [insert_user]; [reflexivity|].
  destruct (listed_before u v); [reflexivity|].
  rewrite IH. apply perm_swap.
Qed.

Lemma listing_perm (db : DB) (uid : Z) :
  Permutation (listing db uid) (nondisabled_users db uid).
Proof.
  unfold listing.
  induction (nondisabled_users db uid) as [|u l IH]; [reflexivity|].
  cbn [fold_right]. rewrite insert_user_perm. now constructor.
Qed.

Lemma listing_in (db : DB) (uid : Z) (u : User) :
  In u (listing db uid)
  <-> In u (users db) /\ u_is_disabled u = false /\ u_id u <> uid.
Proof.
  split.
  - intros H. apply (Permutation_in _ (listing_perm db uid)) in H.
    apply filter_In in H. destruct H as (Hin & Hc).
    apply andb_true_iff in Hc. destruct Hc as (Hd & Hs).
    apply negb_true_iff in Hd, Hs. apply Z.eqb_neq in Hs. now repeat split.
  - intros (Hin & Hd & Hs).
    apply (Permutation_in _ (Permutation_sym (listing_perm db uid))).
    apply filter_In. split; [exact Hin|].
    apply Z.eqb_neq in Hs. now rewrite Hd, Hs.
Qed.

(** The slice of a page is a window of ten rows of the listing. *)
Lemma page_users_window (db : DB) (s : MessagingInterface) (page : Z) :
  0 <= page ->
  page_users db s page
  = firstn 10 (skipn (Z.to_nat page * 10) (listing db (user_id s))).
Proof.
  intros Hpage. unfold page_users, py_slice, slice_index, users_per_page.
  set (l := listing db (user_id s)).
  assert (Hlen : 0 <= len l) by (unfold len; lia).
  destruct (page * 10 <? 0) eqn:E1; [lia|].
  destruct (Z.min (len l) (page * 10 + 10) <? 0) eqn:E2; [lia|].
  destruct (Z.le_gt_cases (page * 10) (len l)) as [Hin|Hout].
  - rewrite (Z.min_l (page * 10)) by lia.
    replace (Z.to_nat (page * 10)) with (Z.to_nat page * 10)%nat by lia.
    rewrite <- (firstn_cap 10). rewrite length_skipn. f_equal.
    unfold len in *. lia.
  - rewrite (Z.min_r (page * 10)) by lia.
    rewrite !skipn_all2 by (unfold len in *; lia).
    now rewrite !firstn_nil.
Qed.

Lemma page_users_in (db : DB) (s : MessagingInterface) (page : Z) (u : User) :
  In u (page_users db s page) -> In u (listing db (user_id s)).
Proof.
  unfold page_users, py_slice. intros H.
  apply firstn_in in H. now apply skipn_in in H.
Qed.

(** A digit string is none of the letters of the view. *)
Lemma turn_digits (db : DB) (s : MessagingInterface) (page : Z)
    (command : string) :
  PyStr.isdigit command = true ->
  turn db s page command
  = match PyStr.int command with
    | Raise e => Failed e
    | Ok n =>
        if (n - 1 <? 0) || (len (page_users db s page) <? n - 1)
        then Stay page []
        else match py_index (page_users db s page) (n - 1) with
             | Ok u => Opened (u_id u) (u_username u)
             | Raise e => Failed e
             end
    end.
Proof.
  intros Hd. pose proof (digits_are_no_command command Hd) as L.
  repeat match goal with
         | L : Forall _ (_ :: _) |- _ =>
             let E := fresh "E" in
             inversion L as [|? ? E ?]; clear L; subst
         end.
  unfold turn.
  repeat match goal with
         | E : String.eqb command _ = false |- _ => rewrite ?E; clear E
         end.
  now rewrite Hd.
Qed.

(** X25. A number typed in the list of users opens a chat only with a
    user of the page shown: the chat opened is with the [n]-th user of
    the page, who is enabled and is not the user themselves. *)
Theorem users_view_opens_listed_user (db : DB) (s : MessagingInterface)
    (page : Z) (command : string) (rid : Z) (rname : string) :
  turn db s page command = Opened rid rname ->
  exists u n,
    PyStr.int command = Ok n
    /\ nth_error (page_users db s page) (Z.to_nat (n - 1)) = Some u
    /\ rid = u_id u /\ rname = u_username u
    /\ In u (users db) /\ u_is_disabled u = false /\ u_id u <> user_id s.
Proof.
  destruct (PyStr.isdigit command) eqn:Hd.
  - rewrite turn_digits by assumption.
    destruct (PyStr.int command) as [n|e]; [|discriminate].
    destruct (n - 1 <? 0) eqn:E1; [discriminate|].
    destruct (len (page_users db s page) <? n - 1) eqn:E2; [discriminate|].
    cbn [orb]. apply Z.ltb_ge in E1.
    destruct (Z.lt_ge_cases (n - 1) (len (page_users db s page)))
      as [Hlt|Hge].
    + destruct (proj1 (py_index_nonneg _ (n - 1) E1) Hlt)
        as (u & -> & Hnth).
      intros [= <- <-]. exists u, n.
      pose proof (nth_error_In _ _ Hnth) as Hin.
      apply page_users_in, listing_in in Hin.
      destruct Hin as (Hin & Hen & Hself). now repeat split.
    + rewrite (proj2 (py_index_nonneg _ (n - 1) E1) Hge). discriminate.
  - unfold turn. rewrite Hd.
    repeat match goal with
           | |- context [if ?c then _ else _] => destruct c
           end; discriminate.
Qed.


(** X27. The pages of the list of users: the ten-row pages
    [0 .. total_pages - 1], in order, make up the listing, which holds
    the enabled users other than the user, each as often as [users]
    does; from a page of that range, [p] and [n] lead to a page of that
    range; and a page of that range is not empty when anyone is
    listed. *)
Theorem users_view_pages (db : DB) (s : MessagingInterface) :
  List.concat (map (fun k => page_users db s (Z.of_nat k))
                   (seq 0 (Z.to_nat (total_pages db s))))
  = listing db (user_id s)
  /\ Permutation (listing db (user_id s)) (nondisabled_users db (user_id s))
  /\ forall page,
       0 <= page <= Z.max 0 (total_pages db s - 1) ->
       (forall command page' out,
           turn db s page command = Stay page' out ->
           0 <= page' <= Z.max 0 (total_pages db s - 1))
       /\ (0 < len (listing db (user_id s)) ->
           1 <= len (page_users db s page) <= users_per_page).
Proof.
  pose proof (ceil_div_covers (len (listing db (user_id s))) 10
                ltac:(lia)) as Hcov.
  pose proof (ceil_div_last_page (len (listing db (user_id s))) 10
                ltac:(lia)) as Hlast.
  fold users_per_page in Hcov, Hlast. fold (total_pages db s) in Hcov, Hlast.
  unfold users_per_page in Hcov, Hlast.
  split; [|split; [apply listing_perm|]].
  - rewrite (map_ext _ (fun k => firstn 10
                          (skipn (k * 10)%nat (listing db (user_id s))))).
    + rewrite chunks_concat. apply firstn_all2. unfold len in Hcov.
      destruct (Z.le_gt_cases (total_pages db s) 0); lia.
    + intros k. rewrite page_users_window by lia. now rewrite Nat2Z.id.
  - intros page Hpage. split.
    + intros command page' out. unfold turn.
      destruct (String.eqb command "p").
      { intros [= <- _]. destruct (0 <? page) eqn:E; lia. }
      destruct (String.eqb command "n").
      { intros [= <- _].
        destruct (page <? total_pages db s - 1) eqn:E; lia. }
      destruct (PyStr.isdigit command).
      { destruct (PyStr.int command); [|discriminate].
        destruct (_ || _); [now intros [= <- _]|].
        destruct (py_index _ _); discriminate. }
      destruct (String.eqb command "b"); [discriminate|].
      now intros [= <- _].
    + intros Hsome.
      pose proof (ceil_div_pos _ 10 ltac:(lia) Hsome) as Hpos.
      fold users_per_page in Hpos. fold (total_pages db s) in Hpos.
      rewrite page_users_window by lia. unfold len, users_per_page in *.
      rewrite length_firstn, length_skipn. lia.
Qed.
End UsersViewFacts.

(** ** Centring a block of text *)

Section TextBlockFacts.
Import Ui TextBlock.

Lemma split_not_nil (s : string) : split s <> [].
Proof.
  induction s as [|c r IH]; cbn [split]; [discriminate|].
  destruct (Ascii.eqb c NL); [discriminate|].
  destruct (split r); discriminate.
Qed.

Lemma split_one_line (s : string) : Forall (fun l => one_line l = true) (split s).
Proof.
  induction s as [|c r IH]; cbn [split].
  - now repeat constructor.
  - destruct (Ascii.eqb c NL) eqn:E.
    + now constructor.
    + destruct (split r) as [|line rest]; [now repeat constructor; cbn; rewrite E|].
      inversion IH; subst. constructor; [|assumption].
      cbn. now rewrite E.
Qed.

Lemma split_append_line (a : string) (r : string) :
  one_line a = true ->
  split (a ++ String NL r)%string = a :: split r.
Proof.
  induction a as [|c a IH]; cbn [one_line String.append]; intros H.
  - cbn [split]. now rewrite Ascii.eqb_refl.
  - apply andb_true_iff in H. destruct H as (Hc & Ha).
    apply negb_true_iff in Hc. cbn [split]. rewrite Hc.
    now rewrite (IH Ha).
Qed.

Lemma split_single (a : string) : one_line a = true -> split a = [a].
Proof.
  induction a as [|c a IH]; cbn [one_line]; intros H; [reflexivity|].
  apply andb_true_iff in H. destruct H as (Hc & Ha).
  apply negb_true_iff in Hc. cbn [split]. now rewrite Hc, (IH Ha).
Qed.

(** Splitting what was joined gives the lines back. *)
Lemma split_join (lines : list string) :
  lines <> [] ->
  Forall (fun l => one_line l = true) lines ->
  split (join lines) = lines.
Proof.
  induction lines as [|a rest IH]; [congruence|]. intros _ Hall.
  inversion Hall as [|? ? Ha Hrest]; subst.
  destruct rest as [|b rest].
  - cbn [join]. now apply split_single.
  - change (join (a :: b :: rest))
      with (a ++ String NL (join (b :: rest)))%string.
    rewrite split_append_line by assumption.
    f_equal. apply IH; [discriminate | assumption].
Qed.

(** Joining what was split gives the string back. *)
Lemma join_split (s : string) : join (split s) = s.
Proof.
  induction s as [|c r IH]; [reflexivity|]. cbn [split].
  pose proof (split_not_nil r) as Hne.
  destruct (Ascii.eqb c NL) eqn:E.
  - apply Ascii.eqb_eq in E. subst c.
    destruct (split r) as [|line rest]; [congruence|].
    change (join (EmptyString :: line :: rest))
      with (String NL (join (line :: rest))). now rewrite IH.
  - destruct (split r) as [|line rest]; [congruence|].
    rewrite <- IH. now destruct rest.
Qed.

Lemma one_line_blanks (n : nat) (a : string) :
  one_line (blanks n ++ a)%string = one_line a.
Proof.
  induction n as [|n IH]; [reflexivity|]. cbn. exact IH.
Qed.

Lemma max_len_bound (lines : list string) (line : string) :
  In line lines -> Z.of_nat (String.length line) <= max_len lines.
Proof.
  unfold max_len. induction lines as [|a rest IH]; [contradiction|].
  cbn [map fold_right]. intros [->|H]; [lia|]. specialize (IH H). lia.
Qed.

(** X28. [center_string] moves a block as a whole: the result has the
    lines of [s], each behind the same margin of
    [(width - max_len) // 2] blanks (none when that is not positive), so
    the lines keep their alignment to each other; a block at most one
    character narrower than [width], or wider, comes back unchanged;
    and when the longest line fits in [width], so does every line of
    the result. *)
Theorem center_string_shifts_block (s : string) (width : Z) :
  let margin := (width - max_len (split s)) / 2 in
  split (center_string s width)
  = map (fun line => (spaces margin ++ line)%string) (split s)
  /\ (width <= max_len (split s) + 1 -> center_string s width = s)
  /\ (max_len (split s) <= width ->
      forall line, In line (split (center_string s width)) ->
                   Z.of_nat (String.length line) <= width).
Proof.
  intros margin.
  assert (Hsplit : split (center_string s width)
                   = map (fun line => (spaces margin ++ line)%string)
                         (split s)).
  { unfold center_string. fold margin. apply split_join.
    - pose proof (split_not_nil s). destruct (split s); [congruence|].
      discriminate.
    - apply Forall_map. eapply Forall_impl; [|apply split_one_line].
      intros a Ha. unfold spaces. now rewrite one_line_blanks. }
  split; [exact Hsplit|]. split.
  - intros Hnarrow. unfold center_string. fold margin.
    assert (Hm : margin <= 0).
    { subst margin. apply Z.lt_succ_r.
      apply Z.div_lt_upper_bound; lia. }
    unfold spaces. replace (Z.to_nat margin) with 0%nat by lia.
    cbn [blanks String.append]. rewrite map_id. apply join_split.
  - intros Hfits line Hin. rewrite Hsplit in Hin.
    apply in_map_iff in Hin. destruct Hin as (a & <- & Ha).
    apply max_len_bound in Ha.
    unfold spaces. rewrite append_length, blanks_length.
    assert (0 <= margin /\ 2 * margin <= width - max_len (split s)).
    { subst margin. split; [apply Z.div_pos; lia|].
      apply Z.mul_div_le. lia. }
    lia.
Qed.
End TextBlockFacts.

(** ** The further properties on the sample stores *)

Lemma sample_people_keyed :
  NoDup (map Store.u_id (Store.users Sample.inbox)).
Proof.
  cbn. repeat constructor; cbn; intuition discriminate.
Qed.

Lemma sample_alice_in_pages : Terms.in_pages Sample.inbox Sample.alice.
Proof.
  unfold Terms.in_pages. split; vm_compute; discriminate.
Qed.

(** X5 at Carol's row of Alice's menu: it carries message 4, her latest. *)
Lemma chats_row_is_latest_witness :
  exists m,
    In m (Store.messages Sample.inbox)
    /\ Chat.involves 1 m = true
    /\ Chat.partner_of 1 m = 3
    /\ Store.m_sender_id m = 3
    /\ Store.m_message m = "again"
    /\ Store.m_created_at m = 103.
Proof.
  apply (proj1 (chats_row_is_latest Sample.inbox 1 None 0
                  (Chat.mkChatRow "carol" "leader" 3 3 "again" 103 2)
                  (or_introl eq_refl))).
Defined.

(** X7 at Alice's menu in pages of one row. *)
Lemma chats_pages_partition_witness :
  List.concat
    (map (fun k => Chat.chats Sample.inbox 1 (Some 1) (Z.of_nat k * 1))
         (seq 0 (Z.to_nat (ceil_div (len (Chat.chats Sample.inbox 1 None 0))
                                    1))))
  = Chat.chats Sample.inbox 1 None 0.
Proof.
  apply (chats_pages_partition Sample.inbox 1 1). lia.
Defined.

(** X8 at Alice's menu: two conversations. *)
Lemma total_chats_counts_chats_witness :
  Chat.total_chats Sample.inbox 1 = len (Chat.chats Sample.inbox 1 None 0).
Proof.
  apply (total_chats_counts_chats Sample.inbox 1). exact sample_people_keyed.
Defined.

(** X10 at Alice's chat with Bob: Bob writes, she answers, the poller
    runs. *)
Lemma session_keeps_integrity_witness :
  Spec.well_formed
    (Session.db
       (Session.run (Session.start Sample.inbox Sample.alice 2 "bob")
          [Session.Peer 2 1 "ping" 104; Session.Line "hello" 105;
           Session.Poll])).
Proof.
  apply (session_keeps_integrity Sample.inbox Sample.alice 2 "bob").
  - exact sample_inbox_well_formed.
  - eexists. reflexivity.
  - repeat constructor. eexists. reflexivity.
Defined.

(** X16 at Alice's chat with Bob over eleven messages, after [/more]
    and a poll. *)
Lemma clear_reprints_loaded_witness :
  StronglySorted Z.lt
    (Session.shown Terms.is_redrawn
       (snd (Session.react
               (Session.run (Session.start Sample.history Sample.alice 2 "bob")
                  [Session.Line "/more" 12; Session.Poll])
               (Session.Line "/clear" 13)))).
Proof.
  apply (clear_reprints_loaded Sample.history Sample.alice 2 "bob"
           [Session.Line "/more" 12; Session.Poll]
           sample_history_well_formed sample_history_chronological).
  - cbn. lia.
  - reflexivity.
  - repeat constructor.
  - reflexivity.
Defined.

(** X17 at the same chat: after one [/more] the second one finds
    nothing older, and all eleven messages are on the screen. *)
Lemma no_older_means_all_loaded_witness :
  let st := Session.run (Session.start Sample.history Sample.alice 2 "bob")
              [Session.Line "/more" 12] in
  Forall (fun r => In (Chat.row_id r)
                      (Session.shown Session.is_window (Session.console st)))
         (Session.conversation st).
Proof.
  intros st. apply Forall_forall. intros r Hr.
  apply (no_older_means_all_loaded Sample.history Sample.alice 2 "bob"
           [Session.Line "/more" 12]
           sample_history_well_formed sample_history_chronological
           ltac:(cbn; lia) eq_refl ltac:(repeat constructor) 13
           (or_intror (or_introl eq_refl)) r Hr).
Defined.

(** X19 for [n] on the one page of Alice's menu. *)
Lemma menu_stays_in_pages_witness :
  Terms.in_pages Sample.inbox
    (Terms.after (fst (Menu.dispatch Sample.inbox Sample.alice
                         (Chat.chats Sample.inbox 1 (Some 3) 0) "n"))).
Proof.
  apply (proj1 (menu_stays_in_pages Sample.inbox Sample.alice
                  (Chat.chats Sample.inbox 1 (Some 3) 0) "n" "bob"
                  ltac:(cbn; lia) sample_alice_in_pages)).
Defined.

(** X20 at Alice's menu. *)
Lemma menu_page_is_not_empty_witness :
  exists rows,
    Menu.show_command_menu_view Sample.inbox Sample.alice = Ok rows
    /\ 1 <= len rows <= 3.
Proof.
  apply (menu_page_is_not_empty Sample.inbox Sample.alice
           sample_people_keyed ltac:(cbn; lia) sample_alice_in_pages).
  vm_compute. reflexivity.
Defined.

(** X21 for the command [2] in Alice's menu: the chat with Bob. *)
Lemma run_opens_selected_witness :
  exists row,
    nth_error (Chat.chats Sample.inbox 1 (Some 3) 0) (Z.to_nat (2 - 1))
    = Some row
    /\ Menu.run_iteration Sample.inbox Sample.alice "2"
       = (Menu.Call (Menu.ChatView (Chat.chat_partner_id row)
                                   (Chat.chat_partner_username row))
                    Sample.alice, []).
Proof.
  apply (run_opens_selected Sample.inbox Sample.alice
           (Chat.chats Sample.inbox 1 (Some 3) 0) "2" 2);
    [reflexivity | reflexivity | reflexivity | vm_compute].
  split; discriminate.
Defined.


(** X25 for the command [1] on Alice's list of users: Bob. *)
Lemma users_view_opens_listed_user_witness :
  exists u n,
    PyStr.int "1" = Ok n
    /\ nth_error (UsersView.page_users Sample.inbox Sample.alice 0)
                 (Z.to_nat (n - 1)) = Some u
    /\ 2 = Store.u_id u /\ "bob" = Store.u_username u
    /\ In u (Store.users Sample.inbox)
    /\ Store.u_is_disabled u = false
    /\ Store.u_id u <> Interface.user_id Sample.alice.
Proof.
  apply (users_view_opens_listed_user Sample.inbox Sample.alice 0 "1").
  reflexivity.
Defined.
